(** * moseq2-extract: the frame-level extraction pipeline of [extract/proc.py]

    A shallow embedding of the functions of [moseq2_extract/extract/proc.py]
    and the properties the specification states about them.

    Conventions of the embedding:
    - a numpy array of one axis is a [list]; an image is a list of rows; a
      frame batch is a list of images;
    - [np.float64] values are Rocq's primitive binary64 floats ([PrimFloat]),
      so [nan] is IEEE's NaN, arithmetic on it gives NaN and every ordered
      comparison with it is [false], as in numpy;
    - integer pixel data is [Z], with the wrap-around of a cast written out;
      an ROI mask, boolean or unsigned, has entries in [N];
    - a Python exception is the [Raise] branch of [outcome];
    - calls into OpenCV, scikit-image, scipy.signal and the flip classifier
      are parameters of the section that models the calling function. *)

From Stdlib Require Import ZArith List Lia Bool String.
From Stdlib Require Import PrimFloat SpecFloat FloatOps FloatAxioms.
From stdpp Require Import base list.

Open Scope Z_scope.

(** ** Python exceptions and results *)

Inductive exn : Type :=
| ValueError
| IndexError
| TypeError
| UnboundLocalError
| ZeroDivisionError
| OverflowError
| IOError.

Inductive outcome (A : Type) : Type :=
| Ok (a : A)
| Raise (e : exn).

Arguments Ok {A} a.
Arguments Raise {A} e.

Definition rbind {A B : Type} (m : outcome A) (k : A -> outcome B) : outcome B :=
  match m with
  | Ok a => k a
  | Raise e => Raise e
  end.

Notation "'let*' x ':=' m 'in' k" := (rbind m (fun x => k))
  (at level 10, x name, m at level 100, k at level 200).

(** A loop whose body may raise: the first exception ends it. *)
Fixpoint rmapM {A B : Type} (f : A -> outcome B) (l : list A) : outcome (list B) :=
  match l with
  | [] => Ok []
  | a :: t => let* b := f a in let* bs := rmapM f t in Ok (b :: bs)
  end.

Fixpoint rfold {A S : Type} (f : S -> A -> outcome S) (l : list A) (s : S) : outcome S :=
  match l with
  | [] => Ok s
  | a :: t => let* s' := f s a in rfold f t s'
  end.

(** ** Floating-point helpers *)

(** An integer as a [np.float64]; exact below [2 ^ 53] in absolute value. *)
Definition Zf (z : Z) : float :=
  match z with
  | Z0 => 0%float
  | Zpos _ => of_uint63 (Uint63Axioms.of_Z z)
  | Zneg q => (- of_uint63 (Uint63Axioms.of_Z (Zpos q)))%float
  end.

(** [x > y], [x < y] and [x >= y] on floats, in the order the code writes
    them; each is [false] when an argument is NaN. *)
Definition fgt (x y : float) : bool := (y <? x)%float.
Definition flt (x y : float) : bool := (x <? y)%float.
Definition fge (x y : float) : bool := (y <=? x)%float.

(** [np.minimum] and [np.maximum]: NaN if either argument is. *)
Definition np_minimum (x y : float) : float :=
  if is_nan x || is_nan y then nan else if (y <? x)%float then y else x.
Definition np_maximum (x y : float) : float :=
  if is_nan x || is_nan y then nan else if (x <? y)%float then y else x.

(** [np.clip(x, lo, hi)]. *)
Definition np_clip (x lo hi : float) : float := np_minimum (np_maximum x lo) hi.

(** [np.hypot]: the C library's [hypot], which is [sqrt (x*x + y*y)] up to
    the rounding of the intermediate sum (and its overflow). *)
Definition np_hypot (x y : float) : float := PrimFloat.sqrt (x * x + y * y)%float.

(** [np.mean] of a one-axis array: NaN when it is empty. *)
Definition np_sum (l : list float) : float := fold_left PrimFloat.add l 0%float.
Definition np_mean (l : list float) : float :=
  (np_sum l / Zf (Z.of_nat (length l)))%float.

(** Sorting, as [np.sort] orders finite values. *)
Fixpoint finsert (x : float) (l : list float) : list float :=
  match l with
  | [] => [x]
  | y :: t => if (x <=? y)%float then x :: l else y :: finsert x t
  end.

Definition fsort (l : list float) : list float := fold_right finsert [] l.

(** The median of a one-axis array without NaN: the middle entry of the
    sorted array, the mean of the two middle ones when their number is even,
    and NaN for an empty array. *)
Definition np_median (l : list float) : float :=
  let s := fsort l in
  let n := length s in
  if (n =? 0)%nat then nan
  else if Nat.odd n then nth (n / 2) s nan
  else ((nth (n / 2 - 1) s nan + nth (n / 2) s nan) / 2)%float.

(** [np.nanmedian]: the median of the entries that are not NaN. *)
Definition np_nanmedian (l : list float) : float :=
  np_median (List.filter (fun x => negb (is_nan x)) l).

(** [a.argmax()]: the first index of the largest entry; the scan stops at a
    NaN, which numpy treats as the largest; [ValueError] on an empty array. *)
Fixpoint argmax_loop {A : Type} (le : A -> A -> bool) (stop : A -> bool)
    (mp : A) (mi i : nat) (l : list A) : nat :=
  match l with
  | [] => mi
  | a :: t =>
      if stop mp then mi
      else if negb (le a mp) then argmax_loop le stop a i (S i) t
      else argmax_loop le stop mp mi (S i) t
  end.

Definition np_argmax {A : Type} (le : A -> A -> bool) (stop : A -> bool)
    (l : list A) : outcome nat :=
  match l with
  | [] => Raise ValueError
  | a :: t => Ok (argmax_loop le stop a 0%nat 1%nat t)
  end.

Definition np_argmax_float : list float -> outcome nat :=
  np_argmax PrimFloat.leb is_nan.
Definition np_argmax_Z : list Z -> outcome nat :=
  np_argmax Z.leb (fun _ => false).

(** Elementwise operation on two one-axis arrays with numpy's broadcasting:
    equal lengths, or one of them of length one. *)
Definition np_broadcast2 {A B C : Type} (f : A -> B -> C) (a : list A) (b : list B)
    : outcome (list C) :=
  if (length a =? length b)%nat then Ok (zip_with f a b)
  else match a, b with
       | [a0], _ => Ok (map (f a0) b)
       | _, [b0] => Ok (map (fun x => f x b0) a)
       | _, _ => Raise ValueError
       end.

(** [a[idx]] and [a[idx] = vals] for an index array [idx]. *)
Definition np_take {A : Type} (a : list A) (idx : list nat) : outcome (list A) :=
  rmapM (fun i => match a !! i with Some x => Ok x | None => Raise IndexError end) idx.

Definition np_put {A : Type} (a : list A) (idx : list nat) (vals : list A) : outcome (list A) :=
  rfold (fun acc '(i, v) =>
           if (i <? length acc)%nat then Ok (<[i := v]> acc) else Raise IndexError)
        (zip idx vals) a.

(** ** numpy helpers on one-axis arrays *)

(** [np.where(cond)[0]]: the indices at which [p] holds, in increasing order. *)
Fixpoint where_from {A : Type} (p : A -> bool) (i : nat) (l : list A) : list nat :=
  match l with
  | [] => []
  | a :: t => if p a then i :: where_from p (S i) t else where_from p (S i) t
  end.

Definition np_where {A : Type} (p : A -> bool) (l : list A) : list nat :=
  where_from p 0%nat l.

(** [a.min()] and [a.max()] of an index array; the callers guard the empty case. *)
Definition np_min (l : list nat) : nat := fold_right Nat.min (hd 0%nat l) l.
Definition np_max (l : list nat) : nat := fold_right Nat.max 0%nat l.

(** ** Images *)

Definition image := list (list Z).
Definition batch := list image.

(** ** [get_bbox] *)

(** An ROI mask: a boolean or unsigned array, so its entries are naturals. *)
Abbreviation roi_image := (list (list N)).

(** [np.where(roi > 0)] on a mask: the (row, column) pairs of the positive
    pixels in row-major order; [y] is the first components, [x] the second. *)
Fixpoint where2_from (r : nat) (roi : roi_image) : list (nat * nat) :=
  match roi with
  | [] => []
  | row :: rest =>
      map (pair r) (np_where (fun v => (0 <? v)%N) row) ++ where2_from (S r) rest
  end.

Definition np_where2 (roi : roi_image) : list (nat * nat) := where2_from 0%nat roi.

(** A bounding box [[y.min(), x.min()], [y.max(), x.max()]]. *)
Record bbox : Type := BBox { ymin : nat; xmin : nat; ymax : nat; xmax : nat }.

Definition get_bbox (roi : roi_image) : option bbox :=
  let yx := np_where2 roi in
  let y := map fst yx in
  let x := map snd yx in
  if (length y =? 0)%nat || (length x =? 0)%nat then None
  else Some (BBox (np_min y) (np_min x) (np_max y) (np_max x)).

(** The pixel of an array at row [r], column [c], when there is one. *)
Definition pixel {A : Type} (a : list (list A)) (r c : nat) : option A :=
  row ← a !! r; row !! c.

Definition nonzero (roi : roi_image) (r c : nat) : Prop :=
  exists v, pixel roi r c = Some v /\ v <> 0%N.

(** What it is for a box to bound the nonzero pixels exactly: every nonzero
    pixel lies inside, and each of the four sides touches one. *)
Definition bounds_exactly (b : bbox) (roi : roi_image) : Prop :=
  (forall r c, nonzero roi r c ->
     (ymin b <= r <= ymax b)%nat /\ (xmin b <= c <= xmax b)%nat) /\
  (exists c, nonzero roi (ymin b) c) /\
  (exists c, nonzero roi (ymax b) c) /\
  (exists r, nonzero roi r (xmin b)) /\
  (exists r, nonzero roi r (xmax b)).

(** ** [clean_frames] *)

(** The integer dtypes a frame batch is stored in. *)
Inductive dtype : Type := uint8 | int8 | uint16 | int16 | int32 | int64.

Definition dtype_bits (d : dtype) : Z :=
  match d with
  | uint8 | int8 => 8
  | uint16 | int16 => 16
  | int32 => 32
  | int64 => 64
  end.

Definition dtype_signed (d : dtype) : bool :=
  match d with
  | uint8 | uint16 => false
  | int8 | int16 | int32 | int64 => true
  end.

(** [ndarray.astype(d)] on an integer: the value modulo [2 ^ bits], read as
    two's complement for a signed dtype. *)
Definition astype (d : dtype) (v : Z) : Z :=
  let m := 2 ^ dtype_bits d in
  let r := v mod m in
  if dtype_signed d && (m / 2 <=? r) then r - m else r.

Definition in_dtype (d : dtype) (v : Z) : Prop :=
  if dtype_signed d
  then - 2 ^ (dtype_bits d - 1) <= v < 2 ^ (dtype_bits d - 1)
  else 0 <= v < 2 ^ dtype_bits d.

Definition batch_astype (d : dtype) (frames : batch) : batch :=
  map (map (map (astype d))) frames.

Section CleanFrames.
(** The OpenCV and scipy filters, and the structuring elements they take. *)
Variable strel : Type.
Variable cv2_erode : image -> strel -> Z -> image.
Variable cv2_medianBlur : image -> Z -> image.
Variable cv2_morphologyEx_open : image -> strel -> Z -> image.
Variable scipy_medfilt : batch -> Z -> batch.

(** The body of the loop over frames. *)
Definition clean_one (prefilter_space : option (list Z)) (strel_tail : strel)
    (iters_tail : option Z) (strel_min : strel) (iters_min : option Z)
    (f : image) : image :=
  let f1 :=
    match iters_min with
    | Some n => if 0 <? n then cv2_erode f strel_min n else f
    | None => f
    end in
  let f2 :=
    match prefilter_space with
    | Some ks =>
        if forallb (fun k => 0 <? k) ks then fold_left cv2_medianBlur ks f1 else f1
    | None => f1
    end in
  match iters_tail with
  | Some n => if 0 <? n then cv2_morphologyEx_open f2 strel_tail n else f2
  | None => f2
  end.

Definition clean_frames (frames : batch) (prefilter_space prefilter_time : option (list Z))
    (strel_tail : strel) (iters_tail : option Z) (frame_dtype : dtype)
    (strel_min : strel) (iters_min : option Z) : batch :=
  let filtered_frames := batch_astype frame_dtype frames in
  let filtered_frames :=
    map (clean_one prefilter_space strel_tail iters_tail strel_min iters_min)
        filtered_frames in
  match prefilter_time with
  | Some ks =>
      if forallb (fun k => 0 <? k) ks
      then fold_left scipy_medfilt ks filtered_frames
      else filtered_frames
  | None => filtered_frames
  end.
End CleanFrames.

(** ** [get_flips] *)

(** [scipy.signal.medfilt] on a one-axis array: the median of the window of
    odd size [k] centred on each entry, the array padded with zeros; an even
    or negative size is refused. *)
Definition scipy_medfilt1 (x : list float) (k : Z) : outcome (list float) :=
  if (0 <? k) && Z.odd k then
    let h := Z.to_nat (k / 2) in
    let padded := replicate h 0%float ++ x ++ replicate h 0%float in
    Ok (map (fun i => np_median (take (Z.to_nat k) (drop i padded)))
            (seq 0 (length x)))
  else Raise ValueError.

(** The flip classifier loaded from [flip_file]: the class labels, the input
    dimensionality it was trained on, and its probabilities on a batch of
    rows of that dimensionality (one row of probabilities per input row, one
    column per class). *)
Record classifier : Type := Classifier {
  classes_ : list Z;
  n_features_ : Z;
  forest_proba : list (list Z) -> list (list float)
}.

(** [clf.predict_proba(X)]: scikit-learn refuses, with [ValueError], an empty
    batch and rows whose length is not [n_features_]. *)
Definition predict_proba (clf : classifier) (X : list (list Z))
    : outcome (list (list float)) :=
  match X with
  | [] => Raise ValueError
  | _ =>
      if forallb (fun row => Z.of_nat (length row) =? n_features_ clf) X
      then Ok (forest_proba clf X)
      else Raise ValueError
  end.

(** What [get_flips] hands back: the flips, and the crop size it printed as
    the one the classifier needs, when it printed one. *)
Record flips_out : Type := FlipsOut {
  required_crop : option Z;
  flips : list bool
}.

(** [probas[:, j]] and the array rebuilt from its columns. *)
Definition column (j : nat) (rows : list (list float)) : list float :=
  map (fun row => nth j row 0%float) rows.

Definition of_columns (n : nat) (cols : list (list float)) : list (list float) :=
  map (fun i => map (fun col => nth i col 0%float) cols) (seq 0 n).

Definition get_flips (frames : batch) (flip_file : option classifier)
    (smoothing : option Z) : outcome flips_out :=
  let* clf := match flip_file with
              | Some clf => Ok clf
              | None => Raise IOError
              end in
  let flip_class := np_where (Z.eqb 1) (classes_ clf) in
  let* pr :=
    match predict_proba clf (map (@concat Z) frames) with
    | Ok probas => Ok (None, probas)
    | Raise ValueError =>
        if n_features_ clf <? 0 then Raise ValueError
        else
          let accepted_crop := Z.sqrt (n_features_ clf) in
          Ok (Some accepted_crop, map (fun _ => [0%float; 1%float]) frames)
    | Raise e => Raise e
    end in
  let '(crop, probas) := pr in
  let* probas :=
    match smoothing with
    | Some k =>
        if k =? 0 then Ok probas
        else
          let ncols := match probas with [] => 2%nat | row :: _ => length row end in
          let* cols := rmapM (fun j => scipy_medfilt1 (column j probas) k)
                             (seq 0 ncols) in
          Ok (of_columns (length probas) cols)
    | None => Ok probas
    end in
  let* am := rmapM np_argmax_float probas in
  let* fl := np_broadcast2 Nat.eqb am flip_class in
  Ok (FlipsOut crop fl).

(** ** [get_largest_cc] *)

Definition bmask := list (list bool).

(** [mask.astype('uint8')]. *)
Definition bmask_uint8 (m : bmask) : image :=
  map (map (fun b : bool => if b then 1 else 0)) m.

(** What [cv2.connectedComponentsWithStats] returns (the centroids, which
    the code does not read, left out): the number of labels, the label of
    each pixel, and one row of statistics per label whose last column is the
    label's area. *)
Record cc_result : Type := CCResult {
  nb_components : nat;
  cc_output : list (list nat);
  cc_stats : list (list Z)
}.

Section LargestCC.
Variable cv2_connectedComponentsWithStats : image -> cc_result.

(** The body of the loop: [output == szs[1:].argmax() + 1]. *)
Definition largest_cc_frame (f : image) : outcome bmask :=
  let r := cv2_connectedComponentsWithStats f in
  let szs := map (fun row => default 0 (last row)) (cc_stats r) in
  let* k := np_argmax_Z (drop 1 szs) in
  Ok (map (map (fun l => (l =? k + 1)%nat)) (cc_output r)).

Definition get_largest_cc (frames : batch) : outcome (list bmask) :=
  rmapM largest_cc_frame frames.
End LargestCC.

(** OpenCV's contract for the labelling of one frame, as a check that can be
    run: a pixel has label 0 exactly when it is zero, every label is below
    [nb_components], every label from 1 on is carried by some pixel, and the
    area in the last column of [stats] counts the pixels of each label. *)
Definition count_label (l : nat) (out : list (list nat)) : Z :=
  Z.of_nat (length (List.filter (Nat.eqb l) (concat out))).

Definition cc_contract (f : image) (r : cc_result) : bool :=
  (length (cc_output r) =? length f)%nat
  && forallb (fun '(frow, orow) =>
       (length frow =? length orow)%nat
       && forallb (fun '(v, l) => Bool.eqb (v =? 0) (l =? 0)%nat
                                  && (l <? nb_components r)%nat)
                  (zip frow orow))
     (zip f (cc_output r))
  && (length (cc_stats r) =? nb_components r)%nat
  && (0 <? nb_components r)%nat
  && forallb (fun '(l, row) =>
       (default 0 (last row) =? count_label l (cc_output r))
       && ((l =? 0)%nat || (0 <? count_label l (cc_output r))))
     (zip (seq 0 (nb_components r)) (cc_stats r)).

(** ** [eval_plane_z] *)

(** The plane [a x + b y + c z + d = 0] evaluated at the points [yx], each
    row a pair [(y, x)]: [params[2]] is read first, then [params[0]],
    [params[1]] and [params[3]]. The division is numpy's, on [np.float64]:
    under numpy's default error state a zero [c] gives an infinity and a
    warning, not an exception. *)
Definition eval_plane_z (params : list float) (yx : list (float * float))
    : outcome (list float) :=
  match params !! 2%nat, params !! 0%nat, params !! 1%nat, params !! 3%nat with
  | Some c, Some a, Some b, Some d =>
      let first_term := ((-1) / c)%float in
      Ok (map (fun '(y, x) => (first_term * (a * x + b * y + d))%float) yx)
  | _, _, _, _ => Raise IndexError
  end.

(** ** [get_floor_ellipse] *)

(** Python's [int(round(x))] on a float: the nearest integer, a tie going to
    the even one; NaN and the infinities are refused. *)
Definition py_round (f : float) : outcome Z :=
  match Prim2SF f with
  | S754_zero _ => Ok 0
  | S754_finite s m e =>
      let v :=
        if 0 <=? e then Zpos m * 2 ^ e
        else
          let d := 2 ^ (- e) in
          let q := Zpos m / d in
          let r := Zpos m mod d in
          if 2 * r <? d then q
          else if d <? 2 * r then q + 1
          else if Z.even q then q else q + 1 in
      Ok (if s then - v else v)
  | S754_infinity _ => Raise OverflowError
  | S754_nan => Raise ValueError
  end.

(** One row of the structured array [hough_ellipse] returns. *)
Record ellipse_fit : Type := EllipseFit {
  accumulator : Z;
  fit_yc : float;
  fit_xc : float;
  fit_a : float;
  fit_b : float;
  fit_orientation : float
}.

(** [result.sort(order='accumulator')]: ascending in the accumulator. *)
Fixpoint insert_fit (p : ellipse_fit) (l : list ellipse_fit) : list ellipse_fit :=
  match l with
  | [] => [p]
  | q :: t =>
      if accumulator p <? accumulator q then p :: l else q :: insert_fit p t
  end.

Definition sort_accumulator (l : list ellipse_fit) : list ellipse_fit :=
  fold_right insert_fit [] l.

(** [result[ii]] for a negative [ii]. *)
Definition index_from_end {A : Type} (l : list A) (ii : Z) : outcome A :=
  let k := Z.of_nat (length l) + ii in
  if k <? 0 then Raise IndexError
  else match l !! Z.to_nat k with
       | Some x => Ok x
       | None => Raise IndexError
       end.

(** The ellipse that is returned, with the eccentricity the scan tests. *)
Record ellipse_params : Type := EllipseParams {
  ell_yc : Z;
  ell_xc : Z;
  ell_a : Z;
  ell_b : Z;
  ell_orientation : float
}.

(** Lines 320-326 (and 330-336): the rounded parameters of a fit and its
    eccentricity, the axes swapped when [b] is the longer one. *)
Definition read_fit (p : ellipse_fit) : outcome (ellipse_params * float) :=
  let* yc := py_round (fit_yc p) in
  let* xc := py_round (fit_xc p) in
  let* a := py_round (fit_a p) in
  let* b := py_round (fit_b p) in
  if a ^ 2 =? 0 then Raise ZeroDivisionError
  else
    let ratio_best := (Zf (b ^ 2) / Zf (a ^ 2))%float in
    let ratio_best := if fgt ratio_best 1 then (1 / ratio_best)%float else ratio_best in
    let ecc_current := PrimFloat.sqrt (1 - ratio_best)%float in
    Ok (EllipseParams yc xc a b (fit_orientation p), ecc_current).

Section FloorEllipse.
(** scikit-image: the Canny edge map of the mask, and the Hough search on
    it with a given accumulator threshold and minimal major axis. *)
Variable edge_map : Type.
Variable canny : bmask -> edge_map.
Variable hough_ellipse : edge_map -> Z -> Z -> list ellipse_fit.

(** The loop of lines 308-312, run for at most [fuel] iterations; [None]
    when the loop is still running after that many. *)
Fixpoint hough_retry (fuel : nat) (edges : edge_map) (min_size thresh : Z)
    (result : list ellipse_fit) : option (list ellipse_fit) :=
  match result with
  | _ :: _ => Some result
  | [] =>
      match fuel with
      | O => None
      | S fuel' =>
          let thresh := thresh - 50 in
          hough_retry fuel' edges min_size thresh
            (sort_accumulator (hough_ellipse edges thresh min_size))
      end
  end.

(** The loop of lines 328-336, run for at most [fuel] iterations. *)
Fixpoint ecc_scan (fuel : nat) (result : list ellipse_fit) (e_threshold : float)
    (ii : Z) (cur : ellipse_params) (ecc_current : float)
    : option (outcome ellipse_params) :=
  if fgt ecc_current e_threshold then
    match fuel with
    | O => None
    | S fuel' =>
        let ii := ii - 1 in
        match index_from_end result ii with
        | Raise e => Some (Raise e)
        | Ok next_params =>
            match read_fit next_params with
            | Raise e => Some (Raise e)
            | Ok (cur', ecc') => ecc_scan fuel' result e_threshold ii cur' ecc'
            end
        end
    end
  else Some (Ok cur).

Definition get_floor_ellipse (fuel : nat) (roughFloorMask : bmask) (min_size : Z)
    (e_threshold : float) : option (outcome ellipse_params) :=
  let edges := canny roughFloorMask in
  let result := sort_accumulator (hough_ellipse edges 250 min_size) in
  match hough_retry fuel edges min_size 250 result with
  | None => None
  | Some result =>
      match index_from_end result (-1) with
      | Raise e => Some (Raise e)
      | Ok best =>
          match read_fit best with
          | Raise e => Some (Raise e)
          | Ok (cur, ecc_current) =>
              ecc_scan fuel result e_threshold (-1) cur ecc_current
          end
      end
  end.
End FloorEllipse.

(** ** [threshold_chunk] *)

(** [chunk[chunk < min_height] = 0] and then [chunk[chunk > max_height] = 0],
    on every pixel of the chunk. *)
Definition threshold_chunk (chunk : batch) (min_height max_height : Z) : batch :=
  let chunk := map (map (map (fun v => if v <? min_height then 0 else v))) chunk in
  map (map (map (fun v => if max_height <? v then 0 else v))) chunk.

(** ** [get_roi]: from the ranked regions to the masks and their boxes *)

(** [np.sum(np.logical_and(a, b))] for two masks of one shape. *)
Definition count_overlap (a b : roi_image) : Z :=
  Z.of_nat (length (List.filter (fun '(x, y) => negb (x =? 0)%N && negb (y =? 0)%N)
                                (zip (concat a) (concat b)))).

Section GetRoi.
(** OpenCV's dilation and erosion and scipy's hole filling. *)
Variable strel : Type.
Variable cv2_dilate : roi_image -> strel -> Z -> roi_image.
Variable cv2_erode : roi_image -> strel -> Z -> roi_image.
Variable binary_fill_holes : roi_image -> roi_image.

(** [roi = np.zeros_like(depth_image); roi[coords[:, 0], coords[:, 1]] = 1]. *)
Definition region_mask (depth_image : image) (coords : list (nat * nat)) : roi_image :=
  imap (fun r row =>
          imap (fun c _ =>
                  if existsb (fun '(r', c') => (r =? r')%nat && (c =? c')%nat) coords
                  then 1%N else 0%N) row)
       depth_image.

(** Lines 517-525: the mask of one region, dilated, eroded and filled. *)
Definition region_roi (depth_image : image) (strel_dilate : option strel)
    (dilate_iterations erode_iterations : Z) (strel_erode : option strel)
    (bg_roi_fill_holes : bool) (coords : list (nat * nat)) : roi_image :=
  let roi := region_mask depth_image coords in
  let roi := match strel_dilate with
             | Some se => cv2_dilate roi se dilate_iterations
             | None => roi
             end in
  let roi := match strel_erode with
             | Some se => cv2_erode roi se erode_iterations
             | None => roi
             end in
  if bg_roi_fill_holes then binary_fill_holes roi else roi.

(** Lines 511-544 of [get_roi]. The plane fit, the labelling and the ranking
    of lines 469-509 are inputs: [region_properties] holds the pixel
    coordinates of each labelled region and [shape_index] the regions in
    rank order. The result is [rois] and [bboxes], which the code returns
    together when [get_all_data] is set. *)
Definition get_roi (depth_image : image) (region_properties : list (list (nat * nat)))
    (shape_index : list nat) (strel_dilate : option strel)
    (dilate_iterations erode_iterations : Z) (strel_erode : option strel)
    (overlap_roi : option roi_image) (bg_roi_fill_holes : bool)
    : outcome (list roi_image * list (option bbox)) :=
  let* rb :=
    rfold (fun '(rois, bboxes) shape =>
             match region_properties !! shape with
             | None => Raise IndexError
             | Some coords =>
                 let roi := region_roi depth_image strel_dilate dilate_iterations
                              erode_iterations strel_erode bg_roi_fill_holes coords in
                 Ok (rois ++ [roi], bboxes ++ [get_bbox roi])
             end)
          shape_index ([], []) in
  let '(rois, bboxes) := rb in
  match overlap_roi with
  | None => Ok (rois, bboxes)
  | Some o =>
      (* [overlaps] has one entry per region, filled for [range(len(rois))] *)
      let* overlaps :=
        np_put (replicate (length region_properties) 0)
               (seq 0 (length rois)) (map (count_overlap o) rois) in
      let* del_roi := np_argmax_Z overlaps in
      if (del_roi <? length rois)%nat
      then Ok (delete del_roi rois, delete del_roi bboxes)
      else Raise IndexError
  end.
End GetRoi.

(** ** [apply_roi_to_mask] *)

(** [a[lo:hi]] for indices that are not negative. *)
Definition slice {A : Type} (lo hi : nat) (l : list A) : list A :=
  take (hi - lo) (drop lo l).

Definition apply_roi_to_mask {A : Type} (mask : list (list A)) (roi : roi_image)
    : outcome (list (list A)) :=
  match get_bbox roi with
  | None => Raise TypeError
  | Some b => Ok (map (slice (xmin b) (xmax b)) (slice (ymin b) (ymax b) mask))
  end.

(** ** [apply_roi] *)

(** [frame * roi] under numpy's broadcasting of the two axes of an image.
    The product is taken in the integers: the mask is boolean (its entries 0
    and 1), so no product leaves the dtype of the frames. *)
Definition mul_roi (frame : image) (roi : roi_image) : outcome image :=
  let* rows :=
    np_broadcast2 (fun frow rrow => np_broadcast2 (fun v m => v * Z.of_N m) frow rrow)
                  frame roi in
  rmapM (fun row => row) rows.

(** The frames masked by the ROI and cut to its bounding box; the box of a
    mask without positive pixel is [None], and subscripting it raises
    [TypeError]. *)
Definition apply_roi (frames : batch) (roi : roi_image) : outcome batch :=
  let* cropped_frames := rmapM (fun f => mul_roi f roi) frames in
  match get_bbox roi with
  | None => Raise TypeError
  | Some b =>
      Ok (map (fun f => map (slice (xmin b) (xmax b)) (slice (ymin b) (ymax b) f))
              cropped_frames)
  end.

(** ** [im_moment_features] *)

(** The entries of [cv2.moments] the code reads. *)
Record moments : Type := Moments {
  m00 : float; m10 : float; m01 : float;
  mu20 : float; mu11 : float; mu02 : float
}.

Record moment_features : Type := MomentFeatures {
  mf_orientation : float;
  mf_centroid : float * float;
  mf_axis_length : float * float
}.

Definition nan_features : moment_features :=
  MomentFeatures nan (nan, nan) (nan, nan).

Section ImMomentFeatures.
Variable contour : Type.
Variable cv2_moments : contour -> moments.
Variable np_arctan2 : float -> float -> float.

Definition im_moment_features (IM : contour) : moment_features :=
  let tmp := cv2_moments IM in
  let num := (2 * mu11 tmp)%float in
  let den := (mu20 tmp - mu02 tmp)%float in
  let common := PrimFloat.sqrt (4 * (mu11 tmp * mu11 tmp) + den * den)%float in
  if (m00 tmp =? 0)%float then nan_features
  else
    MomentFeatures
      (-0.5 * np_arctan2 num den)%float
      ((m10 tmp / m00 tmp)%float, (m01 tmp / m00 tmp)%float)
      ((2 * PrimFloat.sqrt 2
          * PrimFloat.sqrt ((mu20 tmp + mu02 tmp + common) / m00 tmp))%float,
       (2 * PrimFloat.sqrt 2
          * PrimFloat.sqrt ((mu20 tmp + mu02 tmp - common) / m00 tmp))%float).
End ImMomentFeatures.

(** ** [get_frame_features] *)

(** [frame > threshold], and the elementwise [&] and [|] of two masks of one
    shape. *)
Definition gt_image (f : image) (threshold : float) : bmask :=
  map (map (fun v => fgt (Zf v) threshold)) f.

Definition mask_and (a b : bmask) : bmask := zip_with (zip_with andb) a b.
Definition mask_or (a b : bmask) : bmask := zip_with (zip_with orb) a b.

(** [a.max()] on floats: NaN if any entry is, [None] for the [ValueError] on
    an empty array. *)
Definition np_amax (l : list float) : option float :=
  match l with
  | [] => None
  | a :: t => Some (fold_left np_maximum t a)
  end.

(** [a[m]] for a boolean array [m]. *)
Definition np_compress {A : Type} (m : list bool) (a : list A) : list A :=
  map snd (List.filter fst (zip m a)).

(** The features of a batch: one centroid, orientation and pair of axis
    lengths per frame. *)
Record track_features : Type := TrackFeatures {
  centroid : list (float * float);
  orientation : list float;
  axis_length : list (float * float)
}.

(** The content of [obj_removal_info.p]: floor mask, box mask, mean height
    of the box. *)
Definition obj_removal_info : Type := (bmask * bmask * float)%type.

Section GetFrameFeatures.
Variable contour : Type.
Variable cv2_findContours : bmask -> list contour.
Variable cv2_contourArea : contour -> float.
Variable cv2_minEnclosingCircle_radius : contour -> float.
Variable cv2_moments : contour -> moments.
Variable np_arctan2 : float -> float -> float.
Variable cv2_connectedComponentsWithStats : image -> cc_result.

(** [get_largest_cc(m[np.newaxis, :].astype('uint8')).squeeze()]. *)
Definition largest_cc_of_mask (m : bmask) : outcome bmask :=
  let* cc := get_largest_cc cv2_connectedComponentsWithStats [bmask_uint8 m] in
  match cc with
  | [cc_mask] => Ok cc_mask
  | _ => Raise IndexError
  end.

(** Lines 754-765: the index of the contour taken for the mouse; [None]
    when the frame is skipped. *)
Definition choose_contour (remove_obj_from_bg : bool) (cnts : list contour)
    (tmp : list float) : outcome (option nat) :=
  if remove_obj_from_bg then
    let enclosing_radii := map cv2_minEnclosingCircle_radius cnts in
    let radius_threshold := 50%float in
    let possible_mice := map (fun r => flt r radius_threshold) enclosing_radii in
    match np_amax (np_compress possible_mice tmp) with
    | None => Ok None
    | Some best =>
        match np_where (fun a => (a =? best)%float) tmp with
        | [] => Ok None
        | mouse_cnt :: _ => Ok (Some mouse_cnt)
        end
    end
  else
    let* mouse_cnt := np_argmax_float tmp in
    Ok (Some mouse_cnt).

(** The body of the loop over frames: the frame's mask, and its features
    unless the frame is skipped. *)
Definition frame_features (frame_threshold : float) (mask : batch) (has_mask : bool)
    (mask_threshold : float) (use_cc : bool) (roi : roi_image)
    (remove_obj_from_bg : option obj_removal_info) (i : nat) (frame : image)
    : outcome (bmask * option moment_features) :=
  let* info :=
    match remove_obj_from_bg with
    | Some (floor_mask, box_mask, mean_box_height) =>
        let* floor_mask := apply_roi_to_mask floor_mask roi in
        let* box_mask := apply_roi_to_mask box_mask roi in
        Ok (Some (floor_mask, box_mask, mean_box_height))
    | None => Ok None
    end in
  let frame_mask :=
    match info with
    | Some (floor_mask, box_mask, mean_box_height) =>
        let floor_threshold := frame_threshold in
        let box_threshold := (frame_threshold + abs mean_box_height + 5)%float in
        let floor_accept := mask_and (gt_image frame floor_threshold) floor_mask in
        let box_accept := mask_and (gt_image frame box_threshold) box_mask in
        mask_or floor_accept box_accept
    | None => gt_image frame frame_threshold
    end in
  let* frame_mask :=
    if use_cc then
      match info with
      | None =>
          let* cc_mask := largest_cc_of_mask (gt_image frame mask_threshold) in
          Ok (mask_and cc_mask frame_mask)
      | Some (floor_mask, box_mask, mean_box_height) =>
          let floor_threshold := mask_threshold in
          let box_threshold := (mask_threshold + mean_box_height)%float in
          let floor_accept := mask_and (gt_image frame floor_threshold) floor_mask in
          let box_accept := mask_and (gt_image frame box_threshold) box_mask in
          let tmp := mask_or floor_accept box_accept in
          let* cc_mask := largest_cc_of_mask tmp in
          Ok (mask_and cc_mask frame_mask)
      end
    else Ok frame_mask in
  let* frame_mask :=
    if has_mask then
      match mask !! i with
      | Some m => Ok (mask_and frame_mask (gt_image m mask_threshold))
      | None => Raise IndexError
      end
    else Ok frame_mask in
  let cnts := cv2_findContours frame_mask in
  let tmp := map cv2_contourArea cnts in
  if (length tmp =? 0)%nat then Ok (frame_mask, None)
  else
    let* choice := choose_contour (bool_decide (is_Some remove_obj_from_bg)) cnts tmp in
    match choice with
    | None => Ok (frame_mask, None)
    | Some mouse_cnt =>
        match cnts !! mouse_cnt with
        | None => Raise IndexError
        | Some c =>
            Ok (frame_mask, Some (im_moment_features contour cv2_moments np_arctan2 c))
        end
    end.

(** [features] starts as NaN everywhere; a frame that is not skipped
    overwrites its row. [mask] is returned as given when it has entries and
    is otherwise filled with the frame masks. *)
Definition get_frame_features (frames : batch) (frame_threshold : float)
    (mask : batch) (mask_threshold : float) (use_cc : bool) (roi : roi_image)
    (remove_obj_from_bg : option obj_removal_info)
    : outcome (track_features * batch) :=
  let has_mask := (0 <? length (concat (concat mask)))%nat in
  let* per_frame :=
    rmapM (fun '(i, frame) =>
             frame_features frame_threshold mask has_mask mask_threshold use_cc roi
               remove_obj_from_bg i frame)
          (imap pair frames) in
  let rows := map (fun '(_, o) => default nan_features o) per_frame in
  let features :=
    TrackFeatures (map mf_centroid rows) (map mf_orientation rows)
                  (map mf_axis_length rows) in
  let mask := if has_mask then mask else map (fun '(m, _) => bmask_uint8 m) per_frame in
  Ok (features, mask).
End GetFrameFeatures.

(** ** [crop_and_rotate_frames] *)

(** The integer part of a finite float, and whether a fraction was dropped;
    [None] for NaN and the infinities. *)
Definition float_parts (f : float) : option (bool * Z * bool) :=
  match Prim2SF f with
  | S754_zero s => Some (s, 0, false)
  | S754_finite s m e =>
      if 0 <=? e then Some (s, Zpos m * 2 ^ e, false)
      else
        let d := 2 ^ (- e) in
        Some (s, Zpos m / d, negb (Zpos m mod d =? 0))
  | S754_infinity _ | S754_nan => None
  end.

(** The C cast of a float to an integer: towards zero. *)
Definition float_trunc (f : float) : option Z :=
  match float_parts f with
  | Some (s, q, _) => Some (if s then - q else q)
  | None => None
  end.

Definition float_ceil (f : float) : option Z :=
  match float_parts f with
  | Some (s, q, frac) => Some (if s then - q else if frac then q + 1 else q)
  | None => None
  end.

(** [np.arange(start, stop).astype('int16')] for float bounds: numpy takes
    [ceil(stop - start)] entries and fills entry [i] with [start + i * delta],
    [delta] being [(start + 1) - start]. *)
Definition arange_int16 (start stop : float) : outcome (list Z) :=
  match float_ceil (stop - start)%float with
  | None => Raise ValueError
  | Some len =>
      let delta := ((start + 1) - start)%float in
      rmapM (fun i =>
               match float_trunc (start + Zf (Z.of_nat i) * delta)%float with
               | Some v => Ok (astype int16 v)
               | None => Raise ValueError
               end)
            (seq 0 (Z.to_nat len))
  end.

(** [cv2.copyMakeBorder(frame, top, bottom, left, right, cv2.BORDER_CONSTANT, 0)]. *)
Definition copyMakeBorder (frame : image) (top bottom left right : Z) : image :=
  let width := (Z.to_nat left + length (hd [] frame) + Z.to_nat right)%nat in
  let blank := replicate width 0 in
  replicate (Z.to_nat top) blank
  ++ map (fun row => replicate (Z.to_nat left) 0 ++ row ++ replicate (Z.to_nat right) 0) frame
  ++ replicate (Z.to_nat bottom) blank.

(** [np.rad2deg]. *)
Definition np_rad2deg (x : float) : float := (x * 0x1.ca5dc1a63c1f8p+5)%float.

(** One entry of [np.zeros((nframes, crop_size[0], crop_size[1]))]. *)
Definition zero_patch (crop_size : Z * Z) : image :=
  replicate (Z.to_nat (fst crop_size)) (replicate (Z.to_nat (snd crop_size)) 0).

Section CropAndRotate.
Variable rot_matrix : Type.
Variable cv2_getRotationMatrix2D : Z * Z -> float -> rot_matrix.
Variable cv2_warpAffine : image -> rot_matrix -> Z * Z -> image.

(** The body of the loop: the patch of frame [i]. *)
Definition crop_frame (crop_size : Z * Z) (c : float * float) (angle : option float)
    (frame : image) : outcome image :=
  let zeros := zero_patch crop_size in
  let win := (fst crop_size / 2, snd crop_size / 2 + 1) in
  if is_nan (fst c) || is_nan (snd c) then Ok zeros
  else
    let use_frame :=
      copyMakeBorder frame (snd crop_size) (snd crop_size) (fst crop_size) (fst crop_size) in
    let* rr := arange_int16 (snd c - Zf (fst win))%float (snd c + Zf (snd win))%float in
    let* cc := arange_int16 (fst c - Zf (fst win))%float (fst c + Zf (snd win))%float in
    let rr := map (fun v => astype int16 (v + fst crop_size)) rr in
    let cc := map (fun v => astype int16 (v + snd crop_size)) cc in
    let rows := Z.of_nat (length use_frame) in
    let cols := Z.of_nat (length (hd [] use_frame)) in
    if existsb (fun v => rows <=? v) rr || existsb (fun v => v <? 1) rr
       || existsb (fun v => cols <=? v) cc || existsb (fun v => v <? 1) cc
    then Ok zeros
    else
      match head rr, last rr, head cc, last cc, angle with
      | Some r0, Some r1, Some c0, Some c1, Some angle =>
          let rot_mat :=
            cv2_getRotationMatrix2D (fst crop_size / 2, snd crop_size / 2)
                                    (- np_rad2deg angle)%float in
          let window :=
            map (slice (Z.to_nat c0) (Z.to_nat c1))
                (slice (Z.to_nat r0) (Z.to_nat r1) use_frame) in
          Ok (cv2_warpAffine window rot_mat crop_size)
      | _, _, _, _, _ => Raise IndexError
      end.

Definition crop_and_rotate_frames (frames : batch) (features : track_features)
    (crop_size : Z * Z) : outcome batch :=
  rmapM (fun '(i, frame) =>
           match centroid features !! i with
           | Some c => crop_frame crop_size c (orientation features !! i) frame
           | None => Raise IndexError
           end)
        (imap pair frames).
End CropAndRotate.

(** ** [compute_scalars] *)

Record scalars : Type := Scalars {
  centroid_x_px : list float;
  centroid_y_px : list float;
  velocity_2d_px : list float;
  velocity_3d_px : list float;
  width_px : list float;
  length_px : list float;
  area_px : list Z;
  centroid_x_mm : list float;
  centroid_y_mm : list float;
  velocity_2d_mm : list float;
  velocity_3d_mm : list float;
  width_mm : list float;
  length_mm : list float;
  area_mm : list float;
  height_ave_mm : list float;
  angle : list float;
  velocity_theta : list float
}.

(** [np.diff(np.concatenate((a[:1], a)))]. *)
Definition np_diff (sub : float -> float -> float) (a : list float) : list float :=
  zip_with (fun p q => sub q p) a (tail a).

Definition diff_from_first (sub : float -> float -> float) (a : list float)
    : list float :=
  np_diff sub (take 1 a ++ a).

Section ComputeScalars.
(** [moseq2_extract.util.convert_pxs_to_mm], the C library's [atan2] and
    the rounding of a double to [np.float32]. *)
Variable convert_pxs_to_mm : list (float * float) -> float -> list (float * float).
Variable np_arctan2 : float -> float -> float.
Variable float32 : float -> float.

Definition compute_scalars (frames : batch) (track : track_features)
    (min_height max_height true_depth : float) : outcome scalars :=
  let nframes := length frames in
  let centroid_mm := convert_pxs_to_mm (centroid track) true_depth in
  let centroid_mm_shift :=
    convert_pxs_to_mm (map (fun '(x, y) => ((x + 1)%float, (y + 1)%float)) (centroid track))
                      true_depth in
  let px_to_mm :=
    zip_with (fun '(sx, sy) '(x, y) => (abs (sx - x)%float, abs (sy - y)%float))
             centroid_mm_shift centroid_mm in
  let masked_frames :=
    map (fun f => mask_and (map (map (fun v => fgt (Zf v) min_height)) f)
                           (map (map (fun v => flt (Zf v) max_height)) f)) frames in
  let centroid_x_px := map fst (centroid track) in
  let centroid_y_px := map snd (centroid track) in
  let centroid_x_mm := map fst centroid_mm in
  let centroid_y_mm := map snd centroid_mm in
  let width_px := map (fun '(a, b) => np_minimum a b) (axis_length track) in
  let length_px := map (fun '(a, b) => np_maximum a b) (axis_length track) in
  let area_px :=
    map (fun m => Z.of_nat (length (List.filter id (concat m)))) masked_frames in
  let* width_mm := np_broadcast2 PrimFloat.mul width_px (map snd px_to_mm) in
  let* length_mm := np_broadcast2 PrimFloat.mul length_px (map fst px_to_mm) in
  let* area_mm :=
    np_broadcast2 (fun a m => (Zf a * m)%float) area_px
                  (map (fun '(a, b) => ((a + b) / 2)%float) px_to_mm) in
  let height_ave_mm :=
    map (fun '(f, m) =>
           let n := Z.of_nat (length (List.filter id (concat m))) in
           let total := fold_left Z.add (np_compress (concat m) (concat f)) 0 in
           if 0 <? n then float32 (Zf total / Zf n)%float else 0%float)
        (zip frames masked_frames) in
  let vel_x := diff_from_first PrimFloat.sub centroid_x_px in
  let vel_y := diff_from_first PrimFloat.sub centroid_y_px in
  let vel_z := diff_from_first (fun a b => float32 (a - b)%float) height_ave_mm in
  let sq_z := map (fun z => float32 (z * z)%float) vel_z in
  let* velocity_2d_px := np_broadcast2 np_hypot vel_x vel_y in
  let* sq_xy := np_broadcast2 (fun x y => (x * x + y * y)%float) vel_x vel_y in
  let* sum_sq := np_broadcast2 PrimFloat.add sq_xy sq_z in
  let velocity_3d_px := map PrimFloat.sqrt sum_sq in
  let vel_x := diff_from_first PrimFloat.sub centroid_x_mm in
  let vel_y := diff_from_first PrimFloat.sub centroid_y_mm in
  let* velocity_2d_mm := np_broadcast2 np_hypot vel_x vel_y in
  let* sq_xy := np_broadcast2 (fun x y => (x * x + y * y)%float) vel_x vel_y in
  let* sum_sq := np_broadcast2 PrimFloat.add sq_xy sq_z in
  let velocity_3d_mm := map PrimFloat.sqrt sum_sq in
  let* velocity_theta := np_broadcast2 np_arctan2 vel_y vel_x in
  Ok (Scalars centroid_x_px centroid_y_px velocity_2d_px velocity_3d_px
              width_px length_px area_px
              centroid_x_mm centroid_y_mm velocity_2d_mm velocity_3d_mm
              width_mm length_mm area_mm
              height_ave_mm (orientation track) velocity_theta).
End ComputeScalars.

(** ** [feature_hampel_filter] *)

(** [np.pad(a, (k, k), 'constant', constant_values=nan)]; numpy refuses a
    negative width. *)
Definition np_pad {A : Type} (fill : A) (a : list A) (k : Z) : outcome (list A) :=
  if k <? 0 then Raise ValueError
  else Ok (replicate (Z.to_nat k) fill ++ a ++ replicate (Z.to_nat k) fill).

(** Modelled from the spec: [strided_app] of [moseq2_extract.util] is not
    among the sources. The spec has the filter compute its statistics over a
    sliding window of the configured span on the padded channel: row [i] of
    [strided_app(a, L, S)] is the window [a[i*S : i*S + L]], and there are
    [(len(a) - L) // S + 1] rows. *)
Definition strided_app (a : list float) (L S : Z) : outcome (list (list float)) :=
  let nrows := (Z.of_nat (length a) - L) / S + 1 in
  if nrows <? 0 then Raise ValueError
  else Ok (map (fun i => take (Z.to_nat L) (drop (i * Z.to_nat S) a))
               (seq 0 (Z.to_nat nrows))).

(** Lines 951-956 (and 963-968): one channel [x] filtered against the
    windows of its padded copy. *)
Definition hampel_channel (x padded : list float) (span : Z) (sig : float)
    : outcome (list float) :=
  let* vws := strided_app padded span 1 in
  let med := map np_nanmedian vws in
  let mad :=
    zip_with (fun w m => np_nanmedian (map (fun v => abs (v - m)%float) w)) vws med in
  let* vals := np_broadcast2 (fun v m => abs (v - m)%float) x med in
  let threshold := zip_with (fun m d => (m + sig * d)%float) med mad in
  let* outlier := np_broadcast2 fgt vals threshold in
  let fill_idx := np_where id outlier in
  let* fill := np_take med fill_idx in
  np_put x fill_idx fill.

(** Column [i] of an array of pairs, and the array with that column replaced. *)
Definition col (i : nat) (a : list (float * float)) : list float :=
  map (fun p => if (i =? 0)%nat then fst p else snd p) a.

Definition set_col (i : nat) (a : list (float * float)) (v : list float)
    : list (float * float) :=
  zip_with (fun p x => if (i =? 0)%nat then (x, snd p) else (fst p, x)) a v.

Definition feature_hampel_filter (features : track_features)
    (centroid_hampel_span : option Z) (centroid_hampel_sig : float)
    (angle_hampel_span : option Z) (angle_hampel_sig : float)
    : outcome track_features :=
  (* the first [if]; [padded_orientation] is bound only inside it *)
  let* st :=
    match centroid_hampel_span with
    | Some cspan =>
        if 0 <? cspan then
          let* padded_centroids := np_pad (nan, nan) (centroid features) (cspan / 2) in
          let* c :=
            rfold (fun c i =>
                     let* x := hampel_channel (col i c) (col i padded_centroids)
                                              cspan centroid_hampel_sig in
                     Ok (set_col i c x))
                  (seq 0 1) (centroid features) in
          let features := TrackFeatures c (orientation features) (axis_length features) in
          let* padded_orientation :=
            match angle_hampel_span with
            | None => Raise TypeError
            | Some aspan => np_pad nan (orientation features) (aspan / 2)
            end in
          Ok (features, Some padded_orientation)
        else Ok (features, None)
    | None => Ok (features, None)
    end in
  let '(features, padded_orientation) := st in
  (* the second [if] *)
  match angle_hampel_span with
  | Some aspan =>
      if 0 <? aspan then
        match padded_orientation with
        | None => Raise UnboundLocalError
        | Some padded_orientation =>
            let* o := hampel_channel (orientation features) padded_orientation
                                     aspan angle_hampel_sig in
            Ok (TrackFeatures (centroid features) o (axis_length features))
        end
      else Ok features
  | None => Ok features
  end.

(** ** [model_smoother] *)

(** A feature array: one value per frame, or one row per frame (the centroid
    and the axis lengths have two columns). *)
Inductive channel : Type :=
| Chan1 (v : list float)
| Chan2 (v : list (list float)).

(** The features by name, in the order of the dict. *)
Definition channels : Type := list (string * channel).

(** [interp1d(x, y, kind='nearest', fill_value='extrapolate')(x_new)] for
    increasing integer [x]: the entry of [y] at the number of midpoints of
    [x] strictly below [x_new], clipped to the last index; scipy refuses an
    empty [x]. *)
Definition interp1d_nearest (x : list nat) (y : list float) (x_new : nat)
    : outcome float :=
  match x with
  | [] => Raise ValueError
  | _ =>
      let x_bds := zip_with Nat.add x (tail x) in
      let idx := length (List.filter (fun s => (s <? 2 * x_new)%nat) x_bds) in
      let idx := Nat.min idx (length x - 1) in
      match y !! idx with
      | Some v => Ok v
      | None => Raise IndexError
      end
  end.

(** Lines 1011-1014 and 1016-1019: the NaNs of one column replaced by the
    nearest value that is not NaN. *)
Definition fill_column (v : list float) : outcome (list float) :=
  let nans := map is_nan v in
  let xvec := seq 0 (length v) in
  let known := map negb nans in
  match np_compress known xvec with
  | [] => Raise ValueError
  | _ =>
      let* fill_vals :=
        rmapM (interp1d_nearest (np_compress known xvec) (np_compress known v))
              (np_compress nans xvec) in
      np_put v (np_compress nans xvec) fill_vals
  end.

(** [v[:, j]] and [v[:, j] = x]. *)
Definition column_of (j : nat) (v : list (list float)) : list float :=
  map (fun row => nth j row nan) v.

Definition set_column (j : nat) (v : list (list float)) (x : list float)
    : list (list float) :=
  zip_with (fun row a => <[j := a]> row) v x.

(** Lines 1005-1019: nothing is done to an array without NaN; an array of two
    axes is filled column by column. *)
Definition fill_nans (c : channel) : outcome channel :=
  match c with
  | Chan1 v =>
      if existsb is_nan v
      then let* v' := fill_column v in Ok (Chan1 v')
      else Ok c
  | Chan2 v =>
      if existsb (existsb is_nan) v
      then
        let* v' :=
          rfold (fun acc j =>
                   let* x := fill_column (column_of j v) in Ok (set_column j acc x))
                (seq 0 (length (hd [] v))) v in
        Ok (Chan2 v')
      else Ok c
  end.

(** Lines 994-1002: the confidence of one frame. *)
Definition confidence (clips : float * float) (ll_frame : list float) : float :=
  let max_mu := snd clips in
  let min_mu := fst clips in
  let smoother := np_mean ll_frame in
  let smoother := (smoother - min_mu)%float in
  let smoother := (smoother / (max_mu - min_mu))%float in
  np_clip smoother 0 1.

(** [(1 - smoother) * neighbour + smoother * current]. *)
Definition blend (smoother neighbour current : float) : float :=
  ((1 - smoother) * neighbour + smoother * current)%float.

(** [v[i] = (1 - smoother) * v[j] + smoother * v[i]], row by row for an array
    of two axes. *)
Definition blend_rows {A : Type} (mix : A -> A -> A) (i j : nat) (v : list A)
    : outcome (list A) :=
  match v !! j, v !! i with
  | Some neighbour, Some current => Ok (<[i := mix neighbour current]> v)
  | _, _ => Raise IndexError
  end.

Definition blend_at (smoother : float) (i j : nat) (c : channel) : outcome channel :=
  match c with
  | Chan1 v =>
      let* v' := blend_rows (blend smoother) i j v in Ok (Chan1 v')
  | Chan2 v =>
      let* v' := blend_rows (zip_with (blend smoother)) i j v in Ok (Chan2 v')
  end.

(** One iteration of a pass: every channel updated at frame [i] from frame
    [j], with the confidence of frame [i]. *)
Definition blend_all (ave_ll : list float) (i j : nat) (features : channels)
    : outcome channels :=
  match ave_ll !! i with
  | None => Raise IndexError
  | Some smoother =>
      rmapM (fun '(k, v) => let* v' := blend_at smoother i j v in Ok (k, v')) features
  end.

Definition forward_pass (ave_ll : list float) (features : channels) : outcome channels :=
  rfold (fun fs i => blend_all ave_ll i (i - 1) fs)
        (seq 2 (length ave_ll - 2)) features.

Definition backward_pass (ave_ll : list float) (features : channels) : outcome channels :=
  rfold (fun fs i => blend_all ave_ll i (i + 1) fs)
        (rev (seq 0 (length ave_ll - 1))) features.

Definition model_smoother (features : channels) (ll : option (list (list float)))
    (clips : option (float * float)) : outcome channels :=
  match ll, clips with
  | Some ll, Some clips =>
      if fge (fst clips) (snd clips) then Ok features
      else
        let ave_ll := map (confidence clips) ll in
        let* features :=
          rmapM (fun '(k, v) => let* v' := fill_nans v in Ok (k, v')) features in
        let* features := forward_pass ave_ll features in
        backward_pass ave_ll features
  | _, _ => Ok features
  end.

(** The first [n] frames of a feature array. *)
Definition chan_take (n : nat) (c : channel) : channel :=
  match c with
  | Chan1 v => Chan1 (take n v)
  | Chan2 v => Chan2 (take n v)
  end.

(** The number of frames of a feature array. *)
Definition chan_length (c : channel) : nat :=
  match c with
  | Chan1 v => length v
  | Chan2 v => length v
  end.

(** What every stage of [model_smoother] keeps: the keys in their order, and
    for each key the number of axes of its array and the number of frames. *)
Definition same_frames (features features' : channels) : Prop :=
  Forall2 (fun kv kv' => fst kv' = fst kv /\
                          chan_take 0 (snd kv') = chan_take 0 (snd kv) /\
                          chan_length (snd kv') = chan_length (snd kv))
          features features'.

(** ** Shapes *)

(** An array of two axes with [h] rows of [w] entries each. *)
Definition has_shape {A : Type} (h w : nat) (a : list (list A)) : Prop :=
  length a = h /\ Forall (fun row => length row = w) a.

(** ** What the Hampel filter computes *)

(** The window of [2 * h + 1] samples centred on sample [i] of [x], the
    samples beyond either end being NaN. *)
Definition hampel_window (x : list float) (h i : nat) : list float :=
  take (2 * h + 1) (drop i (replicate h nan ++ x ++ replicate h nan)).

(** The test of lines 955 and 967 on one sample [v] with window [w]: the
    sample gives way to the median of the window when its distance from the
    median is above [med + sig * mad]. *)
Definition hampel_sample (w : list float) (sig v : float) : float :=
  let med := np_nanmedian w in
  let mad := np_nanmedian (map (fun u => abs (u - med)%float) w) in
  if fgt (abs (v - med)%float) (med + sig * mad)%float then med else v.

(** ** What the labelling says about a frame *)

(** A pixel OpenCV counts as foreground: one that is not zero. *)
Definition foreground (f : image) (r c : nat) : Prop :=
  exists v, pixel f r c = Some v /\ v <> 0.

(** [output == L]. *)
Definition label_mask (L : nat) (out : list (list nat)) : bmask :=
  map (map (fun l => (l =? L)%nat)) out.

(** [m] is the mask of a label other than the background whose area is the
    largest among those labels. *)
Definition largest_component_mask (r : cc_result) (m : bmask) : Prop :=
  exists L, (1 <= L < nb_components r)%nat /\
    m = label_mask L (cc_output r) /\
    forall l, (1 <= l < nb_components r)%nat ->
      count_label l (cc_output r) <= count_label L (cc_output r).

(** ** The degenerate batch *)


Definition blank (m : bmask) : Prop :=
  Forall (Forall (fun b => b = false)) m.

(** ** The smoothing passes as the specification words them *)

(** The forward pass when it updates every frame after the first, the way the
    backward pass updates every frame before the last. *)
Definition forward_pass_specified (ave_ll : list float) (features : channels)
    : outcome channels :=
  rfold (fun fs i => blend_all ave_ll i (i - 1) fs)
        (seq 1 (length ave_ll - 1)) features.

Definition model_smoother_specified (features : channels)
    (ll : option (list (list float))) (clips : option (float * float))
    : outcome channels :=
  match ll, clips with
  | Some ll, Some clips =>
      if fge (fst clips) (snd clips) then Ok features
      else
        let ave_ll := map (confidence clips) ll in
        let* features :=
          rmapM (fun '(k, v) => let* v' := fill_nans v in Ok (k, v')) features in
        let* features := forward_pass_specified ave_ll features in
        backward_pass ave_ll features
  | _, _ => Ok features
  end.

(** * Properties *)

(** ** Index arrays *)

Lemma where_from_spec {A : Type} (p : A -> bool) (l : list A) (i j : nat) :
  In j (where_from p i l) <->
  (i <= j)%nat /\ exists a, l !! (j - i)%nat = Some a /\ p a = true.
Proof.
  revert i. induction l as [|a t IH]; intros i; simpl.
  - split; [tauto | intros (_ & x & Hx & _); discriminate].
  - assert (Htail : In j (where_from p (S i) t) <->
                    (i < j)%nat /\ exists x, (a :: t) !! (j - i)%nat = Some x /\ p x = true).
    { rewrite IH. split.
      - intros (Hle & x & Hx & Hp). split; [lia|]. exists x. split; [|exact Hp].
        replace (j - i)%nat with (S (j - S i)) by lia. exact Hx.
      - intros (Hlt & x & Hx & Hp). split; [lia|]. exists x. split; [|exact Hp].
        replace (j - i)%nat with (S (j - S i)) in Hx by lia. exact Hx. }
    destruct (p a) eqn:Hpa; simpl; rewrite ?Htail.
    + split.
      * intros [<- | (Hlt & x & Hx & Hp)].
        -- split; [lia|]. exists a. rewrite Nat.sub_diag. auto.
        -- split; [lia|]. eauto.
      * intros (Hle & x & Hx & Hp).
        destruct (Nat.eq_dec i j) as [-> | Hne]; [left; reflexivity|].
        right. split; [lia|]. eauto.
    + split.
      * intros (Hlt & x & Hx & Hp). split; [lia|]. eauto.
      * intros (Hle & x & Hx & Hp).
        destruct (Nat.eq_dec i j) as [-> | Hne].
        -- rewrite Nat.sub_diag in Hx. simpl in Hx. congruence.
        -- split; [lia|]. eauto.
Qed.

Lemma np_where_spec {A : Type} (p : A -> bool) (l : list A) (j : nat) :
  In j (np_where p l) <-> exists a, l !! j = Some a /\ p a = true.
Proof.
  unfold np_where. rewrite where_from_spec, Nat.sub_0_r.
  split; [intros [_ H]; exact H | intros H; split; [lia | exact H]].
Qed.

Lemma where2_from_spec (roi : roi_image) (r0 r c : nat) :
  In (r, c) (where2_from r0 roi) <->
  (r0 <= r)%nat /\ exists row v,
     roi !! (r - r0)%nat = Some row /\ row !! c = Some v /\ v <> 0%N.
Proof.
  revert r0. induction roi as [|row rest IH]; intros r0; simpl.
  - split; [tauto | intros (_ & x & v & Hx & _); discriminate].
  - rewrite in_app_iff, in_map_iff, IH. split.
    + intros [(c' & Heq & Hin) | (Hle & row' & v & Hrow & Hv & Hpos)].
      * inversion Heq; subst. apply np_where_spec in Hin as (v & Hv & Hpos).
        split; [lia|]. exists row, v. rewrite Nat.sub_diag. simpl.
        apply N.ltb_lt in Hpos. split; [reflexivity|]. split; [exact Hv | lia].
      * split; [lia|]. exists row', v.
        replace (r - r0)%nat with (S (r - S r0)) by lia. auto.
    + intros (Hle & row' & v & Hrow & Hv & Hpos).
      destruct (Nat.eq_dec r0 r) as [-> | Hne].
      * left. rewrite Nat.sub_diag in Hrow. simpl in Hrow. inversion Hrow; subst.
        exists c. split; [reflexivity|]. apply np_where_spec.
        exists v. split; [exact Hv | apply N.ltb_lt; lia].
      * right. split; [lia|]. exists row', v.
        replace (r - r0)%nat with (S (r - S r0)) in Hrow by lia. auto.
Qed.

Lemma np_where2_spec (roi : roi_image) (r c : nat) :
  In (r, c) (np_where2 roi) <-> nonzero roi r c.
Proof.
  unfold np_where2, nonzero, pixel. rewrite where2_from_spec, Nat.sub_0_r. split.
  - intros (_ & row & v & Hrow & Hv & Hpos). exists v. rewrite Hrow. simpl. auto.
  - intros (v & Hv & Hpos). split; [lia|].
    destruct (roi !! r) as [row|] eqn:Hrow; simpl in Hv; [|discriminate].
    exists row, v. auto.
Qed.

Lemma fold_min_spec (d : nat) (l : list nat) :
  (fold_right Nat.min d l <= d)%nat /\
  (forall x, In x l -> (fold_right Nat.min d l <= x)%nat) /\
  (fold_right Nat.min d l = d \/ In (fold_right Nat.min d l) l).
Proof.
  induction l as [|a t (IH1 & IH2 & IH3)]; simpl.
  - split; [lia|]. split; [intros x [] | left; reflexivity].
  - split; [lia|]. split.
    + intros x [<- | Hx]; [lia | specialize (IH2 x Hx); lia].
    + destruct (Nat.min_spec a (fold_right Nat.min d t)) as [[_ ->] | [_ ->]].
      * right. left. reflexivity.
      * destruct IH3 as [-> | Hin]; [left; reflexivity | right; right; exact Hin].
Qed.

Lemma np_min_spec (l : list nat) :
  l <> [] -> In (np_min l) l /\ forall x, In x l -> (np_min l <= x)%nat.
Proof.
  intros Hne. destruct l as [|a t]; [congruence|].
  unfold np_min. cbn [hd].
  destruct (fold_min_spec a (a :: t)) as (_ & H2 & H3).
  split; [|exact H2].
  destruct H3 as [-> | H3]; [left; reflexivity | exact H3].
Qed.

Lemma np_max_spec (l : list nat) :
  l <> [] -> In (np_max l) l /\ forall x, In x l -> (x <= np_max l)%nat.
Proof.
  intros Hne. unfold np_max. split.
  - induction l as [|a t IH]; [congruence|]. simpl.
    destruct t as [|b t'].
    + simpl. left. lia.
    + destruct (Nat.max_spec a (fold_right Nat.max 0%nat (b :: t'))) as [[_ ->] | [_ ->]].
      * right. apply IH. discriminate.
      * left. reflexivity.
  - clear Hne. induction l as [|a t IH]; simpl; [tauto|].
    intros x [<- | Hx]; [lia | specialize (IH x Hx); lia].
Qed.

(** ** [get_bbox] and [get_roi] *)

Lemma get_bbox_exact (roi : roi_image) :
  match get_bbox roi with
  | Some b => bounds_exactly b roi
  | None => forall r c, ~ nonzero roi r c
  end.
Proof.
  unfold get_bbox. rewrite !length_map, orb_diag.
  destruct (length (np_where2 roi) =? 0)%nat eqn:Hlen.
  - apply Nat.eqb_eq, length_zero_iff_nil in Hlen.
    intros r c Hnz. apply np_where2_spec in Hnz. rewrite Hlen in Hnz. exact Hnz.
  - apply Nat.eqb_neq in Hlen.
    assert (Hy : map fst (np_where2 roi) <> []).
    { intros H. apply Hlen. apply (f_equal (@length nat)) in H.
      rewrite length_map in H. exact H. }
    assert (Hx : map snd (np_where2 roi) <> []).
    { intros H. apply Hlen. apply (f_equal (@length nat)) in H.
      rewrite length_map in H. exact H. }
    destruct (np_min_spec _ Hy) as (Hymin & Hyle).
    destruct (np_max_spec _ Hy) as (Hymax & Hyge).
    destruct (np_min_spec _ Hx) as (Hxmin & Hxle).
    destruct (np_max_spec _ Hx) as (Hxmax & Hxge).
    unfold bounds_exactly. cbn [ymin xmin ymax xmax]. repeat split.
    + apply Hyle. apply in_map_iff. exists (r, c). split; [reflexivity|].
      apply np_where2_spec. assumption.
    + apply Hyge. apply in_map_iff. exists (r, c). split; [reflexivity|].
      apply np_where2_spec. assumption.
    + apply Hxle. apply in_map_iff. exists (r, c). split; [reflexivity|].
      apply np_where2_spec. assumption.
    + apply Hxge. apply in_map_iff. exists (r, c). split; [reflexivity|].
      apply np_where2_spec. assumption.
    + apply in_map_iff in Hymin as ((r, c) & Heq & Hin). simpl in Heq.
      exists c. rewrite <- Heq. apply np_where2_spec. exact Hin.
    + apply in_map_iff in Hymax as ((r, c) & Heq & Hin). simpl in Heq.
      exists c. rewrite <- Heq. apply np_where2_spec. exact Hin.
    + apply in_map_iff in Hxmin as ((r, c) & Heq & Hin). simpl in Heq.
      exists r. rewrite <- Heq. apply np_where2_spec. exact Hin.
    + apply in_map_iff in Hxmax as ((r, c) & Heq & Hin). simpl in Heq.
      exists r. rewrite <- Heq. apply np_where2_spec. exact Hin.
Qed.

Lemma map_delete {A B : Type} (f : A -> B) (i : nat) (l : list A) :
  delete i (map f l) = map f (delete i l).
Proof.
  revert i. induction l as [|a t IH]; intros [|i]; simpl; try reflexivity.
  f_equal. apply IH.
Qed.

Lemma rfold_invariant {A S : Type} (P : S -> Prop) (f : S -> A -> outcome S)
    (l : list A) (s s' : S) :
  (forall s0 a s1, P s0 -> f s0 a = Ok s1 -> P s1) ->
  P s -> rfold f l s = Ok s' -> P s'.
Proof.
  intros Hstep. revert s. induction l as [|a t IH]; intros s Hs; simpl.
  - intros H. inversion H; subst. exact Hs.
  - destruct (f s a) as [s1|e] eqn:Hf; simpl; [|discriminate].
    apply IH. eapply Hstep; eassumption.
Qed.

Section GetRoiProperties.
Variable strel : Type.
Variable cv2_dilate cv2_erode : roi_image -> strel -> Z -> roi_image.
Variable binary_fill_holes : roi_image -> roi_image.

Lemma get_roi_bboxes_aligned depth_image region_properties shape_index strel_dilate
    dilate_iterations erode_iterations strel_erode overlap_roi bg_roi_fill_holes
    rois bboxes :
  get_roi strel cv2_dilate cv2_erode binary_fill_holes depth_image region_properties
    shape_index strel_dilate dilate_iterations erode_iterations strel_erode
    overlap_roi bg_roi_fill_holes = Ok (rois, bboxes) ->
  bboxes = map get_bbox rois.
Proof.
  unfold get_roi.
  match goal with |- context [rfold ?f ?l ?s] => destruct (rfold f l s) as [[rs bs]|e] eqn:Hfold end;
    simpl; [|discriminate].
  assert (Hinv : bs = map get_bbox rs).
  { eapply (rfold_invariant (fun '(rs, bs) => bs = map get_bbox rs)) in Hfold;
      [exact Hfold | | reflexivity].
    intros [rs0 bs0] shape [rs1 bs1] Hs0.
    destruct (region_properties !! shape); [|discriminate].
    intros H. inversion H; subst. rewrite map_app. reflexivity. }
  destruct overlap_roi as [o|].
  - destruct (np_put _ _ _) as [overlaps|e]; simpl; [|discriminate].
    destruct (np_argmax_Z overlaps) as [k|e]; simpl; [|discriminate].
    destruct (k <? length rs)%nat; [|discriminate].
    intros H. inversion H; subst. apply map_delete.
  - intros H. inversion H; subst. reflexivity.
Qed.

(** C9. Every mask that [get_roi] returns comes with the box [get_bbox]
    computes for it, at the same index; that box bounds the nonzero pixels
    of the mask exactly (all of them lie inside and each side touches one),
    and it is [None] exactly for a mask without nonzero pixels. *)
Theorem get_roi_bbox_exact depth_image region_properties shape_index strel_dilate
    dilate_iterations erode_iterations strel_erode overlap_roi bg_roi_fill_holes
    rois bboxes :
  get_roi strel cv2_dilate cv2_erode binary_fill_holes depth_image region_properties
    shape_index strel_dilate dilate_iterations erode_iterations strel_erode
    overlap_roi bg_roi_fill_holes = Ok (rois, bboxes) ->
  length bboxes = length rois /\
  forall (i : nat) (roi : roi_image), rois !! i = Some roi ->
    exists bb, bboxes !! i = Some bb /\ bb = get_bbox roi /\
      match bb with
      | Some b => bounds_exactly b roi
      | None => forall r c, ~ nonzero roi r c
      end.
Proof.
  intros H. apply get_roi_bboxes_aligned in H. subst bboxes.
  split; [apply length_map|].
  intros i roi Hroi. exists (get_bbox roi).
  split; [|split; [reflexivity | apply get_bbox_exact]].
  change (map get_bbox rois) with (get_bbox <$> rois).
  rewrite list_lookup_fmap, Hroi. reflexivity.
Qed.
End GetRoiProperties.

(** The theorem at a three-by-three image with two regions, ranked second
    first, and no morphology. *)
Lemma get_roi_bbox_exact_witness :
  length [Some (BBox 1 1 1 2); Some (BBox 0 0 0 0)] =
  length [[[0; 0; 0]; [0; 1; 1]; [0; 0; 0]]; [[1; 0; 0]; [0; 0; 0]; [0; 0; 0]]]%N /\
  forall (i : nat) (roi : roi_image),
    [[[0; 0; 0]; [0; 1; 1]; [0; 0; 0]]; [[1; 0; 0]; [0; 0; 0]; [0; 0; 0]]]%N !! i = Some roi ->
    exists bb, [Some (BBox 1 1 1 2); Some (BBox 0 0 0 0)] !! i = Some bb /\
      bb = get_bbox roi /\
      match bb with
      | Some b => bounds_exactly b roi
      | None => forall r c, ~ nonzero roi r c
      end.
Proof.
  apply (get_roi_bbox_exact unit (fun f _ _ => f) (fun f _ _ => f) (fun f => f)
           [[5; 5; 5]; [5; 5; 5]; [5; 5; 5]]
           [[(0, 0)]; [(1, 1); (1, 2)]]%nat [1; 0]%nat None 0 0 None None false).
  reflexivity.
Defined.

(** ** [clean_frames] *)

Lemma astype_in_range (d : dtype) (v : Z) : in_dtype d v -> astype d v = v.
Proof.
  unfold in_dtype, astype.
  destruct d; cbn [dtype_signed dtype_bits andb]; intros Hv.
  all: repeat match goal with
       | H : context [2 ^ ?k] |- _ =>
           let c := eval vm_compute in (2 ^ k) in change (2 ^ k) with c in H
       | |- context [2 ^ ?k] =>
           let c := eval vm_compute in (2 ^ k) in change (2 ^ k) with c
       end.
  all: repeat match goal with
       | |- context [?a / 2] =>
           let c := eval vm_compute in (a / 2) in change (a / 2) with c
       end.
  all: try (rewrite Z.mod_small by lia; reflexivity).
  all: match goal with
       | |- context [Z.modulo ?x ?m] =>
           destruct (Z_lt_le_dec x 0) as [Hneg | Hpos];
           [ replace (Z.modulo x m) with (x + m)
               by (apply (Z.mod_unique_pos x m (-1) (x + m)); lia)
           | rewrite (Z.mod_small x m) by lia ]
       end.
  all: match goal with
       | |- (if ?c then _ else _) = _ => destruct c eqn:Hc
       end.
  all: try reflexivity.
  all: try apply Z.leb_le in Hc.
  all: try apply Z.leb_gt in Hc.
  all: lia.
Qed.

Lemma map_id_on {A : Type} (f : A -> A) (l : list A) :
  Forall (fun x => f x = x) l -> map f l = l.
Proof.
  induction 1 as [|x t Hx _ IH]; simpl; [reflexivity | rewrite Hx, IH; reflexivity].
Qed.

Lemma batch_astype_in_range (d : dtype) (frames : batch) :
  Forall (Forall (Forall (in_dtype d))) frames -> batch_astype d frames = frames.
Proof.
  intros H. unfold batch_astype. apply map_id_on.
  eapply Forall_impl; [exact H|]. intros f Hf. apply map_id_on.
  eapply Forall_impl; [exact Hf|]. intros row Hrow. apply map_id_on.
  eapply Forall_impl; [exact Hrow|]. intros v. apply astype_in_range.
Qed.

Section CleanFramesProperties.
Variable strel : Type.
Variable cv2_erode : image -> strel -> Z -> image.
Variable cv2_medianBlur : image -> Z -> image.
Variable cv2_morphologyEx_open : image -> strel -> Z -> image.
Variable scipy_medfilt : batch -> Z -> batch.

(** With the four filters off, what is left of [clean_frames] is the cast. *)
Lemma clean_frames_disabled_is_cast frames strel_tail frame_dtype strel_min :
  clean_frames strel cv2_erode cv2_medianBlur cv2_morphologyEx_open scipy_medfilt
    frames None None strel_tail None frame_dtype strel_min None
  = batch_astype frame_dtype frames.
Proof.
  unfold clean_frames, clean_one. apply map_id_on. apply Forall_forall. reflexivity.
Qed.

(** C8, as amended. With [prefilter_space], [prefilter_time], [iters_tail] and
    [iters_min] all [None], [clean_frames] returns the batch it was given,
    element for element, provided every element is a value of [frame_dtype]
    (0 to 255 for the default [uint8]); no exception is raised. *)
Theorem clean_frames_disabled_identity frames strel_tail frame_dtype strel_min :
  Forall (Forall (Forall (in_dtype frame_dtype))) frames ->
  clean_frames strel cv2_erode cv2_medianBlur cv2_morphologyEx_open scipy_medfilt
    frames None None strel_tail None frame_dtype strel_min None
  = frames.
Proof.
  intros H. rewrite clean_frames_disabled_is_cast. apply batch_astype_in_range. exact H.
Qed.
End CleanFramesProperties.

(** The amended C8 at a batch of two frames of bytes. *)
Lemma clean_frames_disabled_identity_witness :
  clean_frames unit (fun f _ _ => f) (fun f _ => f) (fun f _ _ => f) (fun b _ => b)
    [[[0; 12]; [255; 7]]; [[1; 2]; [3; 4]]] None None tt None uint8 tt None
  = [[[0; 12]; [255; 7]]; [[1; 2]; [3; 4]]].
Proof.
  apply clean_frames_disabled_identity.
  repeat (constructor; try (unfold in_dtype; simpl; lia)).
Defined.

(** C8 as stated fails: a depth of 300 in a 16-bit batch comes back as 44
    under the default [frame_dtype='uint8'], whatever the filters are. *)
Lemma clean_frames_disabled_not_identity :
  clean_frames unit (fun f _ _ => f) (fun f _ => f) (fun f _ _ => f) (fun b _ => b)
    [[[300]]] None None tt None uint8 tt None
  <> [[[300]]].
Proof.
  rewrite clean_frames_disabled_is_cast. vm_compute. discriminate.
Qed.

(** ** [get_largest_cc] *)

Lemma in_zip_lookup {A B : Type} (l : list A) (k : list B) (a : A) (b : B) :
  In (a, b) (zip l k) <-> exists i, l !! i = Some a /\ k !! i = Some b.
Proof.
  rewrite <- list_elem_of_In.
  etransitivity; [apply (elem_of_lookup_zip_with pair l k (a, b))|]. split.
  - intros (i & x & y & Heq & Hx & Hy). inversion Heq; subst. eauto.
  - intros (i & Hx & Hy). exists i, a, b. auto.
Qed.

(** [argmax] over integers: the index found is in range and holds a largest
    entry. *)
Lemma argmax_loop_Z_spec (F l : list Z) (mp : Z) (mi i : nat) :
  F !! mi = Some mp -> (mi < i)%nat -> drop i F = l ->
  (forall j x, (j < i)%nat -> F !! j = Some x -> x <= mp) ->
  exists v, F !! argmax_loop Z.leb (fun _ => false) mp mi i l = Some v /\
            forall j x, F !! j = Some x -> x <= v.
Proof.
  revert mp mi i. induction l as [|a t IH]; intros mp mi i Hmi Hlt Hdrop Hmax; simpl.
  - exists mp. split; [exact Hmi|]. intros j x Hx. apply (Hmax j); [|exact Hx].
    apply lookup_lt_Some in Hx. apply (f_equal (@length Z)) in Hdrop.
    rewrite length_drop in Hdrop. simpl in Hdrop. lia.
  - assert (Hi : F !! i = Some a).
    { apply (f_equal (fun l => l !! 0%nat)) in Hdrop. rewrite lookup_drop in Hdrop.
      rewrite Nat.add_0_r in Hdrop. exact Hdrop. }
    assert (Ht : drop (S i) F = t).
    { replace (S i) with (i + 1)%nat by lia. rewrite <- drop_drop, Hdrop. reflexivity. }
    destruct (Z.leb a mp) eqn:Hle; simpl.
    + apply Z.leb_le in Hle. apply IH; [exact Hmi | lia | exact Ht |].
      intros j x Hj Hx. destruct (Nat.eq_dec j i) as [-> | Hne].
      * rewrite Hi in Hx. inversion Hx; subst. exact Hle.
      * apply (Hmax j); [lia | exact Hx].
    + apply Z.leb_gt in Hle. apply IH; [exact Hi | lia | exact Ht |].
      intros j x Hj Hx. destruct (Nat.eq_dec j i) as [-> | Hne].
      * rewrite Hi in Hx. inversion Hx; subst. lia.
      * specialize (Hmax j x ltac:(lia) Hx). lia.
Qed.

Lemma np_argmax_Z_spec (l : list Z) :
  l <> [] ->
  exists k v, np_argmax_Z l = Ok k /\ l !! k = Some v /\
              forall j x, l !! j = Some x -> x <= v.
Proof.
  destruct l as [|a t]; [congruence|]. intros _.
  unfold np_argmax_Z, np_argmax.
  destruct (argmax_loop_Z_spec (a :: t) t a 0 1) as (v & Hv & Hmax).
  - reflexivity.
  - lia.
  - reflexivity.
  - intros j x Hj Hx. assert (j = 0%nat) as -> by lia. simpl in Hx.
    inversion Hx; subst. lia.
  - eauto.
Qed.

Lemma cc_contract_facts (f : image) (r : cc_result) :
  cc_contract f r = true ->
  length (cc_output r) = length f /\
  (forall y frow orow, f !! y = Some frow -> cc_output r !! y = Some orow ->
     length frow = length orow /\
     forall x v l, frow !! x = Some v -> orow !! x = Some l ->
       (v = 0 <-> l = 0%nat) /\ (l < nb_components r)%nat) /\
  length (cc_stats r) = nb_components r /\
  (0 < nb_components r)%nat /\
  (forall l row, cc_stats r !! l = Some row ->
     default 0 (last row) = count_label l (cc_output r) /\
     (l = 0%nat \/ 0 < count_label l (cc_output r))).
Proof.
  unfold cc_contract. rewrite !andb_true_iff.
  intros ((((H1 & H2) & H3) & H4) & H5).
  apply Nat.eqb_eq in H1. apply Nat.eqb_eq in H3. apply Nat.ltb_lt in H4.
  rewrite forallb_forall in H2. rewrite forallb_forall in H5.
  split; [exact H1|]. split; [|split; [exact H3|split; [exact H4|]]].
  - intros y frow orow Hf Ho.
    specialize (H2 (frow, orow)). simpl in H2.
    rewrite andb_true_iff in H2. destruct H2 as (Hlen & Hpix).
    { apply in_zip_lookup. eauto. }
    apply Nat.eqb_eq in Hlen. split; [exact Hlen|].
    intros x v l Hv Hl. rewrite forallb_forall in Hpix.
    specialize (Hpix (v, l)). simpl in Hpix.
    rewrite andb_true_iff in Hpix. destruct Hpix as (Hzero & Hlt).
    { apply in_zip_lookup. eauto. }
    apply Nat.ltb_lt in Hlt. split; [|exact Hlt].
    apply Bool.eqb_prop in Hzero.
    destruct (v =? 0) eqn:Hv0; symmetry in Hzero.
    + apply Z.eqb_eq in Hv0. apply Nat.eqb_eq in Hzero. tauto.
    + apply Z.eqb_neq in Hv0. apply Nat.eqb_neq in Hzero. tauto.
  - intros l row Hrow.
    assert (Hl : (l < nb_components r)%nat).
    { rewrite <- H3. eapply lookup_lt_Some. exact Hrow. }
    specialize (H5 (l, row)). simpl in H5.
    rewrite andb_true_iff, orb_true_iff in H5. destruct H5 as (Harea & Hpos).
    { apply in_zip_lookup. exists l. split; [|exact Hrow].
      rewrite lookup_seq_lt by exact Hl. reflexivity. }
    apply Z.eqb_eq in Harea. split; [exact Harea|].
    destruct Hpos as [H0 | Hpos]; [left; apply Nat.eqb_eq; exact H0|].
    right. apply Z.ltb_lt. exact Hpos.
Qed.

Lemma count_label_pos (l : nat) (out : list (list nat)) :
  0 < count_label l out ->
  exists y orow x, out !! y = Some orow /\ orow !! x = Some l.
Proof.
  unfold count_label. intros Hpos.
  destruct (List.filter (Nat.eqb l) (concat out)) as [|e t] eqn:Hfilter;
    [simpl in Hpos; lia|].
  assert (Hin : In e (List.filter (Nat.eqb l) (concat out)))
    by (rewrite Hfilter; left; reflexivity).
  apply filter_In in Hin as (Hin & Heq). apply Nat.eqb_eq in Heq. subst e.
  apply in_concat in Hin as (orow & Horow & Hl).
  apply list_elem_of_In, list_elem_of_lookup in Horow as (y & Hy).
  apply list_elem_of_In, list_elem_of_lookup in Hl as (x & Hx).
  eauto.
Qed.

Section LargestCCProperties.
Variable cv2_connectedComponentsWithStats : image -> cc_result.

(** One frame: without a foreground pixel the argmax is over an empty array
    and raises; with one, the mask of a largest component comes back. *)
Lemma largest_cc_frame_cases (f : image) :
  cc_contract f (cv2_connectedComponentsWithStats f) = true ->
  ((forall y x, ~ foreground f y x) /\
   largest_cc_frame cv2_connectedComponentsWithStats f = Raise ValueError) \/
  ((exists y x, foreground f y x) /\
   exists m, largest_cc_frame cv2_connectedComponentsWithStats f = Ok m /\
             largest_component_mask (cv2_connectedComponentsWithStats f) m).
Proof.
  intros Hc. apply cc_contract_facts in Hc as (Hrows & Hpix & Hstats & Hpos & Harea).
  unfold largest_cc_frame, foreground, pixel, image in *.
  set (r := cv2_connectedComponentsWithStats f) in *.
  set (szs := map (fun row => default 0 (last row)) (cc_stats r)).
  assert (Hszs : forall l, (l < nb_components r)%nat ->
                   szs !! l = Some (count_label l (cc_output r)) /\
                   (l = 0%nat \/ 0 < count_label l (cc_output r))).
  { intros l Hl. rewrite <- Hstats in Hl.
    apply lookup_lt_is_Some_2 in Hl as (row & Hrow).
    destruct (Harea l row Hrow) as (Ha & Hp). split; [|exact Hp].
    unfold szs. change (map ?g ?l0) with (g <$> l0).
    rewrite list_lookup_fmap, Hrow. simpl. rewrite Ha. reflexivity. }
  assert (Hlen : length szs = nb_components r).
  { unfold szs. rewrite length_map. exact Hstats. }
  destruct (Nat.eq_dec (nb_components r) 1%nat) as [Hone | Hmore].
  - left. split.
    + intros y x (v & Hv & Hnz). unfold pixel in Hv.
      destruct (f !! y) as [frow|] eqn:Hfrow; simpl in Hv; [|discriminate].
      assert (Hy : (y < length (cc_output r))%nat).
      { rewrite Hrows. eapply lookup_lt_Some. exact Hfrow. }
      apply lookup_lt_is_Some_2 in Hy as (orow & Horow).
      destruct (Hpix y frow orow Hfrow Horow) as (Hl & Hp).
      assert (Hx : (x < length orow)%nat).
      { rewrite <- Hl. eapply lookup_lt_Some. exact Hv. }
      apply lookup_lt_is_Some_2 in Hx as (l & Hlab).
      destruct (Hp x v l Hv Hlab) as (Hiff & Hlt).
      assert (l = 0%nat) by lia. tauto.
    + destruct szs as [|s0 [|s1 t]]; simpl in Hlen; try lia. reflexivity.
  - right.
    assert (Hne : drop 1 szs <> []).
    { intros Hnil. apply (f_equal (@length Z)) in Hnil.
      rewrite length_drop in Hnil. simpl in Hnil. lia. }
    destruct (np_argmax_Z_spec _ Hne) as (k & v & Hk & Hv & Hmax).
    rewrite lookup_drop in Hv.
    assert (HL : (1 + k < nb_components r)%nat).
    { rewrite <- Hlen. eapply lookup_lt_Some. exact Hv. }
    destruct (Hszs _ HL) as (Hv' & _). rewrite Hv in Hv'. inversion Hv'; subst v.
    split.
    + destruct (Hszs 1%nat ltac:(lia)) as (_ & [H0 | Hcount]); [discriminate|].
      apply count_label_pos in Hcount as (y & orow & x & Horow & Hlab).
      assert (Hy : (y < length f)%nat).
      { rewrite <- Hrows. eapply lookup_lt_Some. exact Horow. }
      apply lookup_lt_is_Some_2 in Hy as (frow & Hfrow).
      destruct (Hpix y frow orow Hfrow Horow) as (Hl & Hp).
      assert (Hx : (x < length frow)%nat).
      { rewrite Hl. eapply lookup_lt_Some. exact Hlab. }
      apply lookup_lt_is_Some_2 in Hx as (v & Hv0).
      destruct (Hp x v 1%nat Hv0 Hlab) as (Hiff & _).
      exists y, x, v. unfold pixel. rewrite Hfrow. simpl.
      split; [exact Hv0|]. intros ->. destruct Hiff as [Hiff _].
      specialize (Hiff eq_refl). discriminate.
    + rewrite Hk. simpl. eexists. split; [reflexivity|].
      exists (k + 1)%nat. split; [lia|]. split; [reflexivity|].
      intros l Hl. destruct (Hszs l ltac:(lia)) as (Hsl & _).
      replace (k + 1)%nat with (1 + k)%nat by lia.
      apply (Hmax (l - 1)%nat). rewrite lookup_drop.
      replace (1 + (l - 1))%nat with l by lia. exact Hsl.
Qed.

(** C10. Under OpenCV's contract for the labelling of each frame,
    [get_largest_cc] returns, frame by frame, the mask of a largest component
    other than the background when every frame has a nonzero pixel; and as
    soon as one frame has no nonzero pixel the call ends in [ValueError],
    the argmax over an empty array of sizes, instead of an empty mask. *)
Theorem get_largest_cc_needs_foreground (frames : batch) :
  (forall f, In f frames -> cc_contract f (cv2_connectedComponentsWithStats f) = true) ->
  (Forall (fun f => exists y x, foreground f y x) frames ->
   exists masks,
     get_largest_cc cv2_connectedComponentsWithStats frames = Ok masks /\
     Forall2 (fun f m => largest_component_mask (cv2_connectedComponentsWithStats f) m)
             frames masks) /\
  (Exists (fun f => forall y x, ~ foreground f y x) frames ->
   get_largest_cc cv2_connectedComponentsWithStats frames = Raise ValueError).
Proof.
  unfold get_largest_cc. induction frames as [|f t IH]; intros Hc.
  - split.
    + intros _. exists []. split; [reflexivity | constructor].
    + intros H. inversion H.
  - destruct IH as (IHok & IHerr); [intros g Hg; apply Hc; right; exact Hg|].
    destruct (largest_cc_frame_cases f (Hc f (or_introl eq_refl)))
      as [(Hnone & Hraise) | (Hsome & m & Hm & Hlargest)].
    + split.
      * intros Hall. inversion Hall as [|? ? (y & x & Hfg) _]; subst.
        exfalso. exact (Hnone y x Hfg).
      * intros _. simpl. rewrite Hraise. reflexivity.
    + split.
      * intros Hall. inversion Hall as [|? ? _ Ht]; subst.
        destruct (IHok Ht) as (masks & Hmasks & Hall2).
        exists (m :: masks). simpl. rewrite Hm. simpl. rewrite Hmasks. simpl.
        split; [reflexivity | constructor; assumption].
      * intros Hex. simpl. rewrite Hm. simpl.
        inversion Hex as [? ? Hhead | ? ? Htail]; subst.
        -- destruct Hsome as (y & x & Hfg). exfalso. exact (Hhead y x Hfg).
        -- rewrite (IHerr Htail). reflexivity.
Qed.
End LargestCCProperties.

(** C10 at two frames with one component each, labelled as OpenCV would. *)
Lemma get_largest_cc_needs_foreground_witness :
  (Forall (fun f => exists y x, foreground f y x) [[[0; 1]; [0; 1]]; [[0; 1]; [0; 1]]] ->
   exists masks,
     get_largest_cc (fun _ => CCResult 2 [[0; 1]; [0; 1]]%nat
                                [[0; 0; 1; 2; 2]; [1; 0; 1; 2; 2]])
                    [[[0; 1]; [0; 1]]; [[0; 1]; [0; 1]]] = Ok masks /\
     Forall2 (fun f m =>
                largest_component_mask
                  (CCResult 2 [[0; 1]; [0; 1]]%nat [[0; 0; 1; 2; 2]; [1; 0; 1; 2; 2]]) m)
             [[[0; 1]; [0; 1]]; [[0; 1]; [0; 1]]] masks) /\
  (Exists (fun f => forall y x, ~ foreground f y x) [[[0; 1]; [0; 1]]; [[0; 1]; [0; 1]]] ->
   get_largest_cc (fun _ => CCResult 2 [[0; 1]; [0; 1]]%nat
                              [[0; 0; 1; 2; 2]; [1; 0; 1; 2; 2]])
                  [[[0; 1]; [0; 1]]; [[0; 1]; [0; 1]]] = Raise ValueError).
Proof.
  apply (get_largest_cc_needs_foreground
           (fun _ => CCResult 2 [[0; 1]; [0; 1]]%nat [[0; 0; 1; 2; 2]; [1; 0; 1; 2; 2]])
           [[[0; 1]; [0; 1]]; [[0; 1]; [0; 1]]]).
  intros f [<- | [<- | []]]; vm_compute; reflexivity.
Defined.

(** ** The connected-component path of [get_frame_features] *)

Lemma blank_no_foreground (m : bmask) :
  blank m -> forall y x, ~ foreground (bmask_uint8 m) y x.
Proof.
  unfold blank, foreground, pixel, bmask_uint8, bmask in *. intros Hm y x (v & Hv & Hnz).
  change (map ?f m) with (f <$> m) in Hv. rewrite list_lookup_fmap in Hv.
  destruct (m !! y) as [row|] eqn:Hrow; cbn in Hv; [|discriminate].
  change (map ?f row) with (f <$> row) in Hv. rewrite list_lookup_fmap in Hv.
  destruct (row !! x) as [b|] eqn:Hb; cbn in Hv; [|discriminate].
  rewrite Forall_forall in Hm.
  specialize (Hm row (list_elem_of_lookup_2 _ _ _ Hrow)).
  rewrite Forall_forall in Hm.
  specialize (Hm b (list_elem_of_lookup_2 _ _ _ Hb)). subst b.
  inversion Hv. congruence.
Qed.

Section ConnectedComponentPath.
Variable contour : Type.
Variable cv2_findContours : bmask -> list contour.
Variable cv2_contourArea : contour -> float.
Variable cv2_minEnclosingCircle_radius : contour -> float.
Variable cv2_moments : contour -> moments.
Variable np_arctan2 : float -> float -> float.
Variable cv2_connectedComponentsWithStats : image -> cc_result.

(** With [use_cc] on and no object removal, a frame none of whose pixels is
    above [mask_threshold] ends the whole call in [ValueError]: the features
    of the frames before it are lost with it. *)
Lemma frame_features_use_cc_raises (frame_threshold mask_threshold : float)
    (mask : batch) (has_mask : bool) (roi : roi_image) (i : nat) (frame : image) :
  cc_contract (bmask_uint8 (gt_image frame mask_threshold))
    (cv2_connectedComponentsWithStats (bmask_uint8 (gt_image frame mask_threshold)))
    = true ->
  blank (gt_image frame mask_threshold) ->
  frame_features contour cv2_findContours cv2_contourArea
    cv2_minEnclosingCircle_radius cv2_moments np_arctan2
    cv2_connectedComponentsWithStats
    frame_threshold mask has_mask mask_threshold true roi None i frame
  = Raise ValueError.
Proof.
  intros Hc Hblank. unfold frame_features, largest_cc_of_mask, get_largest_cc.
  cbn [rbind rmapM].
  destruct (largest_cc_frame_cases cv2_connectedComponentsWithStats _ Hc)
    as [(_ & Hraise) | ((y & x & Hfg) & _)].
  - rewrite Hraise. reflexivity.
  - exfalso. exact (blank_no_foreground _ Hblank y x Hfg).
Qed.
End ConnectedComponentPath.

(** ** [feature_hampel_filter] *)

(** C7. With [centroid_hampel_span] unset, a positive [angle_hampel_span]
    does not filter the orientation: [padded_orientation] is assigned only
    inside the centroid branch, so the call ends in [UnboundLocalError]
    whatever the features are. *)
Theorem feature_hampel_filter_angle_only_raises (features : track_features)
    (centroid_hampel_sig angle_hampel_sig : float) (angle_hampel_span : positive) :
  feature_hampel_filter features None centroid_hampel_sig
    (Some (Z.pos angle_hampel_span)) angle_hampel_sig
  = Raise UnboundLocalError.
Proof. reflexivity. Qed.

(** The same when the centroid span is given but not positive. *)
Lemma feature_hampel_filter_angle_only_raises_nonpositive (features : track_features)
    (centroid_hampel_sig angle_hampel_sig : float) (centroid_hampel_span : Z)
    (angle_hampel_span : positive) :
  centroid_hampel_span <= 0 ->
  feature_hampel_filter features (Some centroid_hampel_span) centroid_hampel_sig
    (Some (Z.pos angle_hampel_span)) angle_hampel_sig
  = Raise UnboundLocalError.
Proof.
  intros H. unfold feature_hampel_filter.
  destruct (0 <? centroid_hampel_span) eqn:Hpos; [apply Z.ltb_lt in Hpos; lia|].
  reflexivity.
Qed.

(** With both spans unset or not positive the features come back as given. *)
Lemma feature_hampel_filter_both_off (features : track_features)
    (centroid_hampel_sig angle_hampel_sig : float)
    (centroid_hampel_span angle_hampel_span : option Z) :
  (forall c, centroid_hampel_span = Some c -> c <= 0) ->
  (forall a, angle_hampel_span = Some a -> a <= 0) ->
  feature_hampel_filter features centroid_hampel_span centroid_hampel_sig
    angle_hampel_span angle_hampel_sig
  = Ok features.
Proof.
  intros Hc Ha. unfold feature_hampel_filter.
  assert (Hst : match centroid_hampel_span with
                | Some c => (0 <? c) = false
                | None => True
                end).
  { destruct centroid_hampel_span as [c|]; [|exact I].
    apply Z.ltb_ge. apply Hc. reflexivity. }
  assert (Hsa : match angle_hampel_span with
                | Some a => (0 <? a) = false
                | None => True
                end).
  { destruct angle_hampel_span as [a|]; [|exact I].
    apply Z.ltb_ge. apply Ha. reflexivity. }
  destruct centroid_hampel_span as [c|], angle_hampel_span as [a|];
    rewrite ?Hst, ?Hsa; reflexivity.
Qed.

(** C1. On a constant signal with one outlier the filter leaves the outlier
    in place: at frame 2 the window median is 100 and the window MAD is 0, so
    the deviation 50 exceeds three MADs, but the code compares it with
    [med + sig * mad = 100]. The orientation outlier is kept for the same
    reason. In the second batch the first coordinate of the centroid is
    replaced and the second, whose samples are the same, is not: the loop
    over the coordinates is [range(1)]. In the third batch the orientation
    has no outlier (at frame 1 the window median is -1, the window MAD 0.25
    and the deviation 0.25), and every sample of it is replaced by its window
    median, the threshold [med + sig * mad] being negative. *)
Theorem feature_hampel_filter_keeps_outlier :
  np_nanmedian [100; 150; 100]%float = 100%float /\
  np_nanmedian (map (fun v => abs (v - 100)%float) [100; 150; 100]%float) = 0%float /\
  fgt (abs (150 - 100)%float) (3 * 0)%float = true /\
  feature_hampel_filter
    (TrackFeatures [(100, 100); (100, 100); (150, 150); (100, 100); (100, 100)]%float
                   [1; 1; 2; 1; 1]%float
                   [(9, 4); (9, 4); (9, 4); (9, 4); (9, 4)]%float)
    (Some 3) 3%float (Some 3) 3%float
  = Ok (TrackFeatures [(100, 100); (100, 100); (150, 150); (100, 100); (100, 100)]%float
                      [1; 1; 2; 1; 1]%float
                      [(9, 4); (9, 4); (9, 4); (9, 4); (9, 4)]%float) /\
  feature_hampel_filter
    (TrackFeatures [(1, 1); (1, 1); (5, 5); (1, 1); (1, 1)]%float
                   [1; 1; 1; 1; 1]%float
                   [(9, 4); (9, 4); (9, 4); (9, 4); (9, 4)]%float)
    (Some 3) 3%float (Some 3) 3%float
  = Ok (TrackFeatures [(1, 1); (1, 1); (1, 5); (1, 1); (1, 1)]%float
                      [1; 1; 1; 1; 1]%float
                      [(9, 4); (9, 4); (9, 4); (9, 4); (9, 4)]%float) /\
  np_nanmedian [-1.25; -0.75; -1]%float = (-1)%float /\
  np_nanmedian (map (fun v => abs (v - -1)%float) [-1.25; -0.75; -1]%float)
    = 0.25%float /\
  fgt (abs (-0.75 - -1)%float) (3 * 0.25)%float = false /\
  feature_hampel_filter
    (TrackFeatures [(1, 1); (1, 1); (1, 1); (1, 1); (1, 1)]%float
                   [-1.25; -0.75; -1; -1.25; -0.75]%float
                   [(9, 4); (9, 4); (9, 4); (9, 4); (9, 4)]%float)
    (Some 3) 3%float (Some 3) 3%float
  = Ok (TrackFeatures [(1, 1); (1, 1); (1, 1); (1, 1); (1, 1)]%float
                      [-1; -1; -1; -1; -1]%float
                      [(9, 4); (9, 4); (9, 4); (9, 4); (9, 4)]%float).
Proof. repeat split; vm_compute; reflexivity. Qed.

(** ** [get_flips] *)

Lemma rmapM_map_const {A B C : Type} (f : B -> outcome C) (b : B) (c : C) (l : list A) :
  f b = Ok c -> rmapM f (map (fun _ => b) l) = Ok (map (fun _ => c) l).
Proof.
  intros Hf. induction l as [|a t IH]; simpl; [reflexivity|].
  rewrite Hf. simpl. rewrite IH. reflexivity.
Qed.

(** C2. When the classifier refuses the batch and its classes are [0, 1]
    (class 1, "flipped", in column 1), [get_flips] does not raise and reports
    the crop size the classifier needs, but the default probabilities
    [[0, 1]] put the argmax of every row on the flipped class: every frame
    is marked as flipped. *)
Theorem get_flips_mismatch_marks_every_frame (frames : batch) (n_features : Z)
    (proba : list (list Z) -> list (list float)) :
  0 <= n_features ->
  predict_proba (Classifier [0; 1] n_features proba) (map (@concat Z) frames)
    = Raise ValueError ->
  get_flips frames (Some (Classifier [0; 1] n_features proba)) None
  = Ok (FlipsOut (Some (Z.sqrt n_features)) (map (fun _ => true) frames)).
Proof.
  intros Hn Hp. unfold get_flips. cbn [rbind]. rewrite Hp. clear Hp.
  cbn [n_features_ classes_]. destruct (n_features <? 0) eqn:Hneg;
    [apply Z.ltb_lt in Hneg; lia|].
  cbn [rbind].
  rewrite (rmapM_map_const np_argmax_float [0; 1]%float 1%nat frames) by reflexivity.
  cbn [rbind]. change (np_where (Z.eqb 1) [0; 1]) with [1%nat].
  assert (Hb : np_broadcast2 Nat.eqb (map (fun _ : image => 1%nat) frames) [1%nat]
               = Ok (map (fun _ => true) frames)).
  { unfold np_broadcast2. rewrite length_map. cbn [length].
    destruct frames as [|f [|g t]]; try reflexivity.
    cbn [length Nat.eqb map]. rewrite map_map. reflexivity. }
  rewrite Hb. reflexivity.
Qed.

(** C2 at two frames of two by two pixels and a classifier trained on
    patches of eighty by eighty. *)
Lemma get_flips_mismatch_marks_every_frame_witness :
  get_flips [[[0; 0]; [0; 0]]; [[3; 1]; [4; 1]]]
            (Some (Classifier [0; 1] 6400 (fun X => map (fun _ => [0.5; 0.5]%float) X)))
            None
  = Ok (FlipsOut (Some (Z.sqrt 6400))
                 (map (fun _ => true) [[[0; 0]; [0; 0]]; [[3; 1]; [4; 1]]])).
Proof.
  apply get_flips_mismatch_marks_every_frame; [lia | reflexivity].
Defined.

(** ** [get_floor_ellipse] *)

Section FloorEllipseProperties.
Variable edge_map : Type.
Variable canny : bmask -> edge_map.



Variable hough_ellipse : edge_map -> Z -> Z -> list ellipse_fit.

(** The scan over the candidate fits is bounded: from index [ii] it makes at
    most [len(result) + ii + 1] iterations, the last of which raises
    [IndexError]. *)
Lemma ecc_scan_bounded (result : list ellipse_fit) (e_threshold : float) (fuel : nat)
    (ii : Z) (cur : ellipse_params) (ecc_current : float) :
  1 <= Z.of_nat (length result) + ii + 1 <= Z.of_nat fuel ->
  exists out, ecc_scan fuel result e_threshold ii cur ecc_current = Some out.
Proof.
  revert ii cur ecc_current. induction fuel as [|fuel IH]; intros ii cur ecc Hb; [lia|].
  simpl. destruct (fgt ecc e_threshold); [|eauto].
  unfold index_from_end.
  destruct (Z.of_nat (length result) + (ii - 1) <? 0) eqn:Hneg; [eauto|].
  apply Z.ltb_ge in Hneg.
  destruct (result !! Z.to_nat (Z.of_nat (length result) + (ii - 1))) as [p|]; [|eauto].
  destruct (read_fit p) as [[cur' ecc']|e]; [|eauto].
  apply IH. lia.
Qed.

(** X30. Once the Hough search has returned a fit at the first threshold,
    [get_floor_ellipse] ends, returning or raising, within [len(result)]
    iterations of the scan over the candidates. *)
Lemma get_floor_ellipse_ends_after_fit (roughFloorMask : bmask) (min_size : Z)
    (e_threshold : float) :
  hough_ellipse (canny roughFloorMask) 250 min_size <> [] ->
  exists out,
    get_floor_ellipse edge_map canny hough_ellipse
      (length (hough_ellipse (canny roughFloorMask) 250 min_size))
      roughFloorMask min_size e_threshold = Some out.
Proof.
  intros Hne. unfold get_floor_ellipse.
  set (fits := hough_ellipse (canny roughFloorMask) 250 min_size) in *.
  assert (Hlen : length (sort_accumulator fits) = length fits).
  { unfold sort_accumulator. clear Hne. induction fits as [|p t IH]; [reflexivity|].
    simpl. rewrite <- IH. generalize (fold_right insert_fit [] t).
    intros l. induction l as [|q l IHl]; simpl; [reflexivity|].
    destruct (accumulator p <? accumulator q); simpl; [reflexivity|].
    rewrite IHl. reflexivity. }
  destruct (sort_accumulator fits) as [|p t] eqn:Hsorted.
  { destruct fits; [congruence | simpl in Hlen; discriminate]. }
  assert (Hretry : forall fuel, hough_retry edge_map hough_ellipse fuel
                     (canny roughFloorMask) min_size 250 (p :: t) = Some (p :: t))
    by (intros [|fuel]; reflexivity).
  rewrite Hretry.
  destruct (index_from_end (p :: t) (-1)) as [best|e]; [|eauto].
  destruct (read_fit best) as [[cur ecc]|e]; [|eauto].
  apply ecc_scan_bounded. cbn [length] in *. lia.
Qed.
End FloorEllipseProperties.

(** X30 at two candidates, the better of which is too eccentric. *)
Lemma get_floor_ellipse_ends_after_fit_witness :
  exists out,
    get_floor_ellipse unit (fun _ => tt)
      (fun _ _ _ => [EllipseFit 7 10 12 5 4 0; EllipseFit 9 10 12 30 4 0]%float)
      (length [EllipseFit 7 10 12 5 4 0; EllipseFit 9 10 12 30 4 0]%float)
      [] 50 0.75%float = Some out.
Proof.
  apply (get_floor_ellipse_ends_after_fit unit (fun _ => tt)
           (fun _ _ _ => [EllipseFit 7 10 12 5 4 0; EllipseFit 9 10 12 30 4 0]%float)
           [] 50 0.75%float).
  discriminate.
Defined.

(** ** [compute_scalars] *)

Lemma np_broadcast2_same_length {A B C : Type} (f : A -> B -> C) (a : list A) (b : list B) :
  length a = length b -> np_broadcast2 f a b = Ok (zip_with f a b).
Proof.
  intros H. unfold np_broadcast2. rewrite H, Nat.eqb_refl. reflexivity.
Qed.

Lemma length_diff_from_first (sub : float -> float -> float) (a : list float) :
  length (diff_from_first sub a) = length a.
Proof.
  unfold diff_from_first, np_diff. destruct a as [|x t]; [reflexivity|].
  change (take 1 (x :: t)) with [x]. cbn [app tail].
  rewrite length_zip_with. cbn [length]. lia.
Qed.



Section ComputeScalarsProperties.
Variable convert_pxs_to_mm : list (float * float) -> float -> list (float * float).
Variable np_arctan2 : float -> float -> float.
Variable float32 : float -> float.

End ComputeScalarsProperties.

Section ScalarVelocity.
Variable convert_pxs_to_mm : list (float * float) -> float -> list (float * float).
Variable np_arctan2 : float -> float -> float.
Variable float32 : float -> float.

End ScalarVelocity.



(** ** [model_smoother] *)

Lemma rmapM_invariant {A B : Type} (R : A -> B -> Prop) (f : A -> outcome B)
    (l : list A) (l' : list B) :
  (forall a b, f a = Ok b -> R a b) ->
  rmapM f l = Ok l' -> Forall2 R l l'.
Proof.
  intros Hf. revert l'. induction l as [|a t IH]; intros l'; simpl.
  - intros H. inversion H. constructor.
  - destruct (f a) as [b|e] eqn:Hfa; simpl; [|discriminate].
    destruct (rmapM f t) as [bs|e]; simpl; [|discriminate].
    intros H. inversion H. constructor; [apply Hf; exact Hfa | apply IH; reflexivity].
Qed.

(** X29. The forward pass of [model_smoother] never writes frame 0 or frame
    1, whatever the features and the confidences: its loop starts at 2. *)
Lemma forward_pass_keeps_first_two (ave_ll : list float) (features features' : channels) :
  forward_pass ave_ll features = Ok features' ->
  Forall2 (fun kv kv' => fst kv' = fst kv /\ chan_take 2 (snd kv') = chan_take 2 (snd kv))
          features features'.
Proof.
  unfold forward_pass.
  assert (Hgen : forall l fs fs',
            Forall (fun i => (2 <= i)%nat) l ->
            rfold (fun fs i => blend_all ave_ll i (i - 1) fs) l fs = Ok fs' ->
            Forall2 (fun kv kv' => fst kv' = fst kv /\
                                   chan_take 2 (snd kv') = chan_take 2 (snd kv))
                    fs fs').
  { induction l as [|i t IH]; intros fs fs' Hl; simpl.
    - intros H. inversion H. apply Forall_Forall2_diag. apply Forall_forall. auto.
    - inversion Hl as [|? ? Hi Ht]; subst.
      destruct (blend_all ave_ll i (i - 1) fs) as [fs1|e] eqn:Hb; simpl; [|discriminate].
      intros Hrest. specialize (IH fs1 fs' Ht Hrest).
      assert (H1 : Forall2 (fun kv kv' => fst kv' = fst kv /\
                                          chan_take 2 (snd kv') = chan_take 2 (snd kv))
                           fs fs1).
      { unfold blend_all in Hb. destruct (ave_ll !! i) as [w|]; [|discriminate].
        eapply rmapM_invariant; [|exact Hb].
        intros [k c] [k' c']. unfold blend_at, blend_rows.
        destruct c as [v|v];
          (destruct (v !! (i - 1)%nat) as [a|]; [|discriminate]);
          (destruct (v !! i) as [b|]; [|discriminate]); simpl;
          intros H; inversion H; subst; (split; [reflexivity|]); simpl;
          f_equal; apply take_insert_ge; exact Hi. }
      clear - H1 IH. revert fs' IH. induction H1 as [|a b la lb (Hk & Hv) _ IH1];
        intros fs' IH; inversion IH as [|? c ? lc (Hk' & Hv') Hrest']; subst;
        constructor; [split; congruence | apply IH1; exact Hrest']. }
  apply Hgen. apply Forall_forall. intros i Hi. apply list_elem_of_In, in_seq in Hi. lia.
Qed.

(** X29 at three frames and a confidence of one half. *)
Lemma forward_pass_keeps_first_two_witness :
  Forall2 (fun kv kv' => fst kv' = fst kv /\
                         chan_take 2 (snd kv') = chan_take 2 (snd kv))
          [("x"%string, Chan1 [0; 10; 20]%float)]
          [("x"%string, Chan1 [0; 10; 15]%float)].
Proof.
  apply (forward_pass_keeps_first_two [0.5; 0.5; 0.5]%float).
  vm_compute. reflexivity.
Defined.

(** C6. With the confidence at one half on three frames, the forward pass
    leaves frame 1 as it was; the claim has it replaced by the blend with
    frame 0. The smoothed channel is [5, 10, 10], where the two passes as the
    claim words them give [3.125, 6.25, 7.5]. *)
Theorem model_smoother_forward_skips_frame_one :
  forward_pass [0.5; 0.5; 0.5]%float [("x"%string, Chan1 [0; 10; 10]%float)]
    = Ok [("x"%string, Chan1 [0; 10; 10]%float)] /\
  forward_pass_specified [0.5; 0.5; 0.5]%float [("x"%string, Chan1 [0; 10; 10]%float)]
    = Ok [("x"%string, Chan1 [0; 5; 7.5]%float)] /\
  model_smoother [("x"%string, Chan1 [0; 10; 10]%float)]
                 (Some [[0.5]; [0.5]; [0.5]]%float) (Some (0, 1)%float)
    = Ok [("x"%string, Chan1 [5; 10; 10]%float)] /\
  model_smoother_specified [("x"%string, Chan1 [0; 10; 10]%float)]
                 (Some [[0.5]; [0.5]; [0.5]]%float) (Some (0, 1)%float)
    = Ok [("x"%string, Chan1 [3.125; 6.25; 7.5]%float)].
Proof. repeat split; vm_compute; reflexivity. Qed.

(** ** The all-zero batch *)



Lemma rmapM_all_ok {A B : Type} (f : A -> outcome B) (g : A -> B) (l : list A) :
  Forall (fun x => f x = Ok (g x)) l -> rmapM f l = Ok (map g l).
Proof.
  induction 1 as [|x t Hx _ IH]; simpl; [reflexivity|].
  rewrite Hx. simpl. rewrite IH. reflexivity.
Qed.


Lemma map_replicate {A B : Type} (f : A -> B) (n : nat) (a : A) :
  map f (replicate n a) = replicate n (f a).
Proof. induction n as [|n IH]; simpl; [reflexivity | rewrite IH; reflexivity]. Qed.







Section AllZeroBatch.
Variable contour : Type.
Variable cv2_findContours : bmask -> list contour.
Variable cv2_contourArea : contour -> float.
Variable cv2_minEnclosingCircle_radius : contour -> float.
Variable cv2_moments : contour -> moments.
Variable np_arctan2 : float -> float -> float.
Variable cv2_connectedComponentsWithStats : image -> cc_result.
Variable rot_matrix : Type.
Variable cv2_getRotationMatrix2D : Z * Z -> float -> rot_matrix.
Variable cv2_warpAffine : image -> rot_matrix -> Z * Z -> image.
Variable convert_pxs_to_mm : list (float * float) -> float -> list (float * float).
Variable float32 : float -> float.

(** OpenCV finds no contour in a mask with no pixel set. *)
Hypothesis findContours_blank : forall m, blank m -> cv2_findContours m = [].




End AllZeroBatch.



(** * Further properties *)

(** ** [threshold_chunk] *)

Lemma threshold_chunk_pixelwise (chunk : batch) (min_height max_height : Z) :
  threshold_chunk chunk min_height max_height
  = map (map (map (fun v => if (min_height <=? v) && (v <=? max_height) then v else 0)))
        chunk.
Proof.
  unfold threshold_chunk, batch, image. rewrite map_map.
  apply map_ext. intros f. rewrite map_map. apply map_ext. intros row.
  rewrite map_map. apply map_ext. intros v.
  destruct (v <? min_height) eqn:Hlo, (min_height <=? v) eqn:Hlo',
           (v <=? max_height) eqn:Hhi; cbn [andb];
    try (apply Z.ltb_lt in Hlo); try (apply Z.ltb_ge in Hlo);
    try (apply Z.leb_le in Hlo'); try (apply Z.leb_gt in Hlo');
    try (apply Z.leb_le in Hhi); try (apply Z.leb_gt in Hhi); try lia.
  all: try (destruct (max_height <? 0); reflexivity).
  - destruct (max_height <? v) eqn:H; [apply Z.ltb_lt in H; lia | reflexivity].
  - destruct (max_height <? v) eqn:H; [reflexivity | apply Z.ltb_ge in H; lia].
Qed.

(** X1. [threshold_chunk] keeps the shape of the chunk; a pixel whose value
    lies between [min_height] and [max_height], bounds included, is returned
    as it is, and every other pixel is returned as zero. *)
Theorem threshold_chunk_band (chunk : batch) (min_height max_height : Z) :
  Forall2 (Forall2 (Forall2 (fun v v' =>
     (min_height <= v <= max_height -> v' = v) /\
     (~ min_height <= v <= max_height -> v' = 0))))
    chunk (threshold_chunk chunk min_height max_height).
Proof.
  rewrite threshold_chunk_pixelwise. unfold batch, image.
  induction chunk as [|f t IH]; cbn [map]; constructor; [|exact IH].
  clear IH. induction f as [|row rest IHf]; cbn [map]; constructor; [|exact IHf].
  clear IHf. induction row as [|v vs IHr]; cbn [map]; constructor; [|exact IHr].
  destruct (min_height <=? v) eqn:Hlo, (v <=? max_height) eqn:Hhi; cbn [andb];
    try (apply Z.leb_le in Hlo); try (apply Z.leb_gt in Hlo);
    try (apply Z.leb_le in Hhi); try (apply Z.leb_gt in Hhi);
    split; intros H; try reflexivity; lia.
Qed.

(** X2. Thresholding a chunk twice with the same bounds is thresholding it
    once. *)
Theorem threshold_chunk_idempotent (chunk : batch) (min_height max_height : Z) :
  threshold_chunk (threshold_chunk chunk min_height max_height) min_height max_height
  = threshold_chunk chunk min_height max_height.
Proof.
  rewrite !threshold_chunk_pixelwise. unfold batch, image.
  rewrite map_map. apply map_ext. intros f. rewrite map_map. apply map_ext. intros row.
  rewrite map_map. apply map_ext. intros v.
  destruct ((min_height <=? v) && (v <=? max_height)) eqn:Hin.
  - rewrite Hin. reflexivity.
  - destruct ((min_height <=? 0) && (0 <=? max_height)); reflexivity.
Qed.

(** ** [get_bbox] *)

Lemma where_from_support {A B : Type} (p : A -> bool) (q : B -> bool)
    (l : list A) (k : list B) (i : nat) :
  Forall2 (fun a b => p a = q b) l k -> where_from p i l = where_from q i k.
Proof.
  intros H. revert i. induction H as [|a b l k Hab _ IH]; intros i; simpl; [reflexivity|].
  rewrite Hab, IH. reflexivity.
Qed.

(** X3. [get_bbox] reads only which pixels are positive: two masks of one
    shape with the same positive pixels, such as a boolean mask and the same
    mask stored as 0 and 255, have the same box. *)
Theorem get_bbox_support (roi roi' : roi_image) :
  Forall2 (Forall2 (fun v w => (0 <? v)%N = (0 <? w)%N)) roi roi' ->
  get_bbox roi = get_bbox roi'.
Proof.
  intros H. unfold get_bbox.
  assert (Heq : np_where2 roi = np_where2 roi').
  { unfold np_where2. generalize 0%nat.
    induction H as [|row row' rest rest' Hrow _ IH]; intros r; simpl; [reflexivity|].
    rewrite IH. unfold np_where. rewrite (where_from_support _ (fun w => (0 <? w)%N) row row')
      by exact Hrow. reflexivity. }
  rewrite Heq. reflexivity.
Qed.

Lemma get_bbox_support_witness :
  get_bbox [[0; 1; 0]; [0; 1; 1]]%N = get_bbox [[0; 255; 0]; [0; 255; 255]]%N.
Proof.
  apply get_bbox_support. repeat constructor.
Defined.

(** ** [apply_roi] *)

Lemma slice_lookup {A : Type} (lo hi i : nat) (l : list A) :
  (i < hi - lo)%nat -> slice lo hi l !! i = l !! (lo + i)%nat.
Proof.
  intros H. unfold slice. rewrite lookup_take_lt by exact H. apply lookup_drop.
Qed.

Lemma slice_length {A : Type} (lo hi : nat) (l : list A) :
  (hi <= length l)%nat -> length (slice lo hi l) = (hi - lo)%nat.
Proof.
  intros H. unfold slice. rewrite length_take, length_drop. lia.
Qed.

Lemma rmapM_id_ok {A : Type} (l : list A) :
  rmapM (fun x : outcome A => x) (map Ok l) = Ok l.
Proof.
  induction l as [|a t IH]; simpl; [reflexivity|]. rewrite IH. reflexivity.
Qed.

Lemma zip_with_ok {A B C : Type} (g : A -> B -> outcome C) (h : A -> B -> C)
    (l : list A) (k : list B) :
  Forall2 (fun a b => g a b = Ok (h a b)) l k ->
  zip_with g l k = map Ok (zip_with h l k).
Proof.
  induction 1 as [|a b l k Hab _ IH]; simpl; [reflexivity|]. rewrite Hab, IH. reflexivity.
Qed.

Lemma has_shape_Forall2 {A B : Type} (h w : nat) (a : list (list A)) (b : list (list B)) :
  has_shape h w a -> has_shape h w b ->
  Forall2 (fun x y => length x = length y) a b.
Proof.
  intros (Ha & Hra) (Hb & Hrb). apply Forall2_same_length_lookup_2; [congruence|].
  intros i x y Hx Hy.
  rewrite Forall_forall in Hra. rewrite Forall_forall in Hrb.
  rewrite (Hra x (list_elem_of_lookup_2 _ _ _ Hx)), (Hrb y (list_elem_of_lookup_2 _ _ _ Hy)).
  reflexivity.
Qed.

(** The product of a frame and a mask of its shape is taken pixel by pixel. *)
Lemma mul_roi_same_shape (h w : nat) (f : image) (roi : roi_image) :
  has_shape h w f -> has_shape h w roi ->
  mul_roi f roi = Ok (zip_with (zip_with (fun v m => v * Z.of_N m)) f roi).
Proof.
  intros Hf Hr. unfold mul_roi.
  rewrite np_broadcast2_same_length by (destruct Hf, Hr; unfold image in *; congruence).
  cbn [rbind].
  rewrite (zip_with_ok _ (zip_with (fun v m => v * Z.of_N m))).
  - apply rmapM_id_ok.
  - eapply Forall2_impl; [exact (has_shape_Forall2 h w f roi Hf Hr)|].
    intros x y Hxy. apply np_broadcast2_same_length. exact Hxy.
Qed.

Lemma apply_roi_products (h w : nat) (frames : batch) (roi : roi_image) :
  Forall (has_shape h w) frames -> has_shape h w roi ->
  rmapM (fun f => mul_roi f roi) frames
  = Ok (map (fun f => zip_with (zip_with (fun v m => v * Z.of_N m)) f roi) frames).
Proof.
  intros Hf Hr. apply rmapM_all_ok. eapply Forall_impl; [exact Hf|].
  intros f Hs. apply (mul_roi_same_shape h w); assumption.
Qed.

Lemma get_bbox_None (roi : roi_image) :
  (forall r c, ~ nonzero roi r c) -> get_bbox roi = None.
Proof.
  intros Hnone. pose proof (get_bbox_exact roi) as H.
  destruct (get_bbox roi) as [b|]; [|reflexivity].
  destruct H as (_ & (c & Hc) & _). exfalso. exact (Hnone _ _ Hc).
Qed.

(** X4. When the ROI has no positive pixel, [get_bbox] gives [None] and both
    [apply_roi] and [apply_roi_to_mask] end in [TypeError], on subscripting
    it (the frames being of the ROI's shape). *)
Theorem apply_roi_empty_roi_raises (h w : nat) (frames : batch) (roi : roi_image)
    (mask : bmask) :
  Forall (has_shape h w) frames -> has_shape h w roi ->
  (forall r c, ~ nonzero roi r c) ->
  apply_roi frames roi = Raise TypeError /\
  apply_roi_to_mask mask roi = Raise TypeError.
Proof.
  intros Hf Hr Hnone. unfold apply_roi, apply_roi_to_mask.
  rewrite (apply_roi_products h w) by assumption. cbn [rbind].
  rewrite (get_bbox_None roi Hnone). split; reflexivity.
Qed.

Lemma apply_roi_empty_roi_raises_witness :
  apply_roi [[[5; 6]; [7; 8]]] [[0; 0]; [0; 0]]%N = Raise TypeError /\
  apply_roi_to_mask [[true; false]; [false; true]] [[0; 0]; [0; 0]]%N = Raise TypeError.
Proof.
  apply (apply_roi_empty_roi_raises 2 2).
  - repeat constructor.
  - repeat constructor.
  - intros r c (v & Hv & Hnz).
    destruct r as [|[|r]]; destruct c as [|[|c]]; cbn in Hv; inversion Hv; subst;
      apply Hnz; reflexivity.
Defined.

(** The box of a mask lies inside the mask. *)
Lemma get_bbox_inside (h w : nat) (roi : roi_image) (b : bbox) :
  has_shape h w roi -> get_bbox roi = Some b ->
  (ymin b <= ymax b < h)%nat /\ (xmin b <= xmax b < w)%nat.
Proof.
  intros (Hh & Hw) Hb. pose proof (get_bbox_exact roi) as H. rewrite Hb in H.
  destruct H as (Hin & _ & (c & Hc) & _ & (r & Hr)).
  destruct (Hin _ _ Hc) as (Hy & _). destruct (Hin _ _ Hr) as (_ & Hx).
  destruct Hc as (v & Hv & _). destruct Hr as (v' & Hv' & _).
  unfold pixel in Hv, Hv'.
  destruct (roi !! ymax b) as [row|] eqn:Hrow; cbn in Hv; [|discriminate].
  destruct (roi !! r) as [row'|] eqn:Hrow'; cbn in Hv'; [|discriminate].
  apply lookup_lt_Some in Hrow. apply lookup_lt_Some in Hv'.
  rewrite Forall_forall in Hw.
  rewrite (Hw row' (list_elem_of_lookup_2 _ _ _ Hrow')) in Hv'. lia.
Qed.

Lemma crop_lookup {A : Type} (y0 y1 x0 x1 r c : nat) (a : list (list A)) :
  (r < y1 - y0)%nat -> (c < x1 - x0)%nat ->
  pixel (map (slice x0 x1) (slice y0 y1 a)) r c = pixel a (y0 + r) (x0 + c).
Proof.
  intros Hr Hc. unfold pixel.
  change (map (slice x0 x1) (slice y0 y1 a)) with (slice x0 x1 <$> slice y0 y1 a).
  rewrite list_lookup_fmap, slice_lookup by exact Hr.
  destruct (a !! (y0 + r)%nat) as [row|]; cbn; [|reflexivity].
  apply slice_lookup. exact Hc.
Qed.

Lemma crop_shape {A : Type} (h w : nat) (b : bbox) (a : list (list A)) :
  has_shape h w a -> (ymax b < h)%nat -> (xmax b < w)%nat ->
  has_shape (ymax b - ymin b) (xmax b - xmin b)
            (map (slice (xmin b) (xmax b)) (slice (ymin b) (ymax b) a)).
Proof.
  intros (Hh & Hw) Hy Hx. split.
  - rewrite length_map, slice_length by lia. reflexivity.
  - apply Forall_forall. intros row Hrow. apply list_elem_of_In, in_map_iff in Hrow
      as (row0 & <- & Hin).
    apply slice_length. unfold slice in Hin.
    apply list_elem_of_In in Hin. apply elem_of_take in Hin as (i & Hi & _).
    rewrite lookup_drop in Hi. rewrite Forall_forall in Hw.
    rewrite (Hw row0 (list_elem_of_lookup_2 _ _ _ Hi)). lia.
Qed.



(** X6. [apply_roi_to_mask] cuts a mask of the ROI's shape to the window
    [apply_roi] cuts the frames to: [ymax - ymin] rows of [xmax - xmin]
    entries, entry [(r, c)] being the mask's entry [(ymin + r, xmin + c)]. *)
Theorem apply_roi_to_mask_crop {A : Type} (h w : nat) (mask : list (list A))
    (roi : roi_image) (b : bbox) :
  has_shape h w mask -> has_shape h w roi -> get_bbox roi = Some b ->
  exists o,
    apply_roi_to_mask mask roi = Ok o /\
    has_shape (ymax b - ymin b) (xmax b - xmin b) o /\
    forall r c, (r < ymax b - ymin b)%nat -> (c < xmax b - xmin b)%nat ->
      pixel o r c = pixel mask (ymin b + r) (xmin b + c).
Proof.
  intros Hm Hr Hb. destruct (get_bbox_inside h w roi b Hr Hb) as (Hy & Hx).
  unfold apply_roi_to_mask. rewrite Hb. eexists. split; [reflexivity|].
  split; [apply (crop_shape h w); [exact Hm | lia | lia]|].
  intros r c Hr' Hc'. apply crop_lookup; assumption.
Qed.

Lemma apply_roi_to_mask_crop_witness :
  exists o,
    apply_roi_to_mask [[true; false; true]; [false; true; false]; [true; true; true]]
      [[0; 0; 0]; [0; 1; 1]; [0; 1; 1]]%N = Ok o /\
    has_shape (2 - 1) (2 - 1) o /\
    forall r c, (r < 2 - 1)%nat -> (c < 2 - 1)%nat ->
      pixel o r c =
        pixel [[true; false; true]; [false; true; false]; [true; true; true]]
              (1 + r) (1 + c).
Proof.
  apply (apply_roi_to_mask_crop 3 3
           [[true; false; true]; [false; true; false]; [true; true; true]]
           [[0; 0; 0]; [0; 1; 1]; [0; 1; 1]]%N (BBox 1 1 2 2)).
  - repeat constructor.
  - repeat constructor.
  - reflexivity.
Defined.

(** ** [clean_frames] *)

Lemma forallb_pos_off (ks : list Z) :
  ks = [] \/ Exists (fun k => k <= 0) ks ->
  forall (X : Type) (f : X -> Z -> X) (x : X),
    (if forallb (fun k => 0 <? k) ks then fold_left f ks x else x) = x.
Proof.
  intros [-> | Hex] X f x; [reflexivity|].
  destruct (forallb (fun k => 0 <? k) ks) eqn:Hall; [|reflexivity].
  exfalso. rewrite forallb_forall in Hall. apply Exists_exists in Hex as (k & Hin & Hk).
  apply list_elem_of_In in Hin. specialize (Hall k Hin). apply Z.ltb_lt in Hall. lia.
Qed.

Section CleanFramesOff.
Variable strel : Type.
Variable cv2_erode : image -> strel -> Z -> image.
Variable cv2_medianBlur : image -> Z -> image.
Variable cv2_morphologyEx_open : image -> strel -> Z -> image.
Variable scipy_medfilt : batch -> Z -> batch.

(** X7. Each filter of [clean_frames] is off when its parameter is [None],
    when its iteration count is not positive and, for the two median
    filters, when the tuple of kernel sizes is empty or holds a size that is
    not positive (the other sizes of the tuple are then skipped with it).
    With the four filters off the result is the batch cast to
    [frame_dtype]. *)
Theorem clean_frames_off_is_cast frames prefilter_space prefilter_time strel_tail
    iters_tail frame_dtype strel_min iters_min :
  (forall n, iters_min = Some n -> n <= 0) ->
  (forall n, iters_tail = Some n -> n <= 0) ->
  (forall ks, prefilter_space = Some ks -> ks = [] \/ Exists (fun k => k <= 0) ks) ->
  (forall ks, prefilter_time = Some ks -> ks = [] \/ Exists (fun k => k <= 0) ks) ->
  clean_frames strel cv2_erode cv2_medianBlur cv2_morphologyEx_open scipy_medfilt
    frames prefilter_space prefilter_time strel_tail iters_tail frame_dtype
    strel_min iters_min
  = batch_astype frame_dtype frames.
Proof.
  intros Hmin Htail Hspace Htime. unfold clean_frames.
  assert (Hone : forall f,
            clean_one strel cv2_erode cv2_medianBlur cv2_morphologyEx_open
              prefilter_space strel_tail iters_tail strel_min iters_min f = f).
  { intros f. unfold clean_one.
    assert (H1 : match iters_min with
                 | Some n => if 0 <? n then cv2_erode f strel_min n else f
                 | None => f
                 end = f).
    { destruct iters_min as [n|]; [|reflexivity].
      destruct (0 <? n) eqn:Hn; [|reflexivity].
      apply Z.ltb_lt in Hn. specialize (Hmin n eq_refl). lia. }
    rewrite H1.
    assert (H2 : match prefilter_space with
                 | Some ks =>
                     if forallb (fun k => 0 <? k) ks
                     then fold_left cv2_medianBlur ks f else f
                 | None => f
                 end = f).
    { destruct prefilter_space as [ks|]; [|reflexivity].
      apply forallb_pos_off. apply Hspace. reflexivity. }
    rewrite H2.
    destruct iters_tail as [n|]; [|reflexivity].
    destruct (0 <? n) eqn:Hn; [|reflexivity].
    apply Z.ltb_lt in Hn. specialize (Htail n eq_refl). lia. }
  rewrite (map_id_on _ (batch_astype frame_dtype frames))
    by (apply Forall_forall; intros f _; apply Hone).
  destruct prefilter_time as [ks|]; [|reflexivity].
  apply forallb_pos_off. apply Htime. reflexivity.
Qed.
End CleanFramesOff.

Lemma clean_frames_off_is_cast_witness :
  clean_frames unit (fun f _ _ => []) (fun f _ => []) (fun f _ _ => []) (fun b _ => [])
    [[[300; 12]]] (Some [3; 0]) (Some []) tt (Some 0) uint8 tt (Some (-1))
  = batch_astype uint8 [[[300; 12]]].
Proof.
  apply clean_frames_off_is_cast.
  - intros n H. inversion H. lia.
  - intros n H. inversion H. lia.
  - intros ks H. inversion H. right. apply Exists_cons_tl. apply Exists_cons_hd. lia.
  - intros ks H. inversion H. left. reflexivity.
Defined.

(** ** [get_frame_features] *)

Lemma rmapM_length {A B : Type} (f : A -> outcome B) (l : list A) (l' : list B) :
  rmapM f l = Ok l' -> length l' = length l.
Proof.
  intros H. apply (rmapM_invariant (fun _ _ => True)) in H; [|auto].
  symmetry. eapply Forall2_length. exact H.
Qed.

Lemma rmapM_imap {A B C : Type} (g : C -> outcome B) (g' : A -> outcome B)
    (q : nat -> A -> C) (l : list A) :
  (forall i a, g (q i a) = g' a) -> rmapM g (imap q l) = rmapM g' l.
Proof.
  revert q. induction l as [|a t IH]; intros q Hq; [reflexivity|].
  cbn [imap rmapM]. rewrite Hq. rewrite (IH (q ∘ S)); [reflexivity|].
  intros i b. apply Hq.
Qed.

(** The index [argmax] finds is an index of the array. *)
Lemma argmax_loop_bound {A : Type} (le : A -> A -> bool) (stop : A -> bool)
    (l : list A) (mp : A) (mi i : nat) :
  (mi < i)%nat -> (argmax_loop le stop mp mi i l < i + length l)%nat.
Proof.
  revert mp mi i. induction l as [|a t IH]; intros mp mi i Hlt; simpl; [lia|].
  destruct (stop mp); [lia|].
  destruct (negb (le a mp)).
  - specialize (IH a i (S i) ltac:(lia)). lia.
  - specialize (IH mp mi (S i) ltac:(lia)). lia.
Qed.

Lemma np_argmax_bound {A : Type} (le : A -> A -> bool) (stop : A -> bool) (l : list A) :
  l <> [] -> exists k, np_argmax le stop l = Ok k /\ (k < length l)%nat.
Proof.
  destruct l as [|a t]; [congruence|]. intros _. eexists. split; [reflexivity|].
  pose proof (argmax_loop_bound le stop t a 0 1 ltac:(lia)). simpl. lia.
Qed.

Section FrameFeaturesProperties.
Variable contour : Type.
Variable cv2_findContours : bmask -> list contour.
Variable cv2_contourArea : contour -> float.
Variable cv2_minEnclosingCircle_radius : contour -> float.
Variable cv2_moments : contour -> moments.
Variable np_arctan2 : float -> float -> float.
Variable cv2_connectedComponentsWithStats : image -> cc_result.

(** X8. When [get_frame_features] returns, the three feature arrays have one
    row per frame. A mask that was passed in with entries comes back as it
    was, and it has at least as many frames as the batch; an empty mask is
    replaced by one with a frame per frame of the batch. *)
Theorem get_frame_features_one_row_per_frame (frames : batch)
    (frame_threshold : float) (mask : batch) (mask_threshold : float) (use_cc : bool)
    (roi : roi_image) (remove_obj_from_bg : option obj_removal_info)
    (features : track_features) (mask' : batch) :
  get_frame_features contour cv2_findContours cv2_contourArea
    cv2_minEnclosingCircle_radius cv2_moments np_arctan2
    cv2_connectedComponentsWithStats
    frames frame_threshold mask mask_threshold use_cc roi remove_obj_from_bg
  = Ok (features, mask') ->
  length (centroid features) = length frames /\
  length (orientation features) = length frames /\
  length (axis_length features) = length frames /\
  (concat (concat mask) <> [] -> mask' = mask /\ (length frames <= length mask)%nat) /\
  (concat (concat mask) = [] -> length mask' = length frames).
Proof.
  unfold get_frame_features.
  match goal with
  | |- context [rmapM ?g ?l] => destruct (rmapM g l) as [per_frame|e] eqn:Hper
  end; cbn [rbind]; [|discriminate].
  intros H. inversion H; subst; clear H. cbn [centroid orientation axis_length].
  pose proof (rmapM_length _ _ _ Hper) as Hlen. rewrite length_imap in Hlen.
  rewrite !length_map. repeat (split; [exact Hlen|]). split.
  - intros Hne.
    assert (Hpos : (0 <? length (concat (concat mask)))%nat = true).
    { apply Nat.ltb_lt. destruct (concat (concat mask)); [congruence | simpl; lia]. }
    rewrite Hpos in *. split; [reflexivity|].
    destruct (Nat.le_gt_cases (length frames) (length mask)) as [Hle | Hgt]; [exact Hle|].
    exfalso.
    apply (rmapM_invariant (fun '(i, _) _ => is_Some (mask !! i))) in Hper.
    + destruct (lookup_lt_is_Some_2 frames (length mask) Hgt) as (f & Hf).
      assert (Hi : imap pair frames !! length mask = Some (length mask, f)).
      { rewrite list_lookup_imap, Hf. reflexivity. }
      destruct (Forall2_lookup_l _ _ _ _ _ Hper Hi) as (o & _ & Ho).
      destruct Ho as (m & Hm). apply lookup_lt_Some in Hm. lia.
    + intros [i f] [m o] Hff. destruct (mask !! i) as [mi|] eqn:Hmi; [eauto|].
      exfalso. revert Hff. unfold frame_features. rewrite Hmi.
      destruct remove_obj_from_bg as [[[fm bm] mbh]|]; cbn [rbind].
      * destruct (apply_roi_to_mask fm roi); cbn [rbind]; [|discriminate].
        destruct (apply_roi_to_mask bm roi); cbn [rbind]; [|discriminate].
        destruct use_cc; cbn [rbind]; [|discriminate].
        destruct (largest_cc_of_mask _ _); cbn [rbind]; discriminate.
      * destruct use_cc; cbn [rbind]; [|discriminate].
        destruct (largest_cc_of_mask _ _); cbn [rbind]; discriminate.
  - intros Hnil. rewrite Hnil. cbn [length Nat.ltb Nat.leb]. rewrite length_map. exact Hlen.
Qed.
End FrameFeaturesProperties.

(** X8 at two frames without contour and a mask of three frames. *)
Lemma get_frame_features_one_row_per_frame_witness :
  length [(nan, nan); (nan, nan)] = length [[[0; 0]]; [[5; 0]]] /\
  length [nan; nan] = length [[[0; 0]]; [[5; 0]]] /\
  length [(nan, nan); (nan, nan)] = length [[[0; 0]]; [[5; 0]]] /\
  (concat (concat [[[1; 1]]; [[1; 1]]; [[1; 1]]]) <> [] ->
   [[[1; 1]]; [[1; 1]]; [[1; 1]]] = [[[1; 1]]; [[1; 1]]; [[1; 1]]] /\
   (length [[[0; 0]]; [[5; 0]]] <= length [[[1; 1]]; [[1; 1]]; [[1; 1]]])%nat) /\
  (concat (concat [[[1; 1]]; [[1; 1]]; [[1; 1]]]) = [] ->
   length [[[1; 1]]; [[1; 1]]; [[1; 1]]] = length [[[0; 0]]; [[5; 0]]]).
Proof.
  apply (get_frame_features_one_row_per_frame unit (fun _ => []) (fun _ => 0%float)
           (fun _ => 0%float) (fun _ => Moments 0 0 0 0 0 0) (fun _ _ => 0%float)
           (fun _ => CCResult 1 [] [[0]])
           [[[0; 0]]; [[5; 0]]] 10%float [[[1; 1]]; [[1; 1]]; [[1; 1]]] (-30)%float
           false [] None
           (TrackFeatures [(nan, nan); (nan, nan)] [nan; nan] [(nan, nan); (nan, nan)])
           [[[1; 1]]; [[1; 1]]; [[1; 1]]]).
  reflexivity.
Defined.

Section FrameFeaturesDefault.
Variable contour : Type.
Variable cv2_findContours : bmask -> list contour.
Variable cv2_contourArea : contour -> float.
Variable cv2_minEnclosingCircle_radius : contour -> float.
Variable cv2_moments : contour -> moments.
Variable np_arctan2 : float -> float -> float.
Variable cv2_connectedComponentsWithStats : image -> cc_result.

(** One frame on the default path: no mask, no connected components, no
    object removal. *)
Lemma frame_features_default (frame_threshold mask_threshold : float) (roi : roi_image)
    (i : nat) (frame : image) :
  let cnts := cv2_findContours (gt_image frame frame_threshold) in
  exists o,
    frame_features contour cv2_findContours cv2_contourArea
      cv2_minEnclosingCircle_radius cv2_moments np_arctan2
      cv2_connectedComponentsWithStats
      frame_threshold [] false mask_threshold false roi None i frame
    = Ok (gt_image frame frame_threshold, o) /\
    match cnts with
    | [] => o = None
    | _ :: _ =>
        exists k c, np_argmax_float (map cv2_contourArea cnts) = Ok k /\
                    cnts !! k = Some c /\
                    o = Some (im_moment_features contour cv2_moments np_arctan2 c)
    end.
Proof.
  intros cnts. unfold frame_features. cbn [rbind]. fold cnts.
  destruct cnts as [|c0 rest] eqn:Hcnts.
  - eexists. split; reflexivity.
  - destruct (np_argmax_bound PrimFloat.leb is_nan (map cv2_contourArea (c0 :: rest)))
      as (k & Hk & Hlt); [discriminate|].
    rewrite length_map in Hlt.
    destruct (lookup_lt_is_Some_2 _ _ Hlt) as (c & Hc).
    change (length (map cv2_contourArea (c0 :: rest)) =? 0)%nat with false.
    cbv iota. unfold choose_contour.
    change (bool_decide (is_Some (@None obj_removal_info))) with false. cbv iota.
    fold np_argmax_float in Hk. rewrite Hk. cbn [rbind]. rewrite Hc.
    eexists. split; [reflexivity|]. exists k, c. auto.
Qed.

(** X9. On the default path (no mask, no connected components, no object
    removal) [get_frame_features] never raises, and the mask it returns is
    the thresholded batch. A frame in which OpenCV finds no contour keeps its
    NaN row; any other frame gets the moment features of its contour of
    largest area, the first such contour on a tie. *)
Theorem get_frame_features_default_returns (frames : batch)
    (frame_threshold mask_threshold : float) (roi : roi_image) :
  exists features,
    get_frame_features contour cv2_findContours cv2_contourArea
      cv2_minEnclosingCircle_radius cv2_moments np_arctan2
      cv2_connectedComponentsWithStats
      frames frame_threshold [] mask_threshold false roi None
    = Ok (features, map (fun f => bmask_uint8 (gt_image f frame_threshold)) frames) /\
    forall i f, frames !! i = Some f ->
      match cv2_findContours (gt_image f frame_threshold) with
      | [] =>
          centroid features !! i = Some (nan, nan) /\
          orientation features !! i = Some nan /\
          axis_length features !! i = Some (nan, nan)
      | c0 :: rest =>
          exists k c,
            np_argmax_float (map cv2_contourArea (c0 :: rest)) = Ok k /\
            (c0 :: rest) !! k = Some c /\
            let m := im_moment_features contour cv2_moments np_arctan2 c in
            centroid features !! i = Some (mf_centroid m) /\
            orientation features !! i = Some (mf_orientation m) /\
            axis_length features !! i = Some (mf_axis_length m)
      end.
Proof.
  set (row := fun f : image =>
         match cv2_findContours (gt_image f frame_threshold) with
         | [] => None
         | c0 :: rest =>
             match np_argmax_float (map cv2_contourArea (c0 :: rest)) with
             | Ok k =>
                 match (c0 :: rest) !! k with
                 | Some c => Some (im_moment_features contour cv2_moments np_arctan2 c)
                 | None => None
                 end
             | Raise _ => None
             end
         end).
  assert (Hrow : forall i f,
            frame_features contour cv2_findContours cv2_contourArea
              cv2_minEnclosingCircle_radius cv2_moments np_arctan2
              cv2_connectedComponentsWithStats
              frame_threshold [] false mask_threshold false roi None i f
            = Ok (gt_image f frame_threshold, row f)).
  { intros i f.
    destruct (frame_features_default frame_threshold mask_threshold roi i f)
      as (o & Ho & Hcase).
    rewrite Ho. f_equal. f_equal. unfold row.
    destruct (cv2_findContours (gt_image f frame_threshold)) as [|c0 rest];
      [exact Hcase|].
    destruct Hcase as (k & c & Hk & Hc & ->). rewrite Hk, Hc. reflexivity. }
  unfold get_frame_features.
  change (0 <? length (concat (concat (@nil image))))%nat with false. cbv iota.
  rewrite (rmapM_imap _ (fun f => Ok (gt_image f frame_threshold, row f)))
    by (intros i f; apply Hrow).
  rewrite (rmapM_all_ok _ (fun f => (gt_image f frame_threshold, row f)))
    by (apply Forall_forall; reflexivity).
  cbn [rbind]. rewrite !map_map. eexists. split; [reflexivity|].
  intros i f Hf. cbn [centroid orientation axis_length].
  unfold batch, image in *.
  change (map ?g (map ?h frames)) with (g <$> (h <$> frames)).
  rewrite !list_lookup_fmap, Hf. cbn [fmap option_fmap option_map].
  unfold row. destruct (cv2_findContours (gt_image f frame_threshold)) as [|c0 rest].
  - auto.
  - destruct (np_argmax_bound PrimFloat.leb is_nan (map cv2_contourArea (c0 :: rest)))
      as (k & Hk & Hlt); [discriminate|].
    rewrite length_map in Hlt.
    destruct (lookup_lt_is_Some_2 _ _ Hlt) as (c & Hc).
    fold np_argmax_float in Hk. rewrite Hk, Hc. exists k, c. auto.
Qed.

(** One frame with the connected components on: it returns or ends in
    [ValueError]. *)
Lemma frame_features_use_cc_cases (frame_threshold mask_threshold : float) (roi : roi_image)
    (i : nat) (frame : image) :
  cc_contract (bmask_uint8 (gt_image frame mask_threshold))
    (cv2_connectedComponentsWithStats (bmask_uint8 (gt_image frame mask_threshold)))
    = true ->
  (exists r,
     frame_features contour cv2_findContours cv2_contourArea
       cv2_minEnclosingCircle_radius cv2_moments np_arctan2
       cv2_connectedComponentsWithStats
       frame_threshold [] false mask_threshold true roi None i frame = Ok r) \/
  frame_features contour cv2_findContours cv2_contourArea
    cv2_minEnclosingCircle_radius cv2_moments np_arctan2
    cv2_connectedComponentsWithStats
    frame_threshold [] false mask_threshold true roi None i frame = Raise ValueError.
Proof.
  intros Hc. unfold frame_features, largest_cc_of_mask, get_largest_cc.
  cbn [rbind rmapM].
  destruct (largest_cc_frame_cases cv2_connectedComponentsWithStats _ Hc)
    as [(_ & Hraise) | (_ & m & Hm & _)].
  - right. rewrite Hraise. reflexivity.
  - left. rewrite Hm. cbn [rbind].
    match goal with
    | |- context [cv2_findContours ?fm] => destruct (cv2_findContours fm) as [|c0 rest]
    end.
    + eexists. reflexivity.
    + destruct (np_argmax_bound PrimFloat.leb is_nan (map cv2_contourArea (c0 :: rest)))
        as (k & Hk & Hlt); [discriminate|].
      rewrite length_map in Hlt.
      destruct (lookup_lt_is_Some_2 _ _ Hlt) as (c & Hcl).
      change (length (map cv2_contourArea (c0 :: rest)) =? 0)%nat with false.
      cbv iota. unfold choose_contour.
      change (bool_decide (is_Some (@None obj_removal_info))) with false. cbv iota.
      fold np_argmax_float in Hk. rewrite Hk. cbn [rbind]. rewrite Hcl.
      eexists. reflexivity.
Qed.

(** X10. With [use_cc] on, no mask and no object removal, a batch one of
    whose frames has no pixel above [mask_threshold] ends in [ValueError],
    under OpenCV's contract for the labelling: the features of the other
    frames are lost with it. *)
Theorem get_frame_features_use_cc_blank_frame_raises (frames : batch)
    (frame_threshold mask_threshold : float) (roi : roi_image) :
  (forall f, In f frames ->
     cc_contract (bmask_uint8 (gt_image f mask_threshold))
       (cv2_connectedComponentsWithStats (bmask_uint8 (gt_image f mask_threshold)))
       = true) ->
  Exists (fun f => blank (gt_image f mask_threshold)) frames ->
  get_frame_features contour cv2_findContours cv2_contourArea
    cv2_minEnclosingCircle_radius cv2_moments np_arctan2
    cv2_connectedComponentsWithStats
    frames frame_threshold [] mask_threshold true roi None
  = Raise ValueError.
Proof.
  intros Hc Hex. unfold get_frame_features.
  change (0 <? length (concat (concat (@nil image))))%nat with false.
  rewrite (rmapM_imap _
             (frame_features contour cv2_findContours cv2_contourArea
                cv2_minEnclosingCircle_radius cv2_moments np_arctan2
                cv2_connectedComponentsWithStats
                frame_threshold [] false mask_threshold true roi None 0%nat)).
  2:{ intros i f. unfold frame_features. reflexivity. }
  assert (Hraise : rmapM
            (frame_features contour cv2_findContours cv2_contourArea
               cv2_minEnclosingCircle_radius cv2_moments np_arctan2
               cv2_connectedComponentsWithStats
               frame_threshold [] false mask_threshold true roi None 0%nat) frames
          = Raise ValueError).
  { induction Hex as [f t Hblank | f t Hex IH].
    - cbn [rmapM].
      rewrite (frame_features_use_cc_raises contour cv2_findContours cv2_contourArea
                 cv2_minEnclosingCircle_radius cv2_moments np_arctan2
                 cv2_connectedComponentsWithStats frame_threshold mask_threshold
                 [] false roi 0%nat f (Hc f (or_introl eq_refl)) Hblank).
      reflexivity.
    - cbn [rmapM].
      destruct (frame_features_use_cc_cases frame_threshold mask_threshold roi 0%nat f
                  (Hc f (or_introl eq_refl))) as [(r & Hr) | Hr]; rewrite Hr; cbn [rbind].
      + rewrite IH; [reflexivity|]. intros g Hg. apply Hc. right. exact Hg.
      + reflexivity. }
  rewrite Hraise. reflexivity.
Qed.
End FrameFeaturesDefault.

Lemma get_frame_features_use_cc_blank_frame_raises_witness :
  get_frame_features unit (fun _ => [tt]) (fun _ => 1%float) (fun _ => 1%float)
    (fun _ => Moments 1 1 1 1 1 1) (fun _ _ => 0%float)
    (fun f => match f with
              | [[1; 0]] => CCResult 2 [[1; 0]]%nat [[0; 0; 1; 1; 1]; [0; 0; 1; 1; 1]]
              | _ => CCResult 1 [[0; 0]]%nat [[0; 0; 2; 1; 2]]
              end)
    [[[50; 0]]; [[0; 0]]] 10%float [] 20%float true [] None
  = Raise ValueError.
Proof.
  apply get_frame_features_use_cc_blank_frame_raises.
  - intros f [<- | [<- | []]]; vm_compute; reflexivity.
  - apply Exists_cons_tl. apply Exists_cons_hd. repeat constructor.
Defined.

(** ** [crop_and_rotate_frames] *)

Section CropAndRotateProperties.
Variable rot_matrix : Type.
Variable cv2_getRotationMatrix2D : Z * Z -> float -> rot_matrix.
Variable cv2_warpAffine : image -> rot_matrix -> Z * Z -> image.

(** X11. When [crop_and_rotate_frames] returns, there is one patch per frame
    and the features hold at least as many centroids as there are frames;
    the patch of a frame whose centroid has a NaN coordinate is all zeros. *)
Theorem crop_and_rotate_frames_patches (frames : batch) (features : track_features)
    (crop_size : Z * Z) (out : batch) :
  crop_and_rotate_frames rot_matrix cv2_getRotationMatrix2D cv2_warpAffine
    frames features crop_size = Ok out ->
  length out = length frames /\
  (length frames <= length (centroid features))%nat /\
  forall i c, (i < length frames)%nat -> centroid features !! i = Some c ->
    is_nan (fst c) || is_nan (snd c) = true ->
    out !! i = Some (zero_patch crop_size).
Proof.
  unfold crop_and_rotate_frames. intros H.
  pose proof (rmapM_length _ _ _ H) as Hlen. rewrite length_imap in Hlen.
  apply (rmapM_invariant
           (fun '(i, _) o =>
              exists c, centroid features !! i = Some c /\
                (is_nan (fst c) || is_nan (snd c) = true -> o = zero_patch crop_size)))
    in H.
  - split; [exact Hlen|]. split.
    + destruct (Nat.le_gt_cases (length frames) (length (centroid features)))
        as [Hle | Hgt]; [exact Hle|]. exfalso.
      destruct (lookup_lt_is_Some_2 frames (length (centroid features)) Hgt) as (f & Hf).
      assert (Hi : imap pair frames !! length (centroid features)
                   = Some (length (centroid features), f)).
      { rewrite list_lookup_imap. unfold batch, image in *. rewrite Hf. reflexivity. }
      destruct (Forall2_lookup_l _ _ _ _ _ H Hi) as (o & _ & c & Hc & _).
      apply lookup_lt_Some in Hc. lia.
    + intros i c Hi Hc Hnan.
      destruct (lookup_lt_is_Some_2 frames i Hi) as (f & Hf).
      assert (Hif : imap pair frames !! i = Some (i, f)).
      { rewrite list_lookup_imap. unfold batch, image in *. rewrite Hf. reflexivity. }
      destruct (Forall2_lookup_l _ _ _ _ _ H Hif) as (o & Ho & c' & Hc' & Hz).
      rewrite Hc in Hc'. inversion Hc'; subst c'. rewrite <- (Hz Hnan). exact Ho.
  - intros [i f] o. destruct (centroid features !! i) as [c|]; [|discriminate].
    intros Hcrop. exists c. split; [reflexivity|]. intros Hnan.
    unfold crop_frame in Hcrop. rewrite Hnan in Hcrop. inversion Hcrop. reflexivity.
Qed.
End CropAndRotateProperties.

Lemma crop_and_rotate_frames_patches_witness :
  length [[[0; 0]; [0; 0]]; [[0; 0]; [0; 0]]] = length [[[1; 2]; [3; 4]]; [[5; 6]; [7; 8]]] /\
  (length [[[1; 2]; [3; 4]]; [[5; 6]; [7; 8]]] <= length [(nan, 1%float); (2%float, nan)])%nat /\
  forall i c, (i < length [[[1; 2]; [3; 4]]; [[5; 6]; [7; 8]]])%nat ->
    [(nan, 1%float); (2%float, nan)] !! i = Some c ->
    is_nan (fst c) || is_nan (snd c) = true ->
    [[[0; 0]; [0; 0]]; [[0; 0]; [0; 0]]] !! i = Some (zero_patch (2, 2)).
Proof.
  apply (crop_and_rotate_frames_patches unit (fun _ _ => tt) (fun f _ _ => f)
           [[[1; 2]; [3; 4]]; [[5; 6]; [7; 8]]]
           (TrackFeatures [(nan, 1%float); (2%float, nan)] [0%float; 0%float] [])
           (2, 2)).
  reflexivity.
Defined.

(** ** [compute_scalars] *)

(** No float is below itself. *)
Lemma ltb_irrefl (x : float) : (x <? x)%float = false.
Proof.
  rewrite FloatAxioms.ltb_spec. unfold SFltb, SFcompare.
  destruct (Prim2SF x) as [s|s| |s m e]; try reflexivity.
  - destruct s; reflexivity.
  - rewrite Z.compare_refl.
    change (PosDef.Pos.compare_cont Eq m m) with (Pos.compare m m).
    rewrite Pos.compare_refl. destruct s; reflexivity.
Qed.

(** The smaller of two floats is never above the larger. *)
Lemma minimum_le_maximum (a b : float) :
  (np_maximum a b <? np_minimum a b)%float = false.
Proof.
  unfold np_minimum, np_maximum.
  destruct (is_nan a || is_nan b); [reflexivity|].
  destruct (b <? a)%float eqn:Hba, (a <? b)%float eqn:Hab;
    try apply ltb_irrefl; assumption.
Qed.

Lemma np_broadcast2_mismatch {A B C : Type} (f : A -> B -> C) (a : list A) (b : list B) :
  length a <> length b -> length a <> 1%nat -> length b <> 1%nat ->
  np_broadcast2 f a b = Raise ValueError.
Proof.
  intros Hne Ha Hb. unfold np_broadcast2.
  destruct (length a =? length b)%nat eqn:Heq; [apply Nat.eqb_eq in Heq; congruence|].
  destruct a as [|a0 [|a1 ta]]; destruct b as [|b0 [|b1 tb]]; simpl in *;
    try congruence; reflexivity.
Qed.

Section ComputeScalarsChannels.
Variable convert_pxs_to_mm : list (float * float) -> float -> list (float * float).
Variable np_arctan2 : float -> float -> float.
Variable float32 : float -> float.

(** The channels that are read off the inputs, whenever the call returns. *)
Lemma compute_scalars_px_channels (frames : batch) (track : track_features)
    (min_height max_height true_depth : float) (s : scalars) :
  compute_scalars convert_pxs_to_mm np_arctan2 float32 frames track
    min_height max_height true_depth = Ok s ->
  centroid_x_px s = map fst (centroid track) /\
  centroid_y_px s = map snd (centroid track) /\
  width_px s = map (fun '(a, b) => np_minimum a b) (axis_length track) /\
  length_px s = map (fun '(a, b) => np_maximum a b) (axis_length track) /\
  angle s = orientation track /\
  area_px s =
    map (fun f => Z.of_nat (length (List.filter id (concat
           (mask_and (map (map (fun v => fgt (Zf v) min_height)) f)
                     (map (map (fun v => flt (Zf v) max_height)) f))))))
        frames /\
  height_ave_mm s =
    map (fun f =>
           let m := mask_and (map (map (fun v => fgt (Zf v) min_height)) f)
                             (map (map (fun v => flt (Zf v) max_height)) f) in
           let n := Z.of_nat (length (List.filter id (concat m))) in
           let total := fold_left Z.add (np_compress (concat m) (concat f)) 0 in
           if 0 <? n then float32 (Zf total / Zf n)%float else 0%float)
        frames.
Proof.
  unfold compute_scalars.
  repeat match goal with
         | |- context [rbind (np_broadcast2 ?f ?a ?b) _] =>
             destruct (np_broadcast2 f a b); cbn [rbind]; [|discriminate]
         end.
  intros H. inversion H; subst; clear H.
  cbn [centroid_x_px centroid_y_px width_px length_px angle area_px height_ave_mm].
  repeat (split; [reflexivity|]).
  split; [rewrite map_map; reflexivity|].
  assert (Hh : forall (A B C : Type) (g : A -> B) (h : A * B -> C) (l : list A),
            map h (zip l (map g l)) = map (fun a => h (a, g a)) l).
  { clear. intros A B C g h l. induction l as [|x t IH]; simpl; [reflexivity|].
    f_equal. exact IH. }
  rewrite Hh. reflexivity.
Qed.

(** X12. In the scalars [width_px] never exceeds [length_px]: they are the
    smaller and the larger of the two axis lengths of each row, and the one
    is NaN exactly when the other is. *)
Theorem compute_scalars_width_below_length (frames : batch) (track : track_features)
    (min_height max_height true_depth : float) (s : scalars) :
  compute_scalars convert_pxs_to_mm np_arctan2 float32 frames track
    min_height max_height true_depth = Ok s ->
  length (width_px s) = length (axis_length track) /\
  length (length_px s) = length (axis_length track) /\
  forall i wd ln, width_px s !! i = Some wd -> length_px s !! i = Some ln ->
    (ln <? wd)%float = false /\ (is_nan wd = is_nan ln).
Proof.
  intros H. apply compute_scalars_px_channels in H as (_ & _ & Hw & Hl & _).
  rewrite Hw, Hl, !length_map. split; [reflexivity|]. split; [reflexivity|].
  intros i wd ln.
  change (map ?g (axis_length track)) with (g <$> axis_length track).
  rewrite !list_lookup_fmap.
  destruct (axis_length track !! i) as [[a b]|]; cbn; [|discriminate].
  intros Hwd Hln. inversion Hwd; inversion Hln; subst. split.
  - apply minimum_le_maximum.
  - unfold np_minimum, np_maximum.
    destruct (is_nan a) eqn:Ha, (is_nan b) eqn:Hb; cbn [orb]; try reflexivity.
    destruct (b <? a)%float, (a <? b)%float; congruence.
Qed.

(** X13. [area_px] of a frame counts pixels of that frame: it lies between
    zero and the number of pixels. When it is zero (no pixel strictly inside
    the height band) the average height of the frame is zero, not NaN. *)
Theorem compute_scalars_empty_band (frames : batch) (track : track_features)
    (min_height max_height true_depth : float) (s : scalars) :
  compute_scalars convert_pxs_to_mm np_arctan2 float32 frames track
    min_height max_height true_depth = Ok s ->
  length (area_px s) = length frames /\
  length (height_ave_mm s) = length frames /\
  forall i f, frames !! i = Some f ->
    exists a, area_px s !! i = Some a /\
      0 <= a <= Z.of_nat (length (concat f)) /\
      (a = 0 -> height_ave_mm s !! i = Some 0%float).
Proof.
  intros H. apply compute_scalars_px_channels in H as (_ & _ & _ & _ & _ & Ha & Hh).
  rewrite Ha, Hh, !length_map. split; [reflexivity|]. split; [reflexivity|].
  intros i f Hf. unfold batch, image in *.
  change (map ?g frames) with (g <$> frames).
  rewrite !list_lookup_fmap, Hf. cbn [fmap option_fmap option_map].
  eexists. split; [reflexivity|]. split.
  - split; [lia|]. apply inj_le.
    etransitivity; [apply List.filter_length_le|].
    unfold mask_and.
    assert (Hlen : forall (p q : Z -> bool) (g : list (list Z)),
              length (concat (zip_with (zip_with andb) (map (map p) g) (map (map q) g)))
              = length (concat g)).
    { intros p q g. induction g as [|row rest IH]; simpl; [reflexivity|].
      rewrite !length_app, IH, length_zip_with, !length_map. lia. }
    rewrite Hlen. reflexivity.
  - intros Hz. cbv zeta. rewrite Hz. reflexivity.
Qed.

(** X14. When the feature arrays have one row per frame (and the unit
    conversion keeps the number of rows), [compute_scalars] returns and
    every channel has one entry per frame; [angle] is the orientation as it
    was given. *)
Theorem compute_scalars_channel_lengths (frames : batch) (track : track_features)
    (min_height max_height true_depth : float) :
  (forall c d, length (convert_pxs_to_mm c d) = length c) ->
  length (centroid track) = length frames ->
  length (axis_length track) = length frames ->
  exists s,
    compute_scalars convert_pxs_to_mm np_arctan2 float32 frames track
      min_height max_height true_depth = Ok s /\
    Forall (fun ch => length ch = length frames)
      [centroid_x_px s; centroid_y_px s; velocity_2d_px s; velocity_3d_px s;
       width_px s; length_px s; centroid_x_mm s; centroid_y_mm s;
       velocity_2d_mm s; velocity_3d_mm s; width_mm s; length_mm s; area_mm s;
       height_ave_mm s; velocity_theta s] /\
    length (area_px s) = length frames /\
    angle s = orientation track.
Proof.
  intros Hconv Hc Ha. unfold compute_scalars, batch, image in *.
  repeat (rewrite np_broadcast2_same_length;
          [cbn [rbind]
          | repeat (rewrite length_map || rewrite length_zip_with
                    || rewrite length_diff_from_first || rewrite Hconv); lia]).
  eexists. split; [reflexivity|].
  cbn [centroid_x_px centroid_y_px velocity_2d_px velocity_3d_px width_px length_px
       centroid_x_mm centroid_y_mm velocity_2d_mm velocity_3d_mm width_mm length_mm
       area_mm height_ave_mm velocity_theta area_px angle].
  split; [|split; [rewrite !length_map; reflexivity | reflexivity]].
  repeat constructor;
    repeat (rewrite length_map || rewrite length_zip_with
            || rewrite length_diff_from_first || rewrite Hconv); lia.
Qed.

(** X15. When [axis_length] and [centroid] do not have the same number of
    rows, neither having exactly one, [compute_scalars] ends in
    [ValueError]: the widths and the conversion factors cannot be
    broadcast. *)
Theorem compute_scalars_row_mismatch_raises (frames : batch) (track : track_features)
    (min_height max_height true_depth : float) :
  (forall c d, length (convert_pxs_to_mm c d) = length c) ->
  length (axis_length track) <> length (centroid track) ->
  length (axis_length track) <> 1%nat ->
  length (centroid track) <> 1%nat ->
  compute_scalars convert_pxs_to_mm np_arctan2 float32 frames track
    min_height max_height true_depth = Raise ValueError.
Proof.
  intros Hconv Hne Ha Hc. unfold compute_scalars.
  rewrite np_broadcast2_mismatch; [reflexivity | | |];
    repeat (rewrite length_map || rewrite length_zip_with || rewrite Hconv); lia.
Qed.
End ComputeScalarsChannels.

Lemma compute_scalars_width_below_length_witness :
  length [1; 2; nan]%float = length [(3, 1); (2, 5); (nan, 4)]%float /\
  length [3; 5; nan]%float = length [(3, 1); (2, 5); (nan, 4)]%float /\
  forall i wd ln, [1; 2; nan]%float !! i = Some wd -> [3; 5; nan]%float !! i = Some ln ->
    (ln <? wd)%float = false /\ (is_nan wd = is_nan ln).
Proof.
  apply (compute_scalars_width_below_length (fun c _ => c) (fun _ _ => 0%float)
           (fun x => x) [[[0]]; [[0]]; [[0]]]
           (TrackFeatures [(0, 0); (3, 4); (6, 8)]%float [0; 0; 0]%float
                          [(3, 1); (2, 5); (nan, 4)]%float)
           10%float 100%float 673%float
           (Scalars [0; 3; 6]%float [0; 4; 8]%float [0; 5; 5]%float [0; 5; 5]%float
                    [1; 2; nan]%float [3; 5; nan]%float [0; 0; 0]
                    [0; 3; 6]%float [0; 4; 8]%float [0; 5; 5]%float [0; 5; 5]%float
                    [1; 2; nan]%float [3; 5; nan]%float [0; 0; 0]%float
                    [0; 0; 0]%float [0; 0; 0]%float [0; 0; 0]%float)).
  vm_compute. reflexivity.
Defined.

Lemma compute_scalars_empty_band_witness :
  exists s,
    compute_scalars (fun c _ => c) (fun _ _ => 0%float) (fun x => x)
      [[[0; 20]]; [[0; 0]]]
      (TrackFeatures [(0, 0); (3, 4)]%float [0; 0]%float [(9, 4); (9, 4)]%float)
      10%float 100%float 673%float = Ok s /\
    length (area_px s) = length [[[0; 20]]; [[0; 0]]] /\
    length (height_ave_mm s) = length [[[0; 20]]; [[0; 0]]] /\
    forall i f, [[[0; 20]]; [[0; 0]]] !! i = Some f ->
      exists a, area_px s !! i = Some a /\
        0 <= a <= Z.of_nat (length (concat f)) /\
        (a = 0 -> height_ave_mm s !! i = Some 0%float).
Proof.
  eexists. split; [vm_compute; reflexivity|].
  apply (compute_scalars_empty_band (fun c _ => c) (fun _ _ => 0%float) (fun x => x)
           [[[0; 20]]; [[0; 0]]]
           (TrackFeatures [(0, 0); (3, 4)]%float [0; 0]%float [(9, 4); (9, 4)]%float)
           10%float 100%float 673%float).
  vm_compute. reflexivity.
Defined.

Lemma compute_scalars_channel_lengths_witness :
  exists s,
    compute_scalars (fun c _ => c) (fun _ _ => 0%float) (fun x => x)
      [[[0; 20]]; [[0; 0]]]
      (TrackFeatures [(0, 0); (3, 4)]%float [0; 0]%float [(9, 4); (9, 4)]%float)
      10%float 100%float 673%float = Ok s /\
    Forall (fun ch => length ch = length [[[0; 20]]; [[0; 0]]])
      [centroid_x_px s; centroid_y_px s; velocity_2d_px s; velocity_3d_px s;
       width_px s; length_px s; centroid_x_mm s; centroid_y_mm s;
       velocity_2d_mm s; velocity_3d_mm s; width_mm s; length_mm s; area_mm s;
       height_ave_mm s; velocity_theta s] /\
    length (area_px s) = length [[[0; 20]]; [[0; 0]]] /\
    angle s = [0; 0]%float.
Proof.
  apply (compute_scalars_channel_lengths (fun c _ => c) (fun _ _ => 0%float) (fun x => x)
           [[[0; 20]]; [[0; 0]]]
           (TrackFeatures [(0, 0); (3, 4)]%float [0; 0]%float [(9, 4); (9, 4)]%float)
           10%float 100%float 673%float (fun c d => eq_refl) eq_refl eq_refl).
Defined.

Lemma compute_scalars_row_mismatch_raises_witness :
  compute_scalars (fun c _ => c) (fun _ _ => 0%float) (fun x => x)
    [[[0; 20]]; [[0; 0]]; [[0; 0]]]
    (TrackFeatures [(0, 0); (3, 4); (6, 8)]%float [0; 0; 0]%float [(9, 4); (9, 4)]%float)
    10%float 100%float 673%float = Raise ValueError.
Proof.
  apply (compute_scalars_row_mismatch_raises (fun c _ => c) (fun _ _ => 0%float)
           (fun x => x)).
  - reflexivity.
  - cbn. lia.
  - cbn. lia.
  - cbn. lia.
Defined.

(** ** Index assignment *)

Lemma np_take_ok {A : Type} (g : nat -> A) (a : list A) (idx : list nat) :
  Forall (fun i => a !! i = Some (g i)) idx -> np_take a idx = Ok (map g idx).
Proof.
  intros H. unfold np_take. apply rmapM_all_ok.
  eapply Forall_impl; [exact H|]. intros i Hi. cbv beta. rewrite Hi. reflexivity.
Qed.

(** [a[idx] = vals] when the value written at index [i] is [g i]: the entries
    at the indices of [idx] become [g i], the others stay. *)
Lemma np_put_map {A : Type} (g : nat -> A) (idx : list nat) (a : list A) :
  Forall (fun i => (i < length a)%nat) idx ->
  np_put a idx (map g idx)
  = Ok (imap (fun j x => if bool_decide (j ∈ idx) then g j else x) a).
Proof.
  unfold np_put. revert a. induction idx as [|i idx IH]; intros a Hidx.
  - cbn [map zip zip_with rfold]. f_equal. apply list_eq. intros j.
    rewrite list_lookup_imap. destruct (a !! j) as [x|]; reflexivity.
  - inversion Hidx as [|? ? Hi Hrest]; subst.
    cbn [map zip zip_with rfold]. apply Nat.ltb_lt in Hi. rewrite Hi. cbn [rbind].
    apply Nat.ltb_lt in Hi.
    change (zip_with pair idx (map g idx)) with (zip idx (map g idx)).
    rewrite IH by (rewrite length_insert; exact Hrest).
    f_equal. apply list_eq. intros j. rewrite !list_lookup_imap.
    destruct (Nat.eq_dec i j) as [<- | Hne].
    + rewrite list_lookup_insert_eq by exact Hi.
      destruct (lookup_lt_is_Some_2 a i Hi) as (x & Hx). rewrite Hx. cbn.
      rewrite (bool_decide_eq_true_2 (i ∈ i :: idx)) by (apply elem_of_cons; left; reflexivity).
      destruct (bool_decide (i ∈ idx)); reflexivity.
    + rewrite list_lookup_insert_ne by exact Hne.
      destruct (a !! j) as [x|]; cbn; [|reflexivity].
      f_equal. apply (f_equal (fun b : bool => if b then g j else x)).
      apply bool_decide_ext. rewrite elem_of_cons. split; [auto | intros [? | ?]; congruence].
Qed.

Lemma zip_with_map_seq {A B C : Type} (f : A -> B -> C) (F : nat -> B) (l : list A) :
  zip_with f l (map F (seq 0 (length l))) = imap (fun i a => f a (F i)) l.
Proof.
  assert (Hgen : forall k, zip_with f l (map F (seq k (length l)))
                           = imap (fun i a => f a (F (k + i)%nat)) l).
  { induction l as [|a t IH]; intros k; [reflexivity|].
    cbn [length seq map zip_with imap]. rewrite Nat.add_0_r. f_equal.
    rewrite IH. apply imap_ext. intros i x _. cbn. f_equal. f_equal. lia. }
  apply Hgen.
Qed.

Lemma zip_with_imap_map_seq {A B C D : Type} (f : B -> C -> D) (G : nat -> A -> B)
    (F : nat -> C) (l : list A) :
  zip_with f (imap G l) (map F (seq 0 (length l)))
  = imap (fun i a => f (G i a) (F i)) l.
Proof.
  assert (Hgen : forall (G' : nat -> A -> B) k,
            zip_with f (imap G' l) (map F (seq k (length l)))
            = imap (fun i a => f (G' i a) (F (k + i)%nat)) l).
  { induction l as [|a t IH]; intros G' k; [reflexivity|].
    cbn [length seq map zip_with imap]. rewrite Nat.add_0_r. f_equal.
    rewrite IH. apply imap_ext. intros i x _. cbn. f_equal. f_equal. lia. }
  apply Hgen.
Qed.

Lemma np_where_imap {A : Type} (O : nat -> A -> bool) (l : list A) (j : nat) :
  j ∈ np_where id (imap O l) <-> exists v, l !! j = Some v /\ O j v = true.
Proof.
  rewrite list_elem_of_In, np_where_spec. split.
  - intros (b & Hb & Hid). rewrite list_lookup_imap in Hb.
    destruct (l !! j) as [v|]; cbn in Hb; [|discriminate].
    inversion Hb; subst. eauto.
  - intros (v & Hv & Ho). exists true. rewrite list_lookup_imap, Hv. cbn.
    rewrite Ho. auto.
Qed.

(** ** [feature_hampel_filter] *)

Lemma strided_app_windows (padded : list float) (span : nat) (n : nat) :
  length padded = (n + span - 1)%nat -> (0 < span)%nat ->
  strided_app padded (Z.of_nat span) 1
  = Ok (map (fun i => take span (drop i padded)) (seq 0 n)).
Proof.
  intros Hlen Hspan. unfold strided_app. rewrite Hlen, Z.div_1_r.
  replace (Z.of_nat (n + span - 1) - Z.of_nat span + 1) with (Z.of_nat n) by lia.
  destruct (Z.of_nat n <? 0) eqn:Hneg; [apply Z.ltb_lt in Hneg; lia|].
  rewrite !Nat2Z.id. f_equal. apply map_ext. intros i.
  change (Z.to_nat 1) with 1%nat. rewrite Nat.mul_1_r. reflexivity.
Qed.

(** One channel under an odd span: every sample goes through [hampel_sample]
    with the window centred on it. *)
Lemma hampel_channel_odd (x : list float) (h : nat) (sig : float) :
  hampel_channel x (replicate h nan ++ x ++ replicate h nan)
                 (Z.of_nat (2 * h + 1)) sig
  = Ok (imap (fun i v => hampel_sample (hampel_window x h i) sig v) x).
Proof.
  unfold hampel_channel.
  rewrite (strided_app_windows _ (2 * h + 1) (length x))
    by (rewrite ?length_app, ?length_replicate; lia).
  cbn [rbind]. fold (hampel_window x h).
  set (W := hampel_window x h).
  set (M := fun i => np_nanmedian (W i)).
  set (D := fun i => np_nanmedian (map (fun v => abs (v - M i)%float) (W i))).
  rewrite map_map. fold M.
  assert (Hmad : zip_with (fun w m => np_nanmedian (map (fun v => abs (v - m)%float) w))
                          (map W (seq 0 (length x))) (map M (seq 0 (length x)))
                 = map D (seq 0 (length x))).
  { generalize (seq 0 (length x)). intros l. induction l as [|i t IH]; [reflexivity|].
    cbn [map zip_with]. rewrite IH. reflexivity. }
  rewrite Hmad.
  rewrite np_broadcast2_same_length by (rewrite length_map, length_seq; reflexivity).
  cbn [rbind]. rewrite zip_with_map_seq.
  assert (Hthr : zip_with (fun m d => (m + sig * d)%float)
                          (map M (seq 0 (length x))) (map D (seq 0 (length x)))
                 = map (fun i => (M i + sig * D i)%float) (seq 0 (length x))).
  { generalize (seq 0 (length x)). intros l. induction l as [|i t IH]; [reflexivity|].
    cbn [map zip_with]. rewrite IH. reflexivity. }
  rewrite Hthr.
  rewrite np_broadcast2_same_length
    by (rewrite length_imap, length_map, length_seq; reflexivity).
  cbn [rbind].
  rewrite zip_with_imap_map_seq.
  set (O := fun i v => fgt (abs (v - M i)%float) (M i + sig * D i)%float).
  change (imap (fun i a => fgt (abs (a - M i)%float) (M i + sig * D i)%float) x)
    with (imap O x).
  assert (Hidx : Forall (fun i => (i < length x)%nat) (np_where id (imap O x))).
  { apply Forall_forall. intros j Hj. apply np_where_imap in Hj as (v & Hv & _).
    eapply lookup_lt_Some. exact Hv. }
  rewrite (np_take_ok M).
  2:{ eapply Forall_impl; [exact Hidx|]. intros i Hi. cbv beta.
      change (map M ?l) with (M <$> l). rewrite list_lookup_fmap, lookup_seq_lt by exact Hi.
      reflexivity. }
  cbn [rbind]. rewrite np_put_map by exact Hidx. f_equal.
  apply imap_ext. intros j v Hv. cbv beta. unfold hampel_sample. fold (M j). fold (D j).
  fold (O j v).
  destruct (O j v) eqn:Ho.
  - rewrite bool_decide_eq_true_2; [reflexivity|]. apply np_where_imap. eauto.
  - rewrite bool_decide_eq_false_2; [reflexivity|]. intros Hin.
    apply np_where_imap in Hin as (v' & Hv' & Ho'). congruence.
Qed.

(** One channel under an even span: the medians are one more than the
    samples, and the subtraction raises. *)
Lemma hampel_channel_even (x : list float) (k : nat) (sig : float) :
  (0 < k)%nat -> (2 <= length x)%nat ->
  hampel_channel x (replicate k nan ++ x ++ replicate k nan) (Z.of_nat (2 * k)) sig
  = Raise ValueError.
Proof.
  intros Hk Hx. unfold hampel_channel.
  rewrite (strided_app_windows _ (2 * k) (length x + 1))
    by (rewrite ?length_app, ?length_replicate; lia).
  cbn [rbind]. rewrite np_broadcast2_mismatch; [reflexivity | | |];
    rewrite ?length_map, ?length_seq; lia.
Qed.

Lemma np_pad_ok {A : Type} (fill : A) (a : list A) (h : nat) (span : Z) :
  span / 2 = Z.of_nat h ->
  np_pad fill a (span / 2) = Ok (replicate h fill ++ a ++ replicate h fill).
Proof.
  intros ->. unfold np_pad.
  destruct (Z.of_nat h <? 0) eqn:Hneg; [apply Z.ltb_lt in Hneg; lia|].
  rewrite Nat2Z.id. reflexivity.
Qed.

Lemma half_odd (h : nat) : Z.of_nat (2 * h + 1) / 2 = Z.of_nat h.
Proof.
  replace (Z.of_nat (2 * h + 1)) with (1 + Z.of_nat h * 2) by lia.
  rewrite Z.div_add by lia. reflexivity.
Qed.

Lemma half_even (k : nat) : Z.of_nat (2 * k) / 2 = Z.of_nat k.
Proof.
  replace (Z.of_nat (2 * k)) with (Z.of_nat k * 2) by lia.
  apply Z.div_mul. lia.
Qed.

Lemma col0_pad (c : list (float * float)) (h : nat) :
  col 0 (replicate h (nan, nan) ++ c ++ replicate h (nan, nan))
  = replicate h nan ++ col 0 c ++ replicate h nan.
Proof.
  unfold col. rewrite !map_app, !map_replicate. reflexivity.
Qed.

Lemma set_col0_imap (c : list (float * float)) (F : nat -> float -> float) :
  set_col 0 c (imap F (col 0 c)) = imap (fun i p => (F i (fst p), snd p)) c.
Proof.
  unfold set_col, col. cbn [Nat.eqb].
  assert (Hgen : forall G : nat -> float -> float,
            zip_with (fun p x => (x, snd p)) c (imap G (map (fun p => fst p) c))
            = imap (fun i p => (G i (fst p), snd p)) c).
  { induction c as [|p t IH]; intros G; [reflexivity|].
    cbn [map imap zip_with]. f_equal. apply IH. }
  apply Hgen.
Qed.

(** The centroid block of [feature_hampel_filter] under an odd span. *)
Lemma hampel_centroid_odd (c : list (float * float)) (h : nat) (sig : float) :
  rfold (fun c' i =>
           let* x := hampel_channel (col i c')
                       (col i (replicate h (nan, nan) ++ c ++ replicate h (nan, nan)))
                       (Z.of_nat (2 * h + 1)) sig in
           Ok (set_col i c' x))
        (seq 0 1) c
  = Ok (imap (fun i p =>
                (hampel_sample (hampel_window (map fst c) h i) sig (fst p), snd p)) c).
Proof.
  cbn [seq rfold]. rewrite col0_pad, hampel_channel_odd. cbn [rbind].
  rewrite set_col0_imap. reflexivity.
Qed.

(** X16. With the odd spans [2 * hc + 1] and [2 * ha + 1],
    [feature_hampel_filter] returns. The first centroid coordinate and the
    orientation of every frame go through the test of [hampel_sample] with
    the window centred on the frame; the second centroid coordinate and the
    axis lengths come back as they were. *)
Theorem feature_hampel_filter_odd_spans (features : track_features) (hc ha : nat)
    (centroid_hampel_sig angle_hampel_sig : float) :
  feature_hampel_filter features
    (Some (Z.of_nat (2 * hc + 1))) centroid_hampel_sig
    (Some (Z.of_nat (2 * ha + 1))) angle_hampel_sig
  = Ok (TrackFeatures
          (imap (fun i p =>
                   (hampel_sample (hampel_window (map fst (centroid features)) hc i)
                                  centroid_hampel_sig (fst p),
                    snd p))
                (centroid features))
          (imap (fun i v =>
                   hampel_sample (hampel_window (orientation features) ha i)
                                 angle_hampel_sig v)
                (orientation features))
          (axis_length features)).
Proof.
  unfold feature_hampel_filter.
  assert (Hc : (0 <? Z.of_nat (2 * hc + 1)) = true) by (apply Z.ltb_lt; lia).
  assert (Ha : (0 <? Z.of_nat (2 * ha + 1)) = true) by (apply Z.ltb_lt; lia).
  rewrite Hc, Ha.
  rewrite (np_pad_ok _ _ hc) by apply half_odd. cbn [rbind].
  rewrite hampel_centroid_odd. cbn [rbind orientation].
  rewrite (np_pad_ok _ _ ha) by apply half_odd. cbn [rbind orientation centroid axis_length].
  rewrite hampel_channel_odd. reflexivity.
Qed.

(** X17. An even centroid span on two frames or more ends in [ValueError],
    whatever the angle span: the padded channel gives one window more than
    there are frames, and the medians cannot be subtracted from the
    samples. *)
Theorem feature_hampel_filter_even_span_raises (features : track_features) (k : nat)
    (centroid_hampel_sig angle_hampel_sig : float) (angle_hampel_span : option Z) :
  (0 < k)%nat -> (2 <= length (centroid features))%nat ->
  feature_hampel_filter features
    (Some (Z.of_nat (2 * k))) centroid_hampel_sig angle_hampel_span angle_hampel_sig
  = Raise ValueError.
Proof.
  intros Hk Hn. unfold feature_hampel_filter.
  assert (Hc : (0 <? Z.of_nat (2 * k)) = true) by (apply Z.ltb_lt; lia).
  rewrite Hc. rewrite (np_pad_ok _ _ k) by apply half_even. cbn [rbind seq rfold].
  rewrite col0_pad, hampel_channel_even; [reflexivity | exact Hk |].
  unfold col. rewrite length_map. exact Hn.
Qed.

Lemma feature_hampel_filter_even_span_raises_witness :
  feature_hampel_filter
    (TrackFeatures [(1, 1); (2, 2); (3, 3)]%float [0; 0; 0]%float
                   [(9, 4); (9, 4); (9, 4)]%float)
    (Some (Z.of_nat (2 * 2))) 3%float (Some 3) 3%float
  = Raise ValueError.
Proof.
  apply feature_hampel_filter_even_span_raises; cbn; lia.
Defined.

(** X18. With an odd centroid span and the angle span unset the call ends in
    [TypeError]: [angle_hampel_span // 2] is evaluated inside the centroid
    branch, after the centroid has been filtered. *)
Theorem feature_hampel_filter_centroid_only_raises (features : track_features) (h : nat)
    (centroid_hampel_sig angle_hampel_sig : float) :
  feature_hampel_filter features
    (Some (Z.of_nat (2 * h + 1))) centroid_hampel_sig None angle_hampel_sig
  = Raise TypeError.
Proof.
  unfold feature_hampel_filter.
  assert (Hc : (0 <? Z.of_nat (2 * h + 1)) = true) by (apply Z.ltb_lt; lia).
  rewrite Hc. rewrite (np_pad_ok _ _ h) by apply half_odd. cbn [rbind].
  rewrite hampel_centroid_odd. reflexivity.
Qed.

(** ** [model_smoother] *)

(** *** The confidence *)

Lemma is_nan_Prim2SF (x : float) : is_nan x = false -> Prim2SF x <> S754_nan.
Proof.
  unfold is_nan. rewrite FloatAxioms.eqb_spec. intros H Hnan. rewrite Hnan in H. discriminate.
Qed.

(** Two floats that are not NaN are ordered one way or the other. *)
Lemma not_ltb_leb (x y : float) :
  is_nan x = false -> is_nan y = false -> (y <? x)%float = false ->
  (x <=? y)%float = true.
Proof.
  intros Hx Hy. apply is_nan_Prim2SF in Hx. apply is_nan_Prim2SF in Hy.
  rewrite FloatAxioms.ltb_spec, FloatAxioms.leb_spec. unfold SFltb, SFleb, SFcompare.
  destruct (Prim2SF x) as [sx|sx| |sx mx ex]; [| |congruence|];
    (destruct (Prim2SF y) as [sy|sy| |sy my ey]; [| |congruence|]);
    try (destruct sx); try (destruct sy); try reflexivity; try discriminate.
  - rewrite (Z.compare_antisym ex ey).
    destruct (ex ?= ey) eqn:He; cbn [CompOpp]; try reflexivity; try discriminate.
    change (PosDef.Pos.compare_cont Eq my mx) with (Pos.compare my mx).
    change (PosDef.Pos.compare_cont Eq mx my) with (Pos.compare mx my).
    rewrite (Pos.compare_antisym my mx).
    destruct (my ?= mx)%positive; cbn [CompOpp]; try reflexivity; discriminate.
  - rewrite (Z.compare_antisym ex ey).
    destruct (ex ?= ey) eqn:He; cbn [CompOpp]; try reflexivity; try discriminate.
    change (PosDef.Pos.compare_cont Eq my mx) with (Pos.compare my mx).
    change (PosDef.Pos.compare_cont Eq mx my) with (Pos.compare mx my).
    rewrite (Pos.compare_antisym my mx).
    destruct (my ?= mx)%positive; cbn [CompOpp]; try reflexivity; discriminate.
Qed.

(** X19. The confidence [model_smoother] gives a frame is NaN or lies between
    0 and 1, bounds included. *)
Theorem confidence_in_unit_interval (clips : float * float) (ll_frame : list float) :
  is_nan (confidence clips ll_frame) = true \/
  ((0 <=? confidence clips ll_frame)%float = true /\
   (confidence clips ll_frame <=? 1)%float = true).
Proof.
  unfold confidence, np_clip.
  set (x := ((np_mean ll_frame - fst clips) / (snd clips - fst clips))%float).
  unfold np_maximum. change (is_nan 0) with false. rewrite orb_false_r.
  destruct (is_nan x) eqn:Hnan; [left; reflexivity|].
  destruct (x <? 0)%float eqn:Hlo.
  - right. split; reflexivity.
  - unfold np_minimum. rewrite Hnan. change (is_nan 1) with false. cbn [orb].
    destruct (1 <? x)%float eqn:Hhi.
    + right. split; reflexivity.
    + right. split; apply not_ltb_leb; auto.
Qed.

(** *** The fill of the NaNs *)

Lemma np_compress_map_self {A : Type} (p : A -> bool) (v : list A) :
  np_compress (map p v) v = List.filter p v.
Proof.
  unfold np_compress. induction v as [|a t IH]; [reflexivity|].
  cbn [map zip zip_with List.filter fst]. destruct (p a); cbn [map snd]; rewrite IH;
    reflexivity.
Qed.

Lemma np_compress_map_seq {A : Type} (p : A -> bool) (v : list A) (k : nat) :
  np_compress (map p v) (seq k (length v)) = where_from p k v.
Proof.
  unfold np_compress. revert k. induction v as [|a t IH]; intros k; [reflexivity|].
  cbn [map length seq zip zip_with List.filter fst where_from].
  destruct (p a); cbn [map snd]; rewrite IH; reflexivity.
Qed.

Lemma length_where_from {A : Type} (p : A -> bool) (v : list A) (k : nat) :
  length (where_from p k v) = length (List.filter p v).
Proof.
  revert k. induction v as [|a t IH]; intros k; [reflexivity|].
  cbn [where_from List.filter]. destruct (p a); cbn [length]; rewrite IH; reflexivity.
Qed.

Lemma interp1d_nearest_ok (x : list nat) (y : list float) (x_new : nat) :
  x <> [] -> length y = length x ->
  exists v, interp1d_nearest x y x_new = Ok v /\ In v y.
Proof.
  intros Hne Hlen. unfold interp1d_nearest. destruct x as [|x0 xs]; [congruence|].
  set (idx := Nat.min _ _).
  assert (Hidx : (idx < length y)%nat).
  { rewrite Hlen. unfold idx. cbn [length]. lia. }
  destruct (lookup_lt_is_Some_2 y idx Hidx) as (v & Hv). rewrite Hv.
  exists v. split; [reflexivity|]. apply list_elem_of_In.
  eapply list_elem_of_lookup_2. exact Hv.
Qed.

(** The column after the fill, when it holds a value that is not NaN. *)
Lemma fill_column_spec (v : list float) :
  Exists (fun x => is_nan x = false) v ->
  exists g : nat -> float,
    fill_column v
    = Ok (imap (fun j x => if is_nan x then g j else x) v) /\
    forall j, is_nan (g j) = false /\ In (g j) v.
Proof.
  intros Hex. unfold fill_column.
  rewrite map_map. rewrite !np_compress_map_seq, !np_compress_map_self.
  fold (np_where (fun x => negb (is_nan x)) v). fold (np_where is_nan v).
  set (kx := np_where (fun x => negb (is_nan x)) v).
  set (ky := List.filter (fun x => negb (is_nan x)) v).
  assert (Hkx : kx <> []).
  { apply Exists_exists in Hex as (x & Hin & Hx).
    apply list_elem_of_lookup in Hin as (i & Hi).
    assert (Hi' : In i kx).
    { apply np_where_spec. exists x. rewrite Hx. auto. }
    intros Hnil. rewrite Hnil in Hi'. exact Hi'. }
  assert (Hlen : length ky = length kx).
  { unfold kx, ky, np_where. rewrite length_where_from. reflexivity. }
  assert (Hky : forall y, In y ky -> is_nan y = false /\ In y v).
  { intros y Hy. apply filter_In in Hy as (Hin & Hp).
    split; [destruct (is_nan y); [discriminate | reflexivity] | exact Hin]. }
  set (g := fun j => match interp1d_nearest kx ky j with
                     | Ok y => y
                     | Raise _ => nan
                     end).
  assert (Hg : forall j, interp1d_nearest kx ky j = Ok (g j) /\ In (g j) ky).
  { intros j. destruct (interp1d_nearest_ok kx ky j Hkx Hlen) as (y & Hy & Hin).
    unfold g. rewrite Hy. auto. }
  exists g. split.
  - destruct kx as [|k0 ks] eqn:Hkx0; [congruence|]. rewrite <- Hkx0 in *.
    rewrite (rmapM_all_ok _ g) by (apply Forall_forall; intros j _; apply Hg).
    cbn [rbind]. rewrite np_put_map.
    + f_equal. apply imap_ext. intros j x Hx. cbv beta.
      destruct (is_nan x) eqn:Hnan.
      * rewrite bool_decide_eq_true_2; [reflexivity|].
        apply list_elem_of_In, np_where_spec. eauto.
      * rewrite bool_decide_eq_false_2; [reflexivity|]. intros Hin.
        apply list_elem_of_In, np_where_spec in Hin as (x' & Hx' & Hn). congruence.
    + apply Forall_forall. intros j Hj.
      apply list_elem_of_In, np_where_spec in Hj as (x & Hx & _).
      eapply lookup_lt_Some. exact Hx.
  - intros j. destruct (Hg j) as (_ & Hin). apply Hky. exact Hin.
Qed.



(** A column without any value: the interpolation has nothing to start
    from. *)
Lemma fill_column_all_nan_raises (v : list float) :
  Forall (fun x => is_nan x = true) v -> fill_column v = Raise ValueError.
Proof.
  intros Hall. unfold fill_column.
  rewrite map_map, !np_compress_map_seq.
  assert (Hnone : where_from (fun x => negb (is_nan x)) 0 v = []).
  { generalize 0%nat. induction Hall as [|x t Hx _ IH]; intros k; [reflexivity|].
    cbn [where_from]. rewrite Hx. cbn [negb]. apply IH. }
  rewrite Hnone. reflexivity.
Qed.

(** *** Keys and frames *)

Lemma np_put_length {A : Type} (a a' : list A) (idx : list nat) (vals : list A) :
  np_put a idx vals = Ok a' -> length a' = length a.
Proof.
  unfold np_put. intros H.
  apply (rfold_invariant (fun acc => length acc = length a)) in H; [exact H | | reflexivity].
  intros acc [i x] acc' Hacc. destruct (i <? length acc)%nat; [|discriminate].
  intros Heq. inversion Heq; subst. rewrite length_insert. exact Hacc.
Qed.

Lemma fill_column_length (v v' : list float) :
  fill_column v = Ok v' -> length v' = length v.
Proof.
  unfold fill_column. destruct (np_compress _ _); [discriminate|].
  destruct (rmapM _ _); cbn [rbind]; [|discriminate]. apply np_put_length.
Qed.

Lemma fill_nans_kind (c c' : channel) :
  fill_nans c = Ok c' -> chan_take 0 c' = chan_take 0 c /\ chan_length c' = chan_length c.
Proof.
  destruct c as [v|v]; cbn [fill_nans].
  - destruct (existsb is_nan v).
    + destruct (fill_column v) as [v'|e] eqn:Hf; cbn [rbind]; [|discriminate].
      intros H. inversion H; subst. split; [reflexivity|].
      cbn. apply fill_column_length. exact Hf.
    + intros H. inversion H; subst. auto.
  - destruct (existsb (existsb is_nan) v).
    + match goal with
      | |- context [rfold ?f ?l ?s] =>
          destruct (rfold f l s) as [v'|e] eqn:Hf
      end; cbn [rbind]; [|discriminate].
      intros H. inversion H; subst. split; [reflexivity|]. cbn.
      apply (rfold_invariant (fun acc => length acc = length v)) in Hf;
        [exact Hf | | reflexivity].
      intros acc j acc' Hacc.
      destruct (fill_column (column_of j v)) as [x|e] eqn:Hx; cbn [rbind]; [|discriminate].
      intros Heq. inversion Heq; subst. unfold set_column.
      rewrite length_zip_with, (fill_column_length _ _ Hx). unfold column_of.
      rewrite length_map. lia.
    + intros H. inversion H; subst. auto.
Qed.

Lemma blend_at_kind (w : float) (i j : nat) (c c' : channel) :
  blend_at w i j c = Ok c' -> chan_take 0 c' = chan_take 0 c /\ chan_length c' = chan_length c.
Proof.
  destruct c as [v|v]; cbn [blend_at]; unfold blend_rows;
    (destruct (v !! j); [|discriminate]); (destruct (v !! i); [|discriminate]);
    cbn [rbind]; intros H; inversion H; subst;
    (split; [reflexivity | cbn; apply length_insert]).
Qed.

Lemma same_frames_refl (fs : channels) : same_frames fs fs.
Proof. apply Forall_Forall2_diag. apply Forall_forall. auto. Qed.

Lemma same_frames_trans (a b c : channels) :
  same_frames a b -> same_frames b c -> same_frames a c.
Proof.
  unfold same_frames. intros Hab. revert c.
  induction Hab as [|x y la lb (H1 & H2 & H3) _ IH]; intros c Hbc;
    inversion Hbc as [|? z ? lc (H1' & H2' & H3') Hrest]; subst; constructor.
  - repeat split; congruence.
  - apply IH. exact Hrest.
Qed.

Lemma blend_all_same_frames (ave_ll : list float) (i j : nat) (fs fs' : channels) :
  blend_all ave_ll i j fs = Ok fs' -> same_frames fs fs'.
Proof.
  unfold blend_all. destruct (ave_ll !! i) as [w|]; [|discriminate].
  apply rmapM_invariant. intros [k c] [k' c'].
  destruct (blend_at w i j c) as [c1|e] eqn:Hb; cbn [rbind]; [|discriminate].
  intros H. inversion H; subst. split; [reflexivity|]. apply (blend_at_kind _ _ _ _ _ Hb).
Qed.

Lemma rfold_same_frames {A : Type} (f : channels -> A -> outcome channels) (l : list A)
    (fs fs' : channels) :
  (forall s a s', f s a = Ok s' -> same_frames s s') ->
  rfold f l fs = Ok fs' -> same_frames fs fs'.
Proof.
  intros Hf H.
  apply (rfold_invariant (fun s => same_frames fs s)) in H;
    [exact H | | apply same_frames_refl].
  intros s a s' Hs Hstep. eapply same_frames_trans; [exact Hs|]. eapply Hf. exact Hstep.
Qed.

(** X21. Whenever [model_smoother] returns, the features have the same keys
    in the same order, and under each key an array with the same number of
    axes and the same number of frames. *)
Theorem model_smoother_same_frames (features features' : channels)
    (ll : option (list (list float))) (clips : option (float * float)) :
  model_smoother features ll clips = Ok features' -> same_frames features features'.
Proof.
  unfold model_smoother.
  destruct ll as [ll|]; [|intros H; inversion H; apply same_frames_refl].
  destruct clips as [clips|]; [|intros H; inversion H; apply same_frames_refl].
  destruct (fge (fst clips) (snd clips));
    [intros H; inversion H; apply same_frames_refl|].
  destruct (rmapM _ features) as [fs1|e] eqn:Hfill; cbn [rbind]; [|discriminate].
  destruct (forward_pass _ fs1) as [fs2|e] eqn:Hfwd; cbn [rbind]; [|discriminate].
  intros Hbwd.
  assert (H1 : same_frames features fs1).
  { eapply rmapM_invariant; [|exact Hfill]. intros [k c] [k' c'].
    destruct (fill_nans c) as [c1|e] eqn:Hc; cbn [rbind]; [|discriminate].
    intros H. inversion H; subst. split; [reflexivity|]. apply fill_nans_kind. exact Hc. }
  assert (H2 : same_frames fs1 fs2).
  { eapply rfold_same_frames; [|exact Hfwd]. intros s i s'. apply blend_all_same_frames. }
  assert (H3 : same_frames fs2 features').
  { eapply rfold_same_frames; [|exact Hbwd]. intros s i s'. apply blend_all_same_frames. }
  eapply same_frames_trans; [exact H1|]. eapply same_frames_trans; eassumption.
Qed.

Lemma model_smoother_same_frames_witness :
  same_frames [("x"%string, Chan1 [0; 10; 10]%float)]
              [("x"%string, Chan1 [5; 10; 10]%float)].
Proof.
  apply (model_smoother_same_frames _ _ (Some [[0.5]; [0.5]; [0.5]]%float)
           (Some (0, 1)%float)).
  vm_compute. reflexivity.
Defined.

(** *** A channel without any value *)

Lemma fill_column_cases (v : list float) :
  (exists v', fill_column v = Ok v') \/ fill_column v = Raise ValueError.
Proof.
  destruct (Exists_dec (fun x => is_nan x = false) v) as [Hex | Hnone].
  - left. destruct (fill_column_spec v Hex) as (g & Hg & _). eauto.
  - right. apply fill_column_all_nan_raises. apply Forall_forall. intros x Hx.
    destruct (is_nan x) eqn:Hn; [reflexivity|]. exfalso. apply Hnone.
    apply Exists_exists. eauto.
Qed.

Lemma fill_nans_cases (c : channel) :
  (exists c', fill_nans c = Ok c') \/ fill_nans c = Raise ValueError.
Proof.
  destruct c as [v|v]; cbn [fill_nans].
  - destruct (existsb is_nan v); [|eauto].
    destruct (fill_column_cases v) as [(v' & ->) | ->]; cbn [rbind]; eauto.
  - destruct (existsb (existsb is_nan) v); [|eauto].
    assert (Hgen : forall l acc,
              (exists v',
                 rfold (fun acc j =>
                          let* x := fill_column (column_of j v) in Ok (set_column j acc x))
                       l acc = Ok v') \/
              rfold (fun acc j =>
                       let* x := fill_column (column_of j v) in Ok (set_column j acc x))
                    l acc = Raise ValueError).
    { induction l as [|j t IH]; intros acc; cbn [rfold]; [eauto|].
      destruct (fill_column_cases (column_of j v)) as [(x & ->) | ->]; cbn [rbind];
        [apply IH | auto]. }
    destruct (Hgen (seq 0 (length (hd [] v))) v) as [(v' & ->) | ->]; cbn [rbind]; eauto.
Qed.

(** X22. With the smoothing on ([ll] and [clips] given and
    [clips[0] < clips[1]]), a one-axis feature that is NaN at every frame,
    as the orientation of a batch without any detection is, ends the call in
    [ValueError]: there is no value to interpolate from. *)
Theorem model_smoother_all_nan_channel_raises (features : channels)
    (ll : list (list float)) (clips : float * float) :
  fge (fst clips) (snd clips) = false ->
  Exists (fun kv => exists v, snd kv = Chan1 v /\ v <> [] /\
                              Forall (fun x => is_nan x = true) v) features ->
  model_smoother features (Some ll) (Some clips) = Raise ValueError.
Proof.
  intros Hclips Hex. unfold model_smoother. rewrite Hclips.
  assert (Hfill : rmapM (fun '(k, v) => let* v' := fill_nans v in Ok (k, v')) features
                  = Raise ValueError).
  { induction Hex as [[k c] t (v & Hc & Hne & Hall) | [k c] t _ IH]; cbn [rmapM].
    - cbn [snd] in Hc. subst c. cbn [fill_nans].
      assert (Hany : existsb is_nan v = true).
      { destruct v as [|x t']; [congruence|]. inversion Hall; subst.
        cbn [existsb]. rewrite H1. reflexivity. }
      rewrite Hany, (fill_column_all_nan_raises v Hall). reflexivity.
    - destruct (fill_nans_cases c) as [(c' & ->) | ->]; cbn [rbind]; [|reflexivity].
      rewrite IH. reflexivity. }
  rewrite Hfill. reflexivity.
Qed.

Lemma model_smoother_all_nan_channel_raises_witness :
  model_smoother [("centroid"%string, Chan2 [[1; 2]; [nan; 3]]%float);
                  ("orientation"%string, Chan1 [nan; nan])]
                 (Some [[-200]; [-200]]%float) (Some (-300, -125)%float)
  = Raise ValueError.
Proof.
  apply model_smoother_all_nan_channel_raises.
  - reflexivity.
  - apply Exists_cons_tl. apply Exists_cons_hd. exists [nan; nan].
    split; [reflexivity|]. split; [discriminate|]. repeat constructor.
Defined.

(** ** [get_roi]: the overlap *)






Section GetRoiOverlap.
Variable strel : Type.
Variable cv2_dilate cv2_erode : roi_image -> strel -> Z -> roi_image.
Variable binary_fill_holes : roi_image -> roi_image.

(** X23. Without [overlap_roi], [get_roi] returns one mask per entry of
    [shape_index], in that order: the mask at rank [i] is the processed mask
    of the region [shape_index[i]]. *)
Theorem get_roi_in_rank_order depth_image region_properties shape_index strel_dilate
    dilate_iterations erode_iterations strel_erode bg_roi_fill_holes rois bboxes :
  get_roi strel cv2_dilate cv2_erode binary_fill_holes depth_image region_properties
    shape_index strel_dilate dilate_iterations erode_iterations strel_erode
    None bg_roi_fill_holes = Ok (rois, bboxes) ->
  length rois = length shape_index /\
  forall i shape, shape_index !! i = Some shape ->
    exists coords,
      region_properties !! shape = Some coords /\
      rois !! i = Some (region_roi strel cv2_dilate cv2_erode binary_fill_holes
                          depth_image strel_dilate dilate_iterations erode_iterations
                          strel_erode bg_roi_fill_holes coords).
Proof.
  unfold get_roi.
  match goal with
  | |- context [rfold ?f shape_index _] => set (step := f)
  end.
  assert (Hgen : forall l rs bs rs' bs',
            rfold step l (rs, bs) = Ok (rs', bs') ->
            exists new,
              rs' = rs ++ new /\ length new = length l /\
              forall i shape, l !! i = Some shape ->
                exists coords,
                  region_properties !! shape = Some coords /\
                  new !! i = Some (region_roi strel cv2_dilate cv2_erode
                                     binary_fill_holes depth_image strel_dilate
                                     dilate_iterations erode_iterations strel_erode
                                     bg_roi_fill_holes coords)).
  { induction l as [|shape t IH]; intros rs bs rs' bs'; cbn [rfold].
    - intros H. inversion H; subst. exists []. rewrite app_nil_r.
      split; [reflexivity|]. split; [reflexivity|]. intros i shape Hi. discriminate.
    - unfold step at 1. cbv beta iota.
      destruct (region_properties !! shape) as [coords|] eqn:Hc;
        cbn [rbind]; [|discriminate].
      intros H. apply IH in H as (new & -> & Hlen & Hnew).
      eexists (_ :: new). split; [rewrite <- app_assoc; reflexivity|].
      split; [cbn [length]; rewrite Hlen; reflexivity|].
      intros [|i] sh Hi.
      + inversion Hi; subst. exists coords. auto.
      + apply Hnew. exact Hi. }
  destruct (rfold step shape_index ([], [])) as [[rs bs]|e] eqn:Hfold;
    cbn [rbind]; [|discriminate].
  intros H. inversion H; subst.
  apply Hgen in Hfold as (new & -> & Hlen & Hnew). auto.
Qed.

End GetRoiOverlap.

(** X23 and X24 at a three-by-three image with two regions, the second
    ranked first. *)
Lemma get_roi_in_rank_order_witness :
  length [[[0; 0; 0]; [0; 1; 1]; [0; 0; 0]]; [[1; 0; 0]; [0; 0; 0]; [0; 0; 0]]]%N
    = length [1; 0]%nat /\
  forall i shape, [1; 0]%nat !! i = Some shape ->
    exists coords,
      [[(0, 0)]; [(1, 1); (1, 2)]]%nat !! shape = Some coords /\
      [[[0; 0; 0]; [0; 1; 1]; [0; 0; 0]]; [[1; 0; 0]; [0; 0; 0]; [0; 0; 0]]]%N !! i
      = Some (region_roi unit (fun f _ _ => f) (fun f _ _ => f) (fun f => f)
                [[5; 5; 5]; [5; 5; 5]; [5; 5; 5]] None 0 0 None false coords).
Proof.
  apply (get_roi_in_rank_order unit (fun f _ _ => f) (fun f _ _ => f) (fun f => f)
           [[5; 5; 5]; [5; 5; 5]; [5; 5; 5]]
           [[(0, 0)]; [(1, 1); (1, 2)]]%nat [1; 0]%nat None 0 0 None false
           [[[0; 0; 0]; [0; 1; 1]; [0; 0; 0]]; [[1; 0; 0]; [0; 0; 0]; [0; 0; 0]]]%N
           [Some (BBox 1 1 1 2); Some (BBox 0 0 0 0)]).
  reflexivity.
Defined.


(** ** [get_floor_ellipse]: the fit that is returned *)

Lemma In_insert_fit (p q : ellipse_fit) (l : list ellipse_fit) :
  In q (insert_fit p l) -> q = p \/ In q l.
Proof.
  induction l as [|r t IH]; simpl.
  - intros [<- | []]. left. reflexivity.
  - destruct (accumulator p <? accumulator r); simpl.
    + intros [<- | [<- | H]]; auto.
    + intros [<- | H]; [auto|]. destruct (IH H); auto.
Qed.

Lemma In_sort_accumulator (q : ellipse_fit) (l : list ellipse_fit) :
  In q (sort_accumulator l) -> In q l.
Proof.
  unfold sort_accumulator. induction l as [|p t IH]; simpl; [tauto|].
  intros H. apply In_insert_fit in H as [-> | H]; auto.
Qed.

Lemma index_from_end_In {A : Type} (l : list A) (ii : Z) (x : A) :
  index_from_end l ii = Ok x -> In x l.
Proof.
  unfold index_from_end. destruct (_ <? 0); [discriminate|].
  destruct (l !! _) as [y|] eqn:Hy; [|discriminate].
  intros H. inversion H; subst. apply list_elem_of_In.
  eapply list_elem_of_lookup_2. exact Hy.
Qed.

Section FloorEllipseResult.
Variable edge_map : Type.
Variable canny : bmask -> edge_map.
Variable hough_ellipse : edge_map -> Z -> Z -> list ellipse_fit.

Lemma hough_retry_result (fuel : nat) (edges : edge_map) (min_size thresh : Z)
    (result0 result : list ellipse_fit) :
  hough_retry edge_map hough_ellipse fuel edges min_size thresh result0 = Some result ->
  result <> [] /\
  (result = result0 \/
   exists t, t < thresh /\ result = sort_accumulator (hough_ellipse edges t min_size)).
Proof.
  revert thresh result0. induction fuel as [|fuel IH]; intros thresh result0; simpl.
  - destruct result0; [discriminate|]. intros H. inversion H; subst.
    split; [discriminate | left; reflexivity].
  - destruct result0 as [|p t].
    + intros H. apply IH in H as (Hne & [-> | (t & Ht & ->)]).
      * split; [exact Hne|]. right. exists (thresh - 50). split; [lia | reflexivity].
      * split; [exact Hne|]. right. exists t. split; [lia | reflexivity].
    + intros H. inversion H; subst. split; [discriminate | left; reflexivity].
Qed.

Lemma ecc_scan_result (fuel : nat) (result : list ellipse_fit) (e_threshold : float)
    (ii : Z) (cur p : ellipse_params) (ecc_current : float) :
  (exists fit, In fit result /\ read_fit fit = Ok (cur, ecc_current)) ->
  ecc_scan fuel result e_threshold ii cur ecc_current = Some (Ok p) ->
  exists fit ecc, In fit result /\ read_fit fit = Ok (p, ecc) /\
                  fgt ecc e_threshold = false.
Proof.
  revert ii cur ecc_current. induction fuel as [|fuel IH]; intros ii cur ecc Hcur; simpl.
  - destruct (fgt ecc e_threshold) eqn:Hgt; [discriminate|].
    intros H. inversion H; subst. destruct Hcur as (fit & Hin & Hfit). eauto.
  - destruct (fgt ecc e_threshold) eqn:Hgt.
    + destruct (index_from_end result (ii - 1)) as [next|e] eqn:Hnext; [|discriminate].
      destruct (read_fit next) as [[cur' ecc']|e] eqn:Hread; [|discriminate].
      apply IH. exists next. split; [|exact Hread].
      eapply index_from_end_In. exact Hnext.
    + intros H. inversion H; subst. destruct Hcur as (fit & Hin & Hfit). eauto.
Qed.

(** X25. An ellipse that [get_floor_ellipse] returns is the rounding of a
    candidate the Hough search returned at a threshold of 250 or less, and
    its eccentricity is not above [e_threshold]. *)
Theorem get_floor_ellipse_result_passes_eccentricity (fuel : nat) (roughFloorMask : bmask)
    (min_size : Z) (e_threshold : float) (p : ellipse_params) :
  get_floor_ellipse edge_map canny hough_ellipse fuel roughFloorMask min_size e_threshold
    = Some (Ok p) ->
  exists thresh fit ecc,
    thresh <= 250 /\
    In fit (hough_ellipse (canny roughFloorMask) thresh min_size) /\
    read_fit fit = Ok (p, ecc) /\
    fgt ecc e_threshold = false.
Proof.
  unfold get_floor_ellipse.
  destruct (hough_retry _ _ _ _ _ _ _) as [result|] eqn:Hretry; [|discriminate].
  apply hough_retry_result in Hretry as (Hne & Hsrc).
  destruct (index_from_end result (-1)) as [best|e] eqn:Hbest; [|discriminate].
  destruct (read_fit best) as [[cur ecc]|e] eqn:Hread; [|discriminate].
  intros Hscan. apply ecc_scan_result in Hscan as (fit & ecc' & Hin & Hfit & Hecc).
  - destruct Hsrc as [-> | (t & Ht & ->)].
    + exists 250, fit, ecc'. split; [lia|]. split; [apply In_sort_accumulator; exact Hin|].
      auto.
    + exists t, fit, ecc'. split; [lia|]. split; [apply In_sort_accumulator; exact Hin|].
      auto.
  - exists best. split; [eapply index_from_end_In; exact Hbest | exact Hread].
Qed.
End FloorEllipseResult.

Lemma get_floor_ellipse_result_passes_eccentricity_witness :
  exists thresh fit ecc,
    thresh <= 250 /\
    In fit ((fun (_ : unit) (t _ : Z) =>
               if t <? 200 then [EllipseFit 7 10 12 5 4 0; EllipseFit 9 10 12 30 4 0]%float
               else []) tt thresh 50) /\
    read_fit fit = Ok (EllipseParams 10 12 5 4 0, ecc) /\
    fgt ecc 0.75 = false.
Proof.
  apply (get_floor_ellipse_result_passes_eccentricity unit (fun _ => tt)
           (fun _ t _ =>
              if t <? 200 then [EllipseFit 7 10 12 5 4 0; EllipseFit 9 10 12 30 4 0]%float
              else [])
           5 [] 50 0.75%float).
  vm_compute. reflexivity.
Defined.

(** ** [get_flips]: the classifier's answer *)

(** X26. When the classifier accepts the batch and exactly one class, in
    column [j], is labelled 1, then without smoothing ([None] or 0)
    [get_flips] reports no crop size and marks a frame as flipped exactly
    when the argmax of its row of probabilities is [j]. *)
Theorem get_flips_follows_argmax (frames : batch) (clf : classifier)
    (smoothing : option Z) (probas : list (list float)) (j : nat) :
  predict_proba clf (map (@concat Z) frames) = Ok probas ->
  np_where (Z.eqb 1) (classes_ clf) = [j] ->
  smoothing = None \/ smoothing = Some 0 ->
  Forall (fun row => row <> []) probas ->
  exists am,
    rmapM np_argmax_float probas = Ok am /\
    Forall2 (fun row k => (k < length row)%nat) probas am /\
    get_flips frames (Some clf) smoothing
    = Ok (FlipsOut None (map (fun k => (k =? j)%nat) am)).
Proof.
  intros Hp Hclass Hsm Hrows.
  assert (Ham : exists am, rmapM np_argmax_float probas = Ok am /\
                           Forall2 (fun row k => (k < length row)%nat) probas am).
  { clear - Hrows. induction Hrows as [|row t Hrow _ (am & Ham & Hall)].
    - exists []. split; [reflexivity | constructor].
    - destruct (np_argmax_bound PrimFloat.leb is_nan row Hrow) as (k & Hk & Hlt).
      exists (k :: am). cbn [rmapM]. unfold np_argmax_float at 1. rewrite Hk. cbn [rbind].
      rewrite Ham. split; [reflexivity | constructor; assumption]. }
  destruct Ham as (am & Ham & Hall). exists am. split; [exact Ham|]. split; [exact Hall|].
  assert (Hb : np_broadcast2 Nat.eqb am [j] = Ok (map (fun k => (k =? j)%nat) am)).
  { unfold np_broadcast2. destruct am as [|a [|b t]]; reflexivity. }
  unfold get_flips. cbn [rbind]. rewrite Hp, Hclass.
  destruct Hsm as [-> | ->]; cbn [rbind Z.eqb]; rewrite Ham; cbn [rbind]; rewrite Hb;
    reflexivity.
Qed.

Lemma get_flips_follows_argmax_witness :
  exists am,
    rmapM np_argmax_float [[0.25; 0.75]; [0.5; 0.5]]%float = Ok am /\
    Forall2 (fun row k => (k < length row)%nat) [[0.25; 0.75]; [0.5; 0.5]]%float am /\
    get_flips [[[0; 0]; [0; 0]]; [[3; 1]; [4; 1]]]
      (Some (Classifier [0; 1] 4 (fun _ => [[0.25; 0.75]; [0.5; 0.5]]%float))) (Some 0)
    = Ok (FlipsOut None (map (fun k => (k =? 1)%nat) am)).
Proof.
  apply (get_flips_follows_argmax [[[0; 0]; [0; 0]]; [[3; 1]; [4; 1]]]
           (Classifier [0; 1] 4 (fun _ => [[0.25; 0.75]; [0.5; 0.5]]%float)) (Some 0)
           [[0.25; 0.75]; [0.5; 0.5]]%float 1%nat).
  - reflexivity.
  - reflexivity.
  - right. reflexivity.
  - repeat constructor; discriminate.
Defined.

(** ** [get_largest_cc]: the mask lies on the foreground *)

Section LargestCCForeground.
Variable cv2_connectedComponentsWithStats : image -> cc_result.

(** X27. Under OpenCV's contract, [get_largest_cc] returns one mask per
    frame; a mask has as many rows as its frame and is set only on pixels of
    the frame that are not zero. *)
Theorem get_largest_cc_within_foreground (frames : batch) (masks : list bmask) :
  (forall f, In f frames -> cc_contract f (cv2_connectedComponentsWithStats f) = true) ->
  get_largest_cc cv2_connectedComponentsWithStats frames = Ok masks ->
  length masks = length frames /\
  forall i f m, frames !! i = Some f -> masks !! i = Some m ->
    length m = length f /\
    forall y x, pixel m y x = Some true -> foreground f y x.
Proof.
  intros Hc H. unfold get_largest_cc in H.
  pose proof (rmapM_length _ _ _ H) as Hlen. split; [exact Hlen|].
  apply (rmapM_invariant
           (fun f m => largest_cc_frame cv2_connectedComponentsWithStats f = Ok m)) in H;
    [|auto].
  intros i f m Hf Hm. unfold batch, image, bmask in *.
  destruct (Forall2_lookup_l _ _ _ _ _ H Hf) as (m' & Hm' & Hcc).
  rewrite Hm in Hm'. inversion Hm'; subst m'.
  assert (Hin : In f frames).
  { apply list_elem_of_In. eapply list_elem_of_lookup_2. exact Hf. }
  pose proof (Hc f Hin) as Hcf.
  destruct (largest_cc_frame_cases cv2_connectedComponentsWithStats f Hcf)
    as [(_ & Hraise) | (_ & m1 & Hm1 & L & HL & Hmask & _)]; [congruence|].
  rewrite Hcc in Hm1. inversion Hm1; subst m1.
  apply cc_contract_facts in Hcf as (Hrows & Hpix & _).
  subst m. unfold label_mask. split; [rewrite length_map; exact Hrows|].
  intros y x. unfold pixel, foreground, pixel.
  change (map ?g (cc_output ?r)) with (g <$> cc_output r). rewrite list_lookup_fmap.
  destruct (cc_output (cv2_connectedComponentsWithStats f) !! y) as [orow|] eqn:Horow;
    cbn; [|discriminate].
  change (map ?g orow) with (g <$> orow). rewrite list_lookup_fmap.
  destruct (orow !! x) as [l|] eqn:Hl; cbn; [|discriminate].
  intros Heq. inversion Heq as [HlL]. apply Nat.eqb_eq in HlL. subst l.
  assert (Hy : (y < length f)%nat).
  { unfold image in *. rewrite <- Hrows. eapply lookup_lt_Some. exact Horow. }
  destruct (lookup_lt_is_Some_2 f y Hy) as (frow & Hfrow).
  destruct (Hpix y frow orow Hfrow Horow) as (Hw & Hp).
  assert (Hx : (x < length frow)%nat).
  { rewrite Hw. eapply lookup_lt_Some. exact Hl. }
  destruct (lookup_lt_is_Some_2 frow x Hx) as (v & Hv).
  destruct (Hp x v L Hv Hl) as (Hiff & _).
  exists v. unfold image in *. rewrite Hfrow. cbn. split; [exact Hv|].
  intros Hz. apply Hiff in Hz. lia.
Qed.
End LargestCCForeground.

Lemma get_largest_cc_within_foreground_witness :
  length [[[false; true]; [false; true]]] = length [[[0; 1]; [0; 1]]] /\
  forall i f m, [[[0; 1]; [0; 1]]] !! i = Some f ->
    [[[false; true]; [false; true]]] !! i = Some m ->
    length m = length f /\
    forall y x, pixel m y x = Some true -> foreground f y x.
Proof.
  apply (get_largest_cc_within_foreground
           (fun _ => CCResult 2 [[0; 1]; [0; 1]]%nat [[0; 0; 1; 2; 2]; [1; 0; 1; 2; 2]])
           [[[0; 1]; [0; 1]]] [[[false; true]; [false; true]]]).
  - intros f [<- | []]. vm_compute. reflexivity.
  - reflexivity.
Defined.

(** ** [eval_plane_z]: a plane without slope in z *)

Lemma Prim2SF_zero (c : float) :
  (c =? 0)%float = true -> exists s, Prim2SF c = S754_zero s.
Proof.
  rewrite FloatAxioms.eqb_spec. change (Prim2SF 0) with (S754_zero false).
  unfold SFeqb, SFcompare. destruct (Prim2SF c) as [s|s| |s m e];
    try discriminate; try (destruct s; discriminate).
  eauto.
Qed.

Lemma not_finite (z : float) :
  Prim2SF z = S754_nan \/ (exists s, Prim2SF z = S754_infinity s) ->
  is_finite z = false.
Proof.
  intros H. unfold is_finite, is_nan, is_infinity.
  rewrite !FloatAxioms.eqb_spec, abs_spec.
  destruct H as [-> | ([|] & ->)]; reflexivity.
Qed.

(** X28. For a plane with [c = 0] (of either sign), [eval_plane_z] does not
    raise: it returns one value per point and none of them is finite (each
    is an infinity or NaN). *)
Theorem eval_plane_z_vertical_plane (a b c d : float) (yx : list (float * float)) :
  (c =? 0)%float = true ->
  exists zs,
    eval_plane_z [a; b; c; d] yx = Ok zs /\
    length zs = length yx /\
    Forall (fun z => is_finite z = false) zs.
Proof.
  intros Hc. cbn [eval_plane_z lookup list_lookup]. unfold eval_plane_z. cbn.
  eexists. split; [reflexivity|]. split; [apply length_map|].
  apply Forall_forall. intros z Hz. apply list_elem_of_In, in_map_iff in Hz
    as ([y x] & <- & _).
  apply not_finite.
  destruct (Prim2SF_zero c Hc) as (s & Hs).
  rewrite mul_spec, div_spec, Hs.
  change (Prim2SF (-1)) with (S754_finite true 4503599627370496 (-52)).
  unfold SF64mul, SF64div, SFmul, SFdiv.
  destruct (Prim2SF (a * x + b * y + d)) as [s'|s'| |s' m e]; eauto.
Qed.

Lemma eval_plane_z_vertical_plane_witness :
  exists zs,
    eval_plane_z [1; 2; 0; 3]%float [(0, 0); (4, 5)]%float = Ok zs /\
    length zs = length [(0, 0); (4, 5)]%float /\
    Forall (fun z => is_finite z = false) zs.
Proof.
  apply eval_plane_z_vertical_plane. reflexivity.
Defined.
